(** * latch exec: the interactive remote-execution tunnel

    A shallow embedding of [latch_cli/services/execute.py] (credential
    fetch, kubeconfig rendering, the select-driven IO pump) and of the
    [exec] command of [latch_cli/main.py], with the properties the
    specification states about them; then the commands [get-wf], [ls]
    and [init] of [latch_cli/main.py].

    Conventions of the embedding.
    - Python text is a [string] of 8-bit characters, bytes are
      [list byte]; decoded JSON is the inductive [pyval] (None, bool, int,
      str, list, dict; float numbers are not represented).
    - A Python dict is an association list in insertion order with
      distinct keys ([dict_set] keeps them distinct).
    - A computation ends by falling through, by [return], by
      [sys.exit] or by an exception: the type [outcome].
    - What the process does to the outside (frames sent, descriptors
      written, lines printed) is recorded in a trace of [event]s; what the
      outside does to the process (readiness, bytes read, frames received)
      is an explicit input, one [iteration] per turn of the loop.  The
      trace also records each frame [recv_data_frame] returned, so that
      outputs can be related to the frames that caused them.
    - Library calls are modelled by what they do on success:
      [os.read], [os.write] and [wssock.send] do not fail and [os.write]
      takes the whole buffer.  The calls that may fail in the model are
      the JSON decoder, [recv_data_frame], the open and the write of the
      profile, [load_kube_config] and [stream]; the helpers
      [retrieve_or_login] and [account_id_from_token], which are not part
      of the two source files, are taken to have returned. *)

From Stdlib Require Import ZArith List Ascii String Strings.Byte Bool Lia.
From stdpp Require Import base option gmap strings pretty.
Import ListNotations.

Set Warnings "-register-all".

Local Open Scope string_scope.
Local Open Scope Z_scope.
Local Open Scope list_scope.

(** ** Python values *)

Inductive pyval : Type :=
| PNone
| PBool (b : bool)
| PInt (n : Z)
| PStr (s : string)
| PList (l : list pyval)
| PDict (d : list (string * pyval)).

(** One segment of an f-string or of a printed line: literal text or a
    formatted value. *)
Inductive piece : Type :=
| Lit (s : string)
| Fmt (v : pyval)
| FmtInt (n : Z)
| FmtBytes (b : list byte).

Inductive exn : Type :=
| KeyError (key : string)
| TypeError
| IndexError
| ValueError (msg : list piece)
| JSONDecodeError
| WebSocketException
| OSError
| ConfigException
| ApiException.

(** How a piece of Python code ends when it does not fall through. *)
Inductive outcome : Type :=
| Return (code : Z)
| SysExit (code : Z)
| Raise (e : exn).

(** [d.get(k)] on the association list. *)
Fixpoint dict_get (d : list (string * pyval)) (k : string) : option pyval :=
  match d with
  | [] => None
  | (k', v) :: rest => if String.eqb k' k then Some v else dict_get rest k
  end.

(** [d[k] = v]: an existing key keeps its position. *)
Fixpoint dict_set (d : list (string * pyval)) (k : string) (v : pyval)
  : list (string * pyval) :=
  match d with
  | [] => [(k, v)]
  | (k', v') :: rest =>
      if String.eqb k' k then (k', v) :: rest else (k', v') :: dict_set rest k v
  end.

(** [v[k]] for a string key [k]. *)
Definition py_getitem (v : pyval) (k : string) : exn + pyval :=
  match v with
  | PDict d => match dict_get d k with
               | Some x => inr x
               | None => inl (KeyError k)
               end
  | _ => inl TypeError
  end.

(** [v == s] for a string constant [s]. *)
Definition py_eq_str (v : pyval) (s : string) : bool :=
  match v with
  | PStr t => String.eqb t s
  | _ => false
  end.

Fixpoint chars (s : string) : list pyval :=
  match s with
  | EmptyString => []
  | String c r => PStr (String c EmptyString) :: chars r
  end.

(** The items a [for] loop over [v] visits. *)
Definition py_iter (v : pyval) : exn + list pyval :=
  match v with
  | PList l => inr l
  | PDict d => inr (map (fun kv => PStr (fst kv)) d)
  | PStr s => inr (chars s)
  | _ => inl TypeError
  end.

(** ** [int(...)] *)

Definition code (c : ascii) : Z := Z.of_N (N_of_ascii c).

(** Characters [int] strips from both ends of its argument. *)
Definition is_space (c : ascii) : bool :=
  let n := code c in
  ((9 <=? n) && (n <=? 13)) || (n =? 32) || (n =? 133) || (n =? 160).

Definition is_digit (c : ascii) : bool :=
  let n := code c in (48 <=? n) && (n <=? 57).

Fixpoint lstrip (s : string) : string :=
  match s with
  | String c r => if is_space c then lstrip r else s
  | EmptyString => EmptyString
  end.

Definition strip (s : string) : string :=
  String.rev (lstrip (String.rev (lstrip s))).

(** Decimal digits, single underscores allowed between two digits. *)
Fixpoint digits_value (acc : Z) (after_digit : bool) (s : string) : option Z :=
  match s with
  | EmptyString => if after_digit then Some acc else None
  | String c r =>
      if is_digit c then digits_value (10 * acc + (code c - 48)) true r
      else if Ascii.eqb c "_" then
             if after_digit then digits_value acc false r else None
      else None
  end.

Definition int_of_str (s : string) : option Z :=
  match strip s with
  | String "-" r => option_map Z.opp (digits_value 0 false r)
  | String "+" r => digits_value 0 false r
  | r => digits_value 0 false r
  end.

Definition invalid_literal (s : string) : exn :=
  ValueError [Lit "invalid literal for int() with base 10: "; Fmt (PStr s)].

(** [int(v)], base 10.  The interpreter's optional limit on the number of
    digits of the literal is not modelled. *)
Definition py_int (v : pyval) : exn + Z :=
  match v with
  | PInt n => inr n
  | PBool b => inr (if b then 1 else 0)
  | PStr s => match int_of_str s with
              | Some n => inr n
              | None => inl (invalid_literal s)
              end
  | _ => inl TypeError
  end.

(** ** A decoder for ASCII JSON texts

    [json.loads] is a library function; the pump below takes the decoder
    as a parameter.  [json_loads_ascii] is the instance used on concrete
    payloads: it reads JSON texts made of ASCII bytes whose numbers are
    integers, and answers [None] (the decoder raises) on everything
    else. *)

Definition dquote : ascii := "034"%char.
Definition backslash : ascii := "092"%char.

Definition is_json_ws (c : ascii) : bool :=
  let n := code c in (n =? 32) || (n =? 9) || (n =? 10) || (n =? 13).

Fixpoint skip_ws (s : string) : string :=
  match s with
  | String c r => if is_json_ws c then skip_ws r else s
  | EmptyString => EmptyString
  end.

Definition hex_digit (c : ascii) : option Z :=
  let n := code c in
  if (48 <=? n) && (n <=? 57) then Some (n - 48)
  else if (65 <=? n) && (n <=? 70) then Some (n - 55)
  else if (97 <=? n) && (n <=? 102) then Some (n - 87)
  else None.

Definition ascii_of_Z (n : Z) : ascii := ascii_of_N (Z.to_N n).

(** The text of a string literal after its opening quote, and what
    follows the closing quote. *)
Fixpoint scan_string (s : string) : option (string * string) :=
  match s with
  | EmptyString => None
  | String c r =>
      if Ascii.eqb c dquote then Some (EmptyString, r)
      else if Ascii.eqb c backslash then
        match r with
        | String e r' =>
            let plain (x : ascii) :=
              match scan_string r' with
              | Some (t, rest) => Some (String x t, rest)
              | None => None
              end in
            if Ascii.eqb e dquote then plain dquote
            else if Ascii.eqb e backslash then plain backslash
            else if Ascii.eqb e "/" then plain "/"%char
            else if Ascii.eqb e "b" then plain "008"%char
            else if Ascii.eqb e "f" then plain "012"%char
            else if Ascii.eqb e "n" then plain "010"%char
            else if Ascii.eqb e "r" then plain "013"%char
            else if Ascii.eqb e "t" then plain "009"%char
            else if Ascii.eqb e "u" then
              match r' with
              | String h1 (String h2 (String h3 (String h4 r''))) =>
                  match hex_digit h1, hex_digit h2, hex_digit h3, hex_digit h4 with
                  | Some 0, Some 0, Some a, Some b =>
                      match scan_string r'' with
                      | Some (t, rest) => Some (String (ascii_of_Z (16 * a + b)) t, rest)
                      | None => None
                      end
                  | _, _, _, _ => None
                  end
              | _ => None
              end
            else None
        | EmptyString => None
        end
      else if code c <? 32 then None
      else match scan_string r with
           | Some (t, rest) => Some (String c t, rest)
           | None => None
           end
  end.

Fixpoint take_digits (s : string) : string * string :=
  match s with
  | String c r =>
      if is_digit c then let '(d, rest) := take_digits r in (String c d, rest)
      else (EmptyString, s)
  | EmptyString => (EmptyString, EmptyString)
  end.

Definition starts_number_tail (s : string) : bool :=
  match s with
  | String c _ => Ascii.eqb c "." || Ascii.eqb c "e" || Ascii.eqb c "E"
  | EmptyString => false
  end.

(** An optional minus sign, then 0 or a digit string without leading
    zero, not followed by a fraction or an exponent. *)
Definition scan_int (s : string) : option (Z * string) :=
  let '(neg, body) :=
    match s with
    | String "-" r => (true, r)
    | _ => (false, s)
    end in
  let '(d, rest) := take_digits body in
  let d' := match d with
            | String "0" (String _ _) => "0"
            | _ => d
            end in
  let rest' := match d with
               | String "0" more => more +:+ rest
               | _ => rest
               end in
  match digits_value 0 false d' with
  | Some n => if starts_number_tail rest' then None
              else Some (if neg then - n else n, rest')
  | None => None
  end.

(** [s.startswith(p)], and what follows [p] in [s]. *)
Fixpoint starts_with (p s : string) : bool :=
  match p, s with
  | EmptyString, _ => true
  | String a p', String c s' => Ascii.eqb a c && starts_with p' s'
  | String _ _, EmptyString => false
  end.

Fixpoint strip_prefix (p s : string) : option string :=
  match p, s with
  | EmptyString, _ => Some s
  | String a p', String c s' => if Ascii.eqb a c then strip_prefix p' s' else None
  | String _ _, EmptyString => None
  end.

Inductive pmode : Type :=
| MValue
| MMembers (acc : list (string * pyval))
| MElements (acc : list pyval).

Fixpoint parse (fuel : nat) (m : pmode) (s : string) : option (pyval * string) :=
  match fuel with
  | O => None
  | S fuel' =>
      match m with
      | MValue =>
          match s with
          | String "{" r =>
              match skip_ws r with
              | String "}" r' => Some (PDict [], r')
              | r' => parse fuel' (MMembers []) r'
              end
          | String "[" r =>
              match skip_ws r with
              | String "]" r' => Some (PList [], r')
              | r' => parse fuel' (MElements []) r'
              end
          | String c r =>
              if Ascii.eqb c dquote then
                match scan_string r with
                | Some (t, rest) => Some (PStr t, rest)
                | None => None
                end
              else
                match strip_prefix "null" s, strip_prefix "true" s, strip_prefix "false" s with
                | Some rest, _, _ => Some (PNone, rest)
                | _, Some rest, _ => Some (PBool true, rest)
                | _, _, Some rest => Some (PBool false, rest)
                | _, _, _ =>
                    match scan_int s with
                    | Some (n, rest) => Some (PInt n, rest)
                    | None => None
                    end
                end
          | EmptyString => None
          end
      | MMembers acc =>
          match s with
          | String c r =>
              if Ascii.eqb c dquote then
                match scan_string r with
                | Some (k, r1) =>
                    match skip_ws r1 with
                    | String ":" r2 =>
                        match parse fuel' MValue (skip_ws r2) with
                        | Some (v, r3) =>
                            let acc' := dict_set acc k v in
                            match skip_ws r3 with
                            | String "," r4 => parse fuel' (MMembers acc') (skip_ws r4)
                            | String "}" r4 => Some (PDict acc', r4)
                            | _ => None
                            end
                        | None => None
                        end
                    | _ => None
                    end
                | None => None
                end
              else None
          | EmptyString => None
          end
      | MElements acc =>
          match parse fuel' MValue s with
          | Some (v, r1) =>
              match skip_ws r1 with
              | String "," r2 => parse fuel' (MElements (acc ++ [v])) (skip_ws r2)
              | String "]" r2 => Some (PList (acc ++ [v]), r2)
              | _ => None
              end
          | None => None
          end
      end
  end.

Definition is_ascii_byte (b : byte) : bool := (Byte.to_N b <? 128)%N.

Definition json_loads_ascii (data : list byte) : option pyval :=
  if forallb is_ascii_byte data then
    let s := string_of_list_byte data in
    match parse (2 * String.length s + 2) MValue (skip_ws s) with
    | Some (v, rest) =>
        match skip_ws rest with
        | EmptyString => Some v
        | _ => None
        end
    | None => None
    end
  else None.

(** The bytes of an ASCII text, and a text between double quotes. *)
Definition bytes_of (s : string) : list byte := list_byte_of_string s.
Definition quoted (s : string) : string :=
  String dquote (s +:+ String dquote EmptyString).


(** ** Lines of a text *)

Definition newline : ascii := "010"%char.
Definition nl : string := String newline EmptyString.

(** [text.split("\n")]. *)
Fixpoint split_nl (s : string) : list string :=
  match s with
  | EmptyString => [EmptyString]
  | String c r =>
      if Ascii.eqb c newline then EmptyString :: split_nl r
      else match split_nl r with
           | l :: ls => String c l :: ls
           | [] => [String c EmptyString]
           end
  end.

(** ["\n".join(lines)]. *)
Definition join_nl (ls : list string) : string := String.concat nl ls.

(** ** [textwrap.dedent]

    The regular-expression implementation of CPython up to 3.13: lines
    made only of spaces and tabs are emptied, the margin is the longest
    run of spaces and tabs that starts every other non-empty line, and it
    is removed from the lines that start with it. *)

Definition is_blank (c : ascii) : bool :=
  Ascii.eqb c " " || Ascii.eqb c "009".

Fixpoint all_blank (s : string) : bool :=
  match s with
  | EmptyString => true
  | String c r => is_blank c && all_blank r
  end.

(** [_whitespace_only_re.sub('', text)], line by line. *)
Definition normalize_line (l : string) : string :=
  if all_blank l then EmptyString else l.

(** The group of [_leading_whitespace_re] on a line that has a match. *)
Fixpoint leading_ws (l : string) : string :=
  match l with
  | String c r => if is_blank c then String c (leading_ws r) else EmptyString
  | EmptyString => EmptyString
  end.

Definition indents (ls : list string) : list string :=
  map leading_ws (List.filter (fun l => negb (all_blank l)) ls).

Fixpoint common_prefix (x y : string) : string :=
  match x, y with
  | String a x', String c y' =>
      if Ascii.eqb a c then String a (common_prefix x' y') else EmptyString
  | _, _ => EmptyString
  end.

Definition margin_step (margin : option string) (indent : string) : option string :=
  match margin with
  | None => Some indent
  | Some m =>
      if starts_with m indent then Some m
      else if starts_with indent m then Some indent
      else Some (common_prefix m indent)
  end.

(** [re.sub(r'(?m)^' + margin, '', text)], line by line. *)
Definition remove_margin (m l : string) : string :=
  match strip_prefix m l with
  | Some r => r
  | None => l
  end.

Definition dedent (text : string) : string :=
  let ls := map normalize_line (split_nl text) in
  match fold_left margin_step (indents ls) None with
  | Some (String c m) => join_nl (map (remove_margin (String c m)) ls)
  | _ => join_nl ls
  end.

(** ** [_construct_kubeconfig] *)

Definition region_code : string := "us-west-2".
Definition cluster_name : string := "prion-prod".

(** The name [arn:aws:eks:{region_code}:{account_id}:cluster/{cluster_name}]. *)
Definition cluster_arn (account_id : string) : string :=
  "arn:aws:eks:" +:+ region_code +:+ ":" +:+ account_id +:+ ":cluster/" +:+ cluster_name.

(** The f-string of the source, one entry per line. *)
Definition kubeconfig_lines
  (cert_auth_data cluster_endpoint account_id access_key secret_key session_token : string)
  : list string :=
  let open_brack := "{" in
  let close_brack := "}" in
  [ "apiVersion: v1";
    "clusters:";
    "- cluster:";
    "    certificate-authority-data: " +:+ cert_auth_data;
    "    server: " +:+ cluster_endpoint;
    "  name: " +:+ cluster_arn account_id;
    "contexts:";
    "- context:";
    "    cluster: " +:+ cluster_arn account_id;
    "    user: " +:+ cluster_arn account_id;
    "  name: " +:+ cluster_arn account_id;
    "current-context: " +:+ cluster_arn account_id;
    "kind: Config";
    "preferences: " +:+ open_brack +:+ close_brack;
    "users:";
    "- name: " +:+ cluster_arn account_id;
    "  user:";
    "    exec:";
    "      apiVersion: client.authentication.k8s.io/v1beta1";
    "      command: aws";
    "      args:";
    "        - --region";
    "        - " +:+ region_code;
    "        - eks";
    "        - get-token";
    "        - --cluster-name";
    "        - " +:+ cluster_name;
    "      env:";
    "        - name: 'AWS_ACCESS_KEY_ID'";
    "          value: '" +:+ access_key +:+ "'";
    "        - name: 'AWS_SECRET_ACCESS_KEY'";
    "          value: '" +:+ secret_key +:+ "'";
    "        - name: 'AWS_SESSION_TOKEN'";
    "          value: '" +:+ session_token +:+ "'" ].

Definition _construct_kubeconfig
  (cert_auth_data cluster_endpoint account_id access_key secret_key session_token : string)
  : string :=
  dedent (join_nl (kubeconfig_lines cert_auth_data cluster_endpoint account_id
                     access_key secret_key session_token)).


(** ** The IO pump: the [while True] loop of [execute] *)

(** Members of [rlist]. *)
Inductive desc : Type := Sock | Stdin.

Definition desc_eqb (x y : desc) : bool :=
  match x, y with
  | Sock, Sock | Stdin, Stdin => true
  | _, _ => false
  end.

(** The local output descriptors [sys.stdout.fileno()] and
    [sys.stderr.fileno()]. *)
Inductive local_fd : Type := Stdout | Stderr.

Inductive event : Type :=
| EvSend (frame : list byte)              (* wssock.send(frame, OPCODE_BINARY) *)
| EvRecv (opcode : Z) (data : list byte)  (* wssock.recv_data_frame(True) returned *)
| EvWrite (fd : local_fd) (data : list byte)   (* os.write(fd, data) *)
| EvClose                                 (* wssock.close() *)
| EvPrint (line : list piece)             (* print(..., file=sys.stderr) *)
| EvLoadKubeConfig (profile : string)     (* load_kube_config read this text *)
| EvConnect (pod_name : string) (namespace : pyval)   (* stream(...) opened *)
| EvSecho (line : list piece).            (* click.secho(...) *)

(** Channel ids of [kubernetes.stream.ws_client] and frame opcodes of
    [websocket.ABNF]. *)
Definition STDIN_CHANNEL : Z := 0.
Definition STDOUT_CHANNEL : Z := 1.
Definition STDERR_CHANNEL : Z := 2.
Definition ERROR_CHANNEL : Z := 3.
Definition OPCODE_BINARY : Z := 2.
Definition OPCODE_CLOSE : Z := 8.

(** What one turn of the loop gets from outside: which descriptors
    [select] reports readable, the bytes available on the local input, and
    what [recv_data_frame] answers (a frame, or an exception of the
    transport). *)
Record iteration : Type := {
  stdin_ready : bool;
  stdin_data : list byte;
  sock_ready : bool;
  sock_recv : exn + (Z * list byte)
}.

Record pump : Type := {
  rlist : list desc;
  trace : list event
}.

(** State and early exit: a step either falls through with a value or
    ends the function with an [outcome]. *)
Definition M (A : Type) : Type := pump -> pump * (outcome + A).

Definition ret {A} (a : A) : M A := fun st => (st, inr a).

Definition bind {A B} (m : M A) (k : A -> M B) : M B :=
  fun st => match m st with
            | (st', inr a) => k a st'
            | (st', inl o) => (st', inl o)
            end.

Notation "x <- m ;; k" := (bind m (fun x => k))
  (at level 100, m at next level, right associativity).
Notation "m ;; k" := (bind m (fun _ => k))
  (at level 100, right associativity).

Definition finish {A} (o : outcome) : M A := fun st => (st, inl o).

Definition lift {A} (r : exn + A) : M A :=
  match r with
  | inr a => ret a
  | inl e => finish (Raise e)
  end.

Definition emit (e : event) : M unit :=
  fun st => ({| rlist := rlist st; trace := trace st ++ [e] |}, inr tt).

Definition print (line : list piece) : M unit := emit (EvPrint line).

Definition mem (d : desc) (l : list desc) : bool := existsb (desc_eqb d) l.

Fixpoint remove_first (d : desc) (l : list desc) : list desc :=
  match l with
  | [] => []
  | x :: r => if desc_eqb d x then r else x :: remove_first d r
  end.

(** [rlist.remove(d)]. *)
Definition rlist_remove (d : desc) : M unit :=
  fun st =>
    if mem d (rlist st)
    then ({| rlist := remove_first d (rlist st); trace := trace st |}, inr tt)
    else (st, inl (Raise (ValueError [Lit "list.remove(x): x not in list"]))).

Definition ready (i : iteration) (d : desc) : bool :=
  match d with
  | Sock => sock_ready i
  | Stdin => stdin_ready i
  end.

(** [select.select(rlist, [], [])]: the readable members of [rlist]. *)
Definition select (i : iteration) : M (list desc) :=
  fun st => (st, inr (List.filter (ready i) (rlist st))).

Definition nonempty {A} (l : list A) : bool :=
  match l with
  | [] => false
  | _ :: _ => true
  end.

Definition channel_of (c : byte) : Z := Z.of_N (Byte.to_N c).

Section Pump.

(** [json.loads] on a frame payload; [None] when it raises. *)
Variable json_loads : list byte -> option pyval.

(** The [for cause in ...] loop with its [return]. *)
Fixpoint scan_causes (causes : list pyval) : M unit :=
  match causes with
  | [] => ret tt
  | cause :: rest =>
      reason <- lift (py_getitem cause "reason") ;;
      if py_eq_str reason "ExitCode" then
        message <- lift (py_getitem cause "message") ;;
        n <- lift (py_int message) ;;
        finish (Return n)
      else scan_causes rest
  end.

(** The [ERROR_CHANNEL] branch. *)
Definition decode_status (data : list byte) : M unit :=
  emit EvClose ;;
  error <- lift (match json_loads data with
                 | Some v => inr v
                 | None => inl JSONDecodeError
                 end) ;;
  status <- lift (py_getitem error "status") ;;
  if py_eq_str status "Success" then finish (Return 0)
  else
    reason <- lift (py_getitem error "reason") ;;
    (if py_eq_str reason "NonZeroExitCode" then
       details <- lift (py_getitem error "details") ;;
       causes <- lift (py_getitem details "causes") ;;
       items <- lift (py_iter causes) ;;
       scan_causes items
     else ret tt) ;;
    print [] ;;
    status' <- lift (py_getitem error "status") ;;
    message <- lift (py_getitem error "message") ;;
    print [Lit "Status: "; Fmt status'; Lit " - Message: "; Fmt message] ;;
    print [] ;;
    finish (SysExit 1).

Definition unexpected_channel (channel : Z) (data : list byte) : M unit :=
  print [] ;;
  print [Lit "Unexpected channel: "; FmtInt channel] ;;
  print [Lit "Data: "; FmtBytes data] ;;
  print [] ;;
  finish (SysExit 1).

Definition unexpected_opcode (opcode : Z) : M unit :=
  print [] ;;
  print [Lit "Unexpected websocket opcode: "; FmtInt opcode] ;;
  print [] ;;
  finish (SysExit 1).

(** What the loop does with the answer of [recv_data_frame]. *)
Definition handle_frame (opcode : Z) (frame : list byte) : M unit :=
  if opcode =? OPCODE_CLOSE then rlist_remove Sock
  else if opcode =? OPCODE_BINARY then
    match frame with
    | [] => finish (Raise IndexError)
    | c :: data =>
        let channel := channel_of c in
        if (channel =? STDOUT_CHANNEL) || (channel =? STDERR_CHANNEL) then
          if nonempty data then
            if channel =? STDOUT_CHANNEL then emit (EvWrite Stdout data)
            else emit (EvWrite Stderr data)
          else ret tt
        else if channel =? ERROR_CHANNEL then decode_status data
        else unexpected_channel channel data
    end
  else unexpected_opcode opcode.

Definition stdin_channel : list byte := [x00].

(** [os.read(fd, n)] when [avail] is what the descriptor has. *)
Definition os_read (n : Z) (avail : list byte) : list byte :=
  firstn (Z.to_nat n) avail.

(** The local half of a turn: [os.read(stdin, 32 * 1024)] and the
    forwarding of a non-empty chunk. *)
Definition forward_stdin (i : iteration) (rs : list desc) : M unit :=
  if mem Stdin rs then
    let data := os_read (32 * 1024) (stdin_data i) in
    if nonempty data then emit (EvSend (stdin_channel ++ data)) else ret tt
  else ret tt.

(** The remote half of a turn. *)
Definition receive (i : iteration) (rs : list desc) : M unit :=
  if mem Sock rs then
    r <- lift (sock_recv i) ;;
    emit (EvRecv (fst r) (snd r)) ;;
    handle_frame (fst r) (snd r)
  else ret tt.

(** One turn of [while True]. *)
Definition body (i : iteration) : M unit :=
  rs <- select i ;;
  forward_stdin i rs ;;
  receive i rs.

(** The loop over the turns the outside provides; [None] when it is
    still waiting in [select] after the last of them. *)
Fixpoint run (its : list iteration) (st : pump) : pump * option outcome :=
  match its with
  | [] => (st, None)
  | i :: rest =>
      match body i st with
      | (st', inl o) => (st', Some o)
      | (st', inr _) => run rest st'
      end
  end.

End Pump.

(** [rlist = [wssock.sock, stdin]] and nothing done yet. *)
Definition pump0 : pump := {| rlist := [Sock; Stdin]; trace := [] |}.

Definition frame_turn (opcode : Z) (data : list byte) : iteration :=
  {| stdin_ready := false; stdin_data := []; sock_ready := true;
     sock_recv := inr (opcode, data) |}.

Definition status_success : list byte :=
  bytes_of ("{" +:+ quoted "status" +:+ ":" +:+ quoted "Success" +:+ "}").

Definition status_exit_17 : list byte :=
  bytes_of ("{" +:+ quoted "status" +:+ ":" +:+ quoted "Failure" +:+ "," +:+ quoted "reason" +:+ ":"
     +:+ quoted "NonZeroExitCode" +:+ "," +:+ quoted "details" +:+ ":{" +:+ quoted "causes"
     +:+ ":[{" +:+ quoted "reason" +:+ ":" +:+ quoted "ExitCode" +:+ "," +:+ quoted "message"
     +:+ ":" +:+ quoted "17" +:+ "}]}}").

Definition status_boom : list byte :=
  bytes_of ("{" +:+ quoted "status" +:+ ":" +:+ quoted "Failure" +:+ "," +:+ quoted "reason" +:+ ":"
     +:+ quoted "SomethingElse" +:+ "," +:+ quoted "message" +:+ ":" +:+ quoted "boom" +:+ "}").

Definition status_no_message : list byte :=
  bytes_of ("{" +:+ quoted "status" +:+ ":" +:+ quoted "Failure" +:+ "," +:+ quoted "reason" +:+ ":"
     +:+ quoted "SomethingElse" +:+ "}").


(** ** [_fetch_pod_info] *)

Definition and_then {A B} (r : exn + A) (k : A -> exn + B) : exn + B :=
  match r with
  | inr a => k a
  | inl e => inl e
  end.

Notation "x <~ r ;; k" := (and_then r (fun x => k))
  (at level 100, r at next level, right associativity).

(** The tuple [_fetch_pod_info] returns. *)
Record pod_info : Type := {
  access_key : pyval;
  secret_key : pyval;
  session_token : pyval;
  cert_auth_data : pyval;
  cluster_endpoint : pyval;
  namespace : pyval;
  aws_account_id : pyval
}.

Definition required_fields : list string :=
  [ "tmp_access_key"; "tmp_secret_key"; "tmp_session_token"; "cert_auth_data";
    "cluster_endpoint"; "namespace"; "aws_account_id" ].

(** The subscripts of the [try] block, in source order. *)
Definition read_fields (response : pyval) : exn + pod_info :=
  access_key <~ py_getitem response "tmp_access_key" ;;
  secret_key <~ py_getitem response "tmp_secret_key" ;;
  session_token <~ py_getitem response "tmp_session_token" ;;
  cert_auth_data <~ py_getitem response "cert_auth_data" ;;
  cluster_endpoint <~ py_getitem response "cluster_endpoint" ;;
  namespace <~ py_getitem response "namespace" ;;
  aws_account_id <~ py_getitem response "aws_account_id" ;;
  inr {| access_key := access_key; secret_key := secret_key;
         session_token := session_token; cert_auth_data := cert_auth_data;
         cluster_endpoint := cluster_endpoint; namespace := namespace;
         aws_account_id := aws_account_id |}.

Definition malformed_response (response : pyval) : exn :=
  ValueError [Lit "malformed response on image upload: "; Fmt response].

Section Session.

(** [json.loads] / [response.json()]; [None] when it raises. *)
Variable json_loads : list byte -> option pyval.

(** [repr] of a list or a dict, which [str] of such a value is. *)
Variable py_repr : pyval -> string.

(** [_fetch_pod_info], from the body of the answer to the
    [pod-exec-info] request. *)
Definition _fetch_pod_info (body : list byte) : exn + pod_info :=
  match json_loads body with
  | None => inl JSONDecodeError
  | Some response =>
      match read_fields response with
      | inl (KeyError _) => inl (malformed_response response)
      | r => r
      end
  end.

(** What an f-string puts for [{v}]. *)
Definition py_str (v : pyval) : string :=
  match v with
  | PStr s => s
  | PNone => "None"
  | PBool true => "True"
  | PBool false => "False"
  | PInt n => pretty n
  | _ => py_repr v
  end.

(** ** The session: [execute] of [services/execute.py] *)

(** Files by resolved path, and the paths held open. *)
Record world : Type := {
  files : gmap string string;
  open_files : list string
}.

(** What the outside contributes to one session. *)
Record session : Type := {
  task_name : string;
  cwd : string;
  token_account_id : string;       (* account_id_from_token(token) *)
  broker_body : list byte;         (* body of the pod-exec-info answer *)
  open_fails : bool;               (* open(config_file, "w") raises *)
  write_fails : option string;     (* c.write raises, leaving this text *)
  load_fails : bool;               (* load_kube_config raises *)
  connect_fails : bool;            (* stream(...) raises *)
  turns : list iteration
}.

(** [Path("config").resolve()], also the file [load_kube_config("config")]
    opens. *)
Definition config_file (s : session) : string := cwd s +:+ "/config".

Fixpoint remove_path (p : string) (l : list string) : list string :=
  match l with
  | [] => []
  | x :: r => if String.eqb p x then r else x :: remove_path p r
  end.

(** [with open(config_file, "w") as c: c.write(config_data)]. *)
Definition write_config (s : session) (config_data : string) (w : world)
  : world * (exn + unit) :=
  if open_fails s then (w, inl OSError)
  else
    let opened := {| files := <[config_file s := EmptyString]> (files w);
                     open_files := config_file s :: open_files w |} in
    let '(written, r) :=
      match write_fails s with
      | None =>
          ({| files := <[config_file s := config_data]> (files opened);
              open_files := open_files opened |}, inr tt)
      | Some partial =>
          ({| files := <[config_file s := partial]> (files opened);
              open_files := open_files opened |}, inl OSError)
      end in
    ({| files := files written;
        open_files := remove_path (config_file s) (open_files written) |}, r).

(** The rendered profile of a session whose broker answer was read. *)
Definition profile_of (info : pod_info) : string :=
  _construct_kubeconfig
    (py_str (cert_auth_data info)) (py_str (cluster_endpoint info))
    (py_str (aws_account_id info)) (py_str (access_key info))
    (py_str (secret_key info)) (py_str (session_token info)).

(** [execute(task_name)]: the final files, the trace and how the call
    ended ([None]: still in the loop after the last turn). *)
Definition execute (s : session) (w : world)
  : world * list event * option outcome :=
  match _fetch_pod_info (broker_body s) with
  | inl e => (w, [], Some (Raise e))
  | inr info =>
      match py_int (PStr (token_account_id s)) with
      | inl e => (w, [], Some (Raise e))
      | inr n =>
          let account_id :=
            if n <? 10 then "x" +:+ token_account_id s else token_account_id s in
          let config_data := profile_of info in
          match write_config s config_data w with
          | (w', inl e) => (w', [], Some (Raise e))
          | (w', inr _) =>
              match files w' !! config_file s with
              | None => (w', [], Some (Raise ConfigException))
              | Some text =>
                  if load_fails s
                  then (w', [], Some (Raise ConfigException))
                  else
                    let pod_name := task_name s in
                    if connect_fails s
                    then (w', [EvLoadKubeConfig text], Some (Raise ApiException))
                    else
                      let st := {| rlist := [Sock; Stdin];
                                   trace := [EvLoadKubeConfig text;
                                             EvConnect pod_name (namespace info)] |} in
                      let '(st', o) := run json_loads (turns s) st in
                      (w', trace st', o)
              end
          end
      end
  end.

End Session.

(** ** The [exec] command of [main.py] *)

Module main.
Section Command.

Variable json_loads : list byte -> option pyval.
Variable py_repr : pyval -> string.

(** [try: execute(task_name) / except Exception: click.secho(...)], then
    the exit status of the process: the value the service returns is not
    used, [SystemExit] is not an [Exception] and carries its status, any
    other exception is reported and the command ends normally. *)
Definition execute (s : session) (w : world)
  : world * list event * option Z :=
  match execute json_loads py_repr s w with
  | (w', tr, Some (Return _)) => (w', tr, Some 0)
  | (w', tr, Some (SysExit status)) => (w', tr, Some status)
  | (w', tr, Some (Raise _)) =>
      (w', tr ++ [EvSecho [Lit "Unable to exec into "; Fmt (PStr (task_name s))]], Some 0)
  | (w', tr, None) => (w', tr, None)
  end.

End Command.
End main.

(** ** Views of a trace and of a turn *)

(** The [os.write] calls of a trace, in order. *)
Definition write_of (e : event) : option (local_fd * list byte) :=
  match e with
  | EvWrite fd data => Some (fd, data)
  | _ => None
  end.

Definition writes (tr : list event) : list (local_fd * list byte) :=
  omap write_of tr.

(** The frames [recv_data_frame] returned, in order. *)
Definition recv_of (e : event) : option (Z * list byte) :=
  match e with
  | EvRecv opcode data => Some (opcode, data)
  | _ => None
  end.

Definition received (tr : list event) : list (Z * list byte) :=
  omap recv_of tr.

(** The frames sent to the remote side, in order. *)
Definition send_of (e : event) : option (list byte) :=
  match e with
  | EvSend frame => Some frame
  | _ => None
  end.

Definition sends (tr : list event) : list (list byte) :=
  omap send_of tr.

(** Where a received frame goes: a binary frame of channel 1 or 2 with a
    non-empty payload goes to the matching local descriptor, any other
    frame goes nowhere. *)
Definition routed (f : Z * list byte) : option (local_fd * list byte) :=
  match f with
  | (opcode, c :: data) =>
      if (opcode =? OPCODE_BINARY) && nonempty data then
        if channel_of c =? STDOUT_CHANNEL then Some (Stdout, data)
        else if channel_of c =? STDERR_CHANNEL then Some (Stderr, data)
        else None
      else None
  | (_, []) => None
  end.

(** What the local half of a turn adds to the trace. *)
Definition forwarded (i : iteration) (st : pump) : list event :=
  if stdin_ready i && mem Stdin (rlist st) then
    match os_read (32 * 1024) (stdin_data i) with
    | [] => []
    | data => [EvSend (stdin_channel ++ data)]
    end
  else [].

(** An event that is neither a local write nor a frame in either
    direction. *)
Definition is_notice (e : event) : bool :=
  match e with
  | EvClose | EvPrint _ => true
  | _ => false
  end.

(** A turn in which the local input is readable and at its end, and the
    socket has nothing. *)
Definition eof_turn : iteration :=
  {| stdin_ready := true; stdin_data := []; sock_ready := false;
     sock_recv := inl WebSocketException |}.

(** The diagnostics of the two protocol violations. *)
Definition channel_diagnostic (channel : Z) (data : list byte) : list event :=
  [ EvPrint []; EvPrint [Lit "Unexpected channel: "; FmtInt channel];
    EvPrint [Lit "Data: "; FmtBytes data]; EvPrint [] ].

Definition opcode_diagnostic (opcode : Z) : list event :=
  [ EvPrint []; EvPrint [Lit "Unexpected websocket opcode: "; FmtInt opcode];
    EvPrint [] ].

Definition status_diagnostic (status message : pyval) : list event :=
  [ EvPrint [];
    EvPrint [Lit "Status: "; Fmt status; Lit " - Message: "; Fmt message];
    EvPrint [] ].

(** A step is quiet when all it adds to the trace are notices and it
    leaves [rlist] alone. *)
Definition quiet {A} (m : M A) : Prop :=
  forall st, exists new,
    fst (m st) = {| rlist := rlist st; trace := trace st ++ new |}
    /\ forallb is_notice new = true.

Create HintDb quiet.


(** The same turn with the local input not readable. *)
Definition idle_stdin (i : iteration) : iteration :=
  {| stdin_ready := false; stdin_data := stdin_data i;
     sock_ready := sock_ready i; sock_recv := sock_recv i |}.


(** The pump once a turn has forwarded the local input, received the
    status frame [frame] and closed the socket. *)
Definition status_received (i : iteration) (st : pump) (frame : list byte) : pump :=
  {| rlist := rlist st;
     trace := trace st ++ forwarded i st ++ [EvRecv OPCODE_BINARY frame; EvClose] |}.

(** The pump with [new] added to its trace. *)
Definition say (new : list event) (st : pump) : pump :=
  {| rlist := rlist st; trace := trace st ++ new |}.

(** A cause the [for] loop passes over: a dict whose reason is not
    ["ExitCode"]. *)
Definition passed_over (cause : pyval) : bool :=
  match py_getitem cause "reason" with
  | inr reason => negb (py_eq_str reason "ExitCode")
  | inl _ => false
  end.

(** A step that always ends the function. *)
Definition ends {A} (m : M A) : Prop :=
  forall st, exists st' o, m st = (st', inl o).

(** The turn that delivers the status frame with payload [data]. *)
Definition status_turn (data : list byte) : iteration :=
  frame_turn OPCODE_BINARY (x03 :: data).


Definition status_no_reason : list byte :=
  bytes_of ("{" +:+ quoted "status" +:+ ":" +:+ quoted "Failure" +:+ "}").

Definition status_signal_only : list byte :=
  bytes_of ("{" +:+ quoted "status" +:+ ":" +:+ quoted "Failure" +:+ "," +:+ quoted "reason" +:+ ":"
     +:+ quoted "NonZeroExitCode" +:+ "," +:+ quoted "details" +:+ ":{" +:+ quoted "causes"
     +:+ ":[{" +:+ quoted "reason" +:+ ":" +:+ quoted "Signal" +:+ "," +:+ quoted "message"
     +:+ ":" +:+ quoted "9" +:+ "}]}}").


(** An answer of the broker without the ["namespace"] field. *)
Definition body_without_namespace : list byte :=
  bytes_of ("{" +:+ quoted "tmp_access_key" +:+ ":" +:+ quoted "AK" +:+ ","
     +:+ quoted "tmp_secret_key" +:+ ":" +:+ quoted "SK" +:+ ","
     +:+ quoted "tmp_session_token" +:+ ":" +:+ quoted "TOK" +:+ ","
     +:+ quoted "cert_auth_data" +:+ ":" +:+ quoted "CERT" +:+ ","
     +:+ quoted "cluster_endpoint" +:+ ":" +:+ quoted "https://e" +:+ ","
     +:+ quoted "aws_account_id" +:+ ":" +:+ quoted "123" +:+ "}").

(** A complete answer of the broker. *)
Definition body_complete : list byte :=
  bytes_of ("{" +:+ quoted "tmp_access_key" +:+ ":" +:+ quoted "AK" +:+ ","
     +:+ quoted "tmp_secret_key" +:+ ":" +:+ quoted "SK" +:+ ","
     +:+ quoted "tmp_session_token" +:+ ":" +:+ quoted "TOK" +:+ ","
     +:+ quoted "cert_auth_data" +:+ ":" +:+ quoted "CERT" +:+ ","
     +:+ quoted "cluster_endpoint" +:+ ":" +:+ quoted "https://e" +:+ ","
     +:+ quoted "namespace" +:+ ":" +:+ quoted "ns" +:+ ","
     +:+ quoted "aws_account_id" +:+ ":" +:+ quoted "123" +:+ "}").

(** The fields of [info] are the values the object [d] has under the
    seven required keys. *)
Definition populated_from (d : list (string * pyval)) (info : pod_info) : Prop :=
  dict_get d "tmp_access_key" = Some (access_key info)
  /\ dict_get d "tmp_secret_key" = Some (secret_key info)
  /\ dict_get d "tmp_session_token" = Some (session_token info)
  /\ dict_get d "cert_auth_data" = Some (cert_auth_data info)
  /\ dict_get d "cluster_endpoint" = Some (cluster_endpoint info)
  /\ dict_get d "namespace" = Some (namespace info)
  /\ dict_get d "aws_account_id" = Some (aws_account_id info).


(** ** Occurrences *)

(** No line break in [s]. *)
Fixpoint no_nl (s : string) : bool :=
  match s with
  | EmptyString => true
  | String c r => negb (Ascii.eqb c newline) && no_nl r
  end.

(** [sub in s]. *)
Fixpoint occurs (sub s : string) : bool :=
  starts_with sub s
  || match s with
     | String _ r => occurs sub r
     | EmptyString => false
     end.

(** An access key with a line made of one space. *)
Definition key_with_blank_line : string := "A" +:+ nl +:+ " " +:+ nl +:+ "B".


(** ** Sessions *)

(** The pump as [execute] starts it once the stream is open. *)
Definition connected (py_repr : pyval -> string) (s : session) (info : pod_info)
  : pump :=
  {| rlist := [Sock; Stdin];
     trace := [EvLoadKubeConfig (profile_of py_repr info);
               EvConnect (task_name s) (namespace info)] |}.

(** The same session with another account id behind the token. *)
Definition with_account (s : session) (a : string) : session :=
  {| task_name := task_name s; cwd := cwd s; token_account_id := a;
     broker_body := broker_body s; open_fails := open_fails s;
     write_fails := write_fails s; load_fails := load_fails s;
     connect_fails := connect_fails s; turns := turns s |}.

(** The line [exec] prints when [execute] raises. *)
Definition unable_to_exec (s : session) : event :=
  EvSecho [Lit "Unable to exec into "; Fmt (PStr (task_name s))].

Definition no_repr (v : pyval) : string := EmptyString.

Definition empty_world : world := {| files := ∅; open_files := [] |}.

(** A session that connects and then goes through [ts]. *)
Definition session_of (ts : list iteration) : session :=
  {| task_name := "task"; cwd := "/home/user"; token_account_id := "5";
     broker_body := body_complete; open_fails := false; write_fails := None;
     load_fails := false; connect_fails := false; turns := ts |}.

(** A turn in which the transport fails under [recv_data_frame]. *)
Definition broken_turn : iteration :=
  {| stdin_ready := false; stdin_data := []; sock_ready := true;
     sock_recv := inl WebSocketException |}.

(** The values of [body_complete]. *)
Definition info_complete : pod_info :=
  {| access_key := PStr "AK"; secret_key := PStr "SK"; session_token := PStr "TOK";
     cert_auth_data := PStr "CERT"; cluster_endpoint := PStr "https://e";
     namespace := PStr "ns"; aws_account_id := PStr "123" |}.


(** The events the pump itself produces. *)
Definition pump_event (e : event) : bool :=
  match e with
  | EvLoadKubeConfig _ | EvConnect _ _ | EvSecho _ => false
  | _ => true
  end.


(** A turn that delivers a frame of channel 9. *)
Definition bad_channel_turn : iteration :=
  frame_turn OPCODE_BINARY (x09 :: bytes_of "zz").


(** Another answer of the broker, and a later session in the same
    directory that receives it and whose transport then fails. *)
Definition body_later : list byte :=
  bytes_of ("{" +:+ quoted "tmp_access_key" +:+ ":" +:+ quoted "AK2" +:+ ","
     +:+ quoted "tmp_secret_key" +:+ ":" +:+ quoted "SK2" +:+ ","
     +:+ quoted "tmp_session_token" +:+ ":" +:+ quoted "TOK2" +:+ ","
     +:+ quoted "cert_auth_data" +:+ ":" +:+ quoted "CERT2" +:+ ","
     +:+ quoted "cluster_endpoint" +:+ ":" +:+ quoted "https://f" +:+ ","
     +:+ quoted "namespace" +:+ ":" +:+ quoted "ns2" +:+ ","
     +:+ quoted "aws_account_id" +:+ ":" +:+ quoted "456" +:+ "}").

Definition info_later : pod_info :=
  {| access_key := PStr "AK2"; secret_key := PStr "SK2";
     session_token := PStr "TOK2"; cert_auth_data := PStr "CERT2";
     cluster_endpoint := PStr "https://f"; namespace := PStr "ns2";
     aws_account_id := PStr "456" |}.

Definition later_session : session :=
  {| task_name := "other"; cwd := "/home/user"; token_account_id := "1234";
     broker_body := body_later; open_fails := false; write_fails := None;
     load_fails := false; connect_fails := false; turns := [broken_turn] |}.


(** A first session, whose remote process exits with code 17, and the
    files it leaves. *)
Definition first_session : session := session_of [status_turn status_exit_17].

Definition world_after_first : world :=
  fst (fst (execute json_loads_ascii no_repr first_session empty_world)).


(** ** Further views of a turn and of a trace *)

(** The frame a turn sends when the local input is polled: the stdin
    channel byte before the bytes read, nothing when none was read. *)
Definition chunk (i : iteration) : option (list byte) :=
  if stdin_ready i then
    match os_read (32 * 1024) (stdin_data i) with
    | [] => None
    | data => Some (stdin_channel ++ data)
    end
  else None.

(** The number of turns a run goes through before it leaves the loop or
    runs out of turns. *)
Fixpoint turns_taken (json_loads : list byte -> option pyval)
  (its : list iteration) (st : pump) : nat :=
  match its with
  | [] => O
  | i :: rest =>
      match body json_loads i st with
      | (_, inl _) => 1%nat
      | (st', inr _) => S (turns_taken json_loads rest st')
      end
  end.

(** A step adds to the trace only events that satisfy [P], and leaves
    [rlist] alone. *)
Definition adds (P : event -> bool) {A} (m : M A) : Prop :=
  forall st, exists new,
    fst (m st) = {| rlist := rlist st; trace := trace st ++ new |}
    /\ forallb P new = true.

Definition is_print (e : event) : bool :=
  match e with
  | EvPrint _ => true
  | _ => false
  end.

Definition is_close (e : event) : bool :=
  match e with
  | EvClose => true
  | _ => false
  end.

(** The calls of [wssock.close()] in a trace. *)
Definition closes (tr : list event) : list event := List.filter is_close tr.

(** A received frame of the status channel. *)
Definition is_status_frame (f : Z * list byte) : bool :=
  match f with
  | (opcode, c :: _) => (opcode =? OPCODE_BINARY) && (channel_of c =? ERROR_CHANNEL)
  | (_, []) => false
  end.

(** A turn in which the remote side closes the stream. *)
Definition close_turn : iteration := frame_turn OPCODE_CLOSE [].

(** A turn with three bytes on the local input and nothing on the
    socket. *)
Definition typing_turn : iteration :=
  {| stdin_ready := true; stdin_data := bytes_of "ls"  ++ [x0a]; sock_ready := false;
     sock_recv := inl WebSocketException |}.


(** Status payloads that are not what the pump expects: not JSON, a JSON
    list, an object without status, an exit code that is no number. *)
Definition status_not_json : list byte := bytes_of "command terminated".

Definition status_a_list : list byte := bytes_of "[1, 2]".

Definition status_no_status : list byte :=
  bytes_of ("{" +:+ quoted "reason" +:+ ":" +:+ quoted "NonZeroExitCode" +:+ "}").

Definition status_exit_unreadable : list byte :=
  bytes_of ("{" +:+ quoted "status" +:+ ":" +:+ quoted "Failure" +:+ ","
     +:+ quoted "reason" +:+ ":" +:+ quoted "NonZeroExitCode" +:+ ","
     +:+ quoted "details" +:+ ":{" +:+ quoted "causes" +:+ ":[{"
     +:+ quoted "reason" +:+ ":" +:+ quoted "ExitCode" +:+ ","
     +:+ quoted "message" +:+ ":" +:+ quoted "seventeen" +:+ "},{"
     +:+ quoted "reason" +:+ ":" +:+ quoted "ExitCode" +:+ ","
     +:+ quoted "message" +:+ ":" +:+ quoted "17" +:+ "}]}," +:+ quoted "message" +:+ ":"
     +:+ quoted "boom" +:+ "}").


(** A session whose token carries an account id that is no number. *)
Definition session_bad_account : session :=
  with_account (session_of [status_turn status_success]) "acct-7".

(** An answer of the broker with a null field and a field nobody asked
    for. *)
Definition body_with_null : list byte :=
  bytes_of ("{" +:+ quoted "extra" +:+ ":[1]," 
     +:+ quoted "tmp_access_key" +:+ ":" +:+ quoted "AK" +:+ ","
     +:+ quoted "tmp_secret_key" +:+ ":" +:+ quoted "SK" +:+ ","
     +:+ quoted "tmp_session_token" +:+ ":null,"
     +:+ quoted "cert_auth_data" +:+ ":" +:+ quoted "CERT" +:+ ","
     +:+ quoted "cluster_endpoint" +:+ ":" +:+ quoted "https://e" +:+ ","
     +:+ quoted "namespace" +:+ ":" +:+ quoted "ns" +:+ ","
     +:+ quoted "aws_account_id" +:+ ":123}").


(** A frame of output on channel 1. *)
Definition output_turn : iteration :=
  frame_turn OPCODE_BINARY (x01 :: bytes_of "out").

(** A turn that reads three bytes from the local input and receives a
    frame of output. *)
Definition busy_turn : iteration :=
  {| stdin_ready := true; stdin_data := bytes_of "pwd"; sock_ready := true;
     sock_recv := inr (OPCODE_BINARY, x01 :: bytes_of "late") |}.

(** The pump after a close frame received in its first turn. *)
Definition pump_closed : pump :=
  {| rlist := [Stdin]; trace := [EvRecv OPCODE_CLOSE []] |}.

(** Answers of the broker that are no JSON object. *)
Definition body_not_json : list byte := bytes_of "<html>Bad Gateway</html>".

Definition body_a_list : list byte := bytes_of "[]".


(** ** The commands [get-wf] and [ls] of [main.py]

    What a command prints is the list of its calls of [click.secho]; an
    exception that no [except] clause of the command catches leaves it
    with what was printed before.  The service a command wraps is not
    part of the source files: its answer is an input. *)

Module click.

(** One call [click.secho(text, fg=..., bold=..., underline=..., nl=...)]. *)
Record secho : Type := Secho
  { text : string; fg : option string; bold : bool; underline : bool;
    newline_after : bool }.

End click.

(** A line without style, and a line in one colour. *)
Definition plain (text : string) : click.secho :=
  click.Secho text None false false true.

Definition coloured (colour text : string) : click.secho :=
  click.Secho text (Some colour) false false true.

(** What a command has printed, and the exception that left it, if any. *)
Definition printed : Type := list click.secho * option exn.

(** What is printed first, then what [rest] does. *)
Definition then_ (first : list click.secho) (rest : printed) : printed :=
  (first ++ fst rest, snd rest).

(** [len(s)] of a text. *)
Definition len (s : string) : Z := Z.of_nat (String.length s).

(** [len(v)]. *)
Definition py_len (v : pyval) : exn + Z :=
  match v with
  | PStr s => inr (len s)
  | PList l => inr (Z.of_nat (length l))
  | PDict d => inr (Z.of_nat (length d))
  | _ => inl TypeError
  end.

Fixpoint blanks (n : nat) : string :=
  match n with
  | O => EmptyString
  | S m => String " " (blanks m)
  end.

(** [n * ' '], empty when [n] is not positive. *)
Definition spaces (n : Z) : string := blanks (Z.to_nat n).

Definition tab : string := String "009"%char EmptyString.

(** [s] padded with spaces on the right to [width] characters. *)
Definition ljust (s : string) (width : Z) : string := s +:+ spaces (width - len s).

(** [format(v, "<width")], the [{v:<{width}}] of an f-string, for a width
    of at least 1: a bool is formatted as the integer it is, [None], a
    list and a dict take no such format. *)
Definition py_format_left (v : pyval) (width : Z) : exn + string :=
  match v with
  | PStr s => inr (ljust s width)
  | PInt n => inr (ljust (pretty n) width)
  | PBool b => inr (ljust (if b then "1" else "0") width)
  | _ => inl TypeError
  end.

Section Commands.

Variable py_repr : pyval -> string.

(** [str(e)] of an exception. *)
Variable exn_str : exn -> string.

(** *** [get-wf] *)

(** The first loop of [get_wf]: the widest id, name and version. *)
Fixpoint paddings (wfs : list (pyval * pyval * pyval)) (p : Z * Z * Z)
  : exn + Z * Z * Z :=
  match wfs with
  | [] => inr p
  | (id, name, version) :: rest =>
      let '(id_padding, name_padding, version_padding) := p in
      let id_len := len (py_str py_repr id) in
      name_len <~ py_len name ;;
      version_len <~ py_len version ;;
      paddings rest (Z.max id_padding id_len, Z.max name_padding name_len,
                     Z.max version_padding version_len)
  end.

Definition wf_header (p : Z * Z * Z) : string :=
  let '(id_padding, name_padding, version_padding) := p in
  "ID" +:+ spaces id_padding +:+ tab +:+ "Name" +:+ spaces name_padding +:+ tab
  +:+ "Version" +:+ spaces version_padding.

(** The f-string of one row. *)
Definition wf_row (p : Z * Z * Z) (wf : pyval * pyval * pyval) : exn + string :=
  let '(id_padding, name_padding, version_padding) := p in
  let '(id, name, version) := wf in
  name_len <~ py_len name ;;
  version_len <~ py_len version ;;
  inr (py_str py_repr id +:+ spaces (id_padding - len (py_str py_repr id)) +:+ tab
       +:+ py_str py_repr name +:+ spaces (name_padding - name_len) +:+ tab
       +:+ py_str py_repr version +:+ spaces (version_padding - version_len)).

Fixpoint wf_rows (p : Z * Z * Z) (wfs : list (pyval * pyval * pyval)) : printed :=
  match wfs with
  | [] => ([], None)
  | wf :: rest =>
      match wf_row p wf with
      | inl e => ([], Some e)
      | inr line => then_ [plain line] (wf_rows p rest)
      end
  end.

(** The command [get-wf], from the answer of the service: the triples
    (id, name, version) of the workflows, or the exception it raised. *)
Definition get_wf (answer : exn + list (pyval * pyval * pyval)) : printed :=
  match answer with
  | inl e => ([coloured "red" ("Unable to get workflows: " +:+ exn_str e)], None)
  | inr wfs =>
      match paddings wfs (0, 0, 0) with
      | inl e => ([], Some e)
      | inr p => then_ [plain (wf_header p)] (wf_rows p wfs)
      end
  end.

(** *** [ls] *)

Definition _item_padding (k : string) : Z :=
  if String.eqb k "modifyTime" then 0 else 3.

Definition header : list (string * pyval) :=
  [ ("name", PStr "Name:"); ("contentType", PStr "Type:");
    ("contentSize", PStr "Size:"); ("modifyTime", PStr "Last Modified:") ].

(** [for key in header]. *)
Definition header_keys : list string := map fst header.

(** [{key: len(key) + _item_padding(key) for key in header}]. *)
Definition initial_lengths : gmap string Z :=
  list_to_map (map (fun key => (key, len key + _item_padding key)) header_keys).

(** The inner loop over the keys, for one row. *)
Fixpoint measure_row (row : pyval) (keys : list string) (max_lengths : gmap string Z)
  : exn + gmap string Z :=
  match keys with
  | [] => inr max_lengths
  | key :: rest =>
      v <~ py_getitem row key ;;
      n <~ py_len v ;;
      measure_row row rest
        (<[key := Z.max (n + _item_padding key) (max_lengths !!! key)]> max_lengths)
  end.

Fixpoint measure (output : list pyval) (max_lengths : gmap string Z)
  : exn + gmap string Z :=
  match output with
  | [] => inr max_lengths
  | row :: rest =>
      m <~ measure_row row header_keys max_lengths ;;
      measure rest m
  end.

(** One of the first three calls of [_display]. *)
Definition cell (max_lengths : gmap string Z) (row : pyval) (key : string)
  (colour : option string) (bold underline : bool) (rest : printed) : printed :=
  match (v <~ py_getitem row key ;; py_format_left v (max_lengths !!! key)) with
  | inl e => ([], Some e)
  | inr text => then_ [click.Secho text colour bold underline false] rest
  end.

Definition _display (max_lengths : gmap string Z) (row : pyval)
  (colour : option string) (bold underline : bool) (rest : printed) : printed :=
  cell max_lengths row "name" colour bold underline
    (cell max_lengths row "contentType" colour bold underline
       (cell max_lengths row "contentSize" colour bold underline
          match py_getitem row "modifyTime" with
          | inl e => ([], Some e)
          | inr v =>
              then_ [click.Secho (py_str py_repr v) colour bold underline true] rest
          end)).

Fixpoint display_rows (max_lengths : gmap string Z) (output : list pyval) : printed :=
  match output with
  | [] => ([], None)
  | row :: rest =>
      match py_getitem row "type" with
      | inl e => ([], Some e)
      | inr type =>
          _display max_lengths row
            (Some (if py_eq_str type "obj" then "cyan" else "green")) true false
            (display_rows max_lengths rest)
      end
  end.

(** What [ls] prints for one directory the service has listed. *)
Definition listing (output : list pyval) : printed :=
  match measure output initial_lengths with
  | inl e => ([], Some e)
  | inr max_lengths =>
      _display max_lengths (PDict header) None false true
        (display_rows max_lengths output)
  end.

(** The service [ls]: the rows of a directory, or the exception raised. *)
Variable ls_service : string -> exn + list pyval.

Fixpoint ls_each (remote_directories : list string) : printed :=
  match remote_directories with
  | [] => ([], None)
  | remote_directory :: rest =>
      match ls_service remote_directory with
      | inl e =>
          then_ [coloured "red" ("Unable to display contents of "
                                 +:+ remote_directory +:+ ": " +:+ exn_str e)]
            (ls_each rest)
      | inr output =>
          match listing output with
          | (lines, Some e) => (lines, Some e)
          | (lines, None) => then_ lines (ls_each rest)
          end
      end
  end.

(** The command [ls]. *)
Definition ls (remote_directories : list string) : printed :=
  ls_each (match remote_directories with
           | [] => ["latch:///"]
           | _ => remote_directories
           end).

End Commands.


(** ** Views of the answers of the services *)

(** A workflow whose name and version are texts. *)
Definition named (wf : pyval * pyval * pyval) : bool :=
  match wf with
  | (_, PStr _, PStr _) => true
  | _ => false
  end.

(** Three workflows, and a list in which the last one has no name. *)
Definition some_workflows : list (pyval * pyval * pyval) :=
  [ (PInt 7, PStr "align", PStr "0.1.0");
    (PInt 1204, PStr "rnaseq", PStr "2.0");
    (PInt 33, PStr "qc", PStr "0.10.12-a") ].

Definition workflows_unnamed_last : list (pyval * pyval * pyval) :=
  some_workflows ++ [(PInt 34, PNone, PStr "1")].

(** A [str] of exceptions for the concrete answers. *)
Definition str_of_exn (e : exn) : string := "error".


(** A row with a text under each key of the header. *)
Definition has_fields (row : pyval) : bool :=
  forallb (fun key => match py_getitem row key with
                      | inr (PStr _) => true
                      | _ => false
                      end) header_keys.

(** A row with a value that has a length under each key of the header. *)
Definition measurable (row : pyval) : bool :=
  forallb (fun key => match (v <~ py_getitem row key ;; py_len v) with
                      | inr _ => true
                      | inl _ => false
                      end) header_keys.

Definition typed (row : pyval) : bool :=
  match py_getitem row "type" with
  | inr _ => true
  | inl _ => false
  end.

Definition well_formed (row : pyval) : bool := has_fields row && typed row.

(** The text under a key of a row. *)
Definition field (row : pyval) (key : string) : string :=
  match py_getitem row key with
  | inr (PStr s) => s
  | _ => EmptyString
  end.

Definition colour_of (row : pyval) : string :=
  match py_getitem row "type" with
  | inr type => if py_eq_str type "obj" then "cyan" else "green"
  | inl _ => "green"
  end.

(** A line of the table: three cells of the widths [w1], [w2] and [w3],
    then the modification time and the line break. *)
Definition line_of (w1 w2 w3 : Z) (row : pyval)
  (colour : option string) (bold underline : bool) : list click.secho :=
  [ click.Secho (ljust (field row "name") w1) colour bold underline false;
    click.Secho (ljust (field row "contentType") w2) colour bold underline false;
    click.Secho (ljust (field row "contentSize") w3) colour bold underline false;
    click.Secho (field row "modifyTime") colour bold underline true ].

(** The directories [ls] goes through. *)
Definition listed (remote_directories : list string) : list string :=
  match remote_directories with
  | [] => ["latch:///"]
  | _ => remote_directories
  end.


(** The row of an entry, and two directories: one with a file and a
    folder, one in which a row has no size. *)
Definition row_of (name content size modified kind : string) : pyval :=
  PDict [ ("name", PStr name); ("contentType", PStr content);
          ("contentSize", PStr size); ("modifyTime", PStr modified);
          ("type", PStr kind) ].

Definition some_rows : list pyval :=
  [ row_of "reads_R1.fastq.gz" "application/gzip" "1.2 GB" "2022-05-01" "obj";
    row_of "results" "-" "-" "-" "dir" ].

Definition row_without_size : pyval :=
  PDict [ ("name", PStr "notes.txt"); ("contentType", PStr "text/plain");
          ("modifyTime", PStr "2022-05-02"); ("type", PStr "obj") ].

Definition row_without_type : pyval :=
  PDict [ ("name", PStr "notes.txt"); ("contentType", PStr "text/plain");
          ("contentSize", PStr "12 B"); ("modifyTime", PStr "2022-05-02") ].

(** A service that lists the root and a directory with an incomplete
    row, and refuses every other directory. *)
Definition some_service (remote_directory : string) : exn + list pyval :=
  if String.eqb remote_directory "latch:///" then inr some_rows
  else if String.eqb remote_directory "latch:///notes"
       then inr (some_rows ++ [row_without_size])
       else inl (ValueError [Lit "no such directory"]).


(** ** The command [init] of [main.py]

    The check of the package name uses [str.isupper] and [re.findall].
    The regular expressions are the part of the syntax of [re] the
    pattern of the command is written in: a character class, a sequence,
    and the greedy repetition; [a+] is [a] followed by [a*]. *)

(** [char.isupper()], for the characters below 256. *)
Definition isupper (c : ascii) : bool :=
  let n := code c in
  ((65 <=? n) && (n <=? 90)) || ((192 <=? n) && (n <=? 222) && negb (n =? 215)).

Inductive regex : Type :=
| Class (accepts : ascii -> bool)
| Seq (a b : regex)
| Star (a : regex).

Definition Plus (a : regex) : regex := Seq a (Star a).

(** The greedy repetition of [step]: one more round when [step] matches
    and consumes something and what follows matches, otherwise what
    follows the repetition, [k]. *)
Fixpoint repetition (step : string -> (string -> option string) -> option string)
  (k : string -> option string) (fuel : nat) (s : string) : option string :=
  match fuel with
  | O => k s
  | S fuel' =>
      match step s (fun rest =>
                      if Nat.ltb (String.length rest) (String.length s)
                      then repetition step k fuel' rest
                      else None) with
      | Some e => Some e
      | None => k s
      end
  end.

(** The backtracking matcher: [matches r s k] matches [r] at the start of
    [s] and hands what is left to [k]; when [k] fails the next
    alternative of [r] is tried, the longer repetitions first.  The result
    is what [k] returns for the first alternative it accepts. *)
Fixpoint matches (r : regex) (s : string) (k : string -> option string)
  : option string :=
  match r with
  | Class accepts =>
      match s with
      | String c rest => if accepts c then k rest else None
      | EmptyString => None
      end
  | Seq a b => matches a s (fun rest => matches b rest k)
  | Star a => repetition (matches a) k (String.length s) s
  end.

(** The matches of [m] in [s] from left to right, without overlap:
    [skip] characters are passed over first; where [m] does not match the
    search moves on by one character.  [m] gives what is left of the text
    after the match. *)
Fixpoint scan (m : string -> option string) (s : string) (skip : nat) : list string :=
  match skip with
  | S n =>
      match s with
      | String _ rest => scan m rest n
      | EmptyString => []
      end
  | O =>
      match m s with
      | Some rest =>
          let n := (String.length s - String.length rest)%nat in
          substring 0 n s
          :: match s with
             | String _ s' => scan m s' (n - 1)
             | EmptyString => []
             end
      | None =>
          match s with
          | String _ s' => scan m s' 0
          | EmptyString => []
          end
      end
  end.

(** [re.findall(r, s)] for an expression without groups that matches no
    empty text. *)
Definition findall (r : regex) (s : string) : list string :=
  scan (fun t => matches r t Some) s 0.

(** [[a-z0-9]], [[._-]] and the slash. *)
Definition lower_or_digit (c : ascii) : bool :=
  let n := code c in
  ((97 <=? n) && (n <=? 122)) || ((48 <=? n) && (n <=? 57)).

Definition separator (c : ascii) : bool :=
  Ascii.eqb c "." || Ascii.eqb c "_" || Ascii.eqb c "-".

Definition slash (c : ascii) : bool := Ascii.eqb c "/".

Definition word : regex := Plus (Class lower_or_digit).

(** [[a-z0-9]+(?:[._-][a-z0-9]+)*] *)
Definition component : regex := Seq word (Star (Seq (Class separator) word)).

(** The pattern of the command. *)
Definition package_name_pattern : regex :=
  Seq (Star (Seq component (Class slash))) component.

Definition pattern_text : string :=
  "(?:[a-z0-9]+(?:[._-][a-z0-9]+)*\/)*[a-z0-9]+(?:[._-][a-z0-9]+)*".

Section Init.

Variable exn_str : exn -> string.

(** The service [init]: the exception it raises for a name, if any. *)
Variable init_service : string -> option exn.

(** The command [init]: whether the service was called, and what was
    printed. *)
Definition init (pkg_name : string) : bool * list click.secho :=
  if existsb isupper (list_ascii_of_string pkg_name) then
    (false,
     [coloured "red" ("Unable to initialize " +:+ pkg_name
                      +:+ ": package name must not contain any upper-case characters")])
  else if negb (Nat.eqb (length (findall package_name_pattern pkg_name)) 1) then
    (false,
     [coloured "red" ("Unable to initialize " +:+ pkg_name
                      +:+ ": package name must match the regular expression '"
                      +:+ pattern_text +:+ "'");
      coloured "red" ("This means that the package name must start and end with a "
                      +:+ "lower-case letter, and may contain hyphens, underscores, "
                      +:+ "and periods")])
  else
    match init_service pkg_name with
    | Some e =>
        (true, [coloured "red" ("Unable to initialize " +:+ pkg_name +:+ ": "
                                +:+ exn_str e)])
    | None =>
        (true,
         [coloured "green" ("Created a latch workflow called " +:+ pkg_name +:+ ".");
          coloured "green" "Run";
          coloured "green" (tab +:+ "$ latch register " +:+ pkg_name);
          coloured "green" "To register the workflow with console.latch.bio."])
    end.

End Init.


(** ** Views of a package name *)

(** What is left of a text after the lower-case letters and digits it
    starts with. *)
Fixpoint skip_word (s : string) : string :=
  match s with
  | String c r => if lower_or_digit c then skip_word r else s
  | EmptyString => EmptyString
  end.

(** What is left of a text, read from inside a word, after the chain of
    words it continues: a word goes on with letters and digits, and a
    chain with one character [joins] accepts when a letter or a digit
    follows it. *)
Fixpoint after_chain (joins : ascii -> bool) (s : string) : string :=
  match s with
  | String c r =>
      if lower_or_digit c then after_chain joins r
      else if joins c then
             match r with
             | String d _ => if lower_or_digit d then after_chain joins r else s
             | EmptyString => s
             end
           else s
  | EmptyString => EmptyString
  end.

Definition joiner (c : ascii) : bool := separator c || slash c.

(** The name a text starts with, if it starts with a letter or a digit:
    words joined by single periods, underscores, hyphens and slashes.
    The result is what is left of the text after the name. *)
Definition name_at (s : string) : option string :=
  match s with
  | String c r => if lower_or_digit c then Some (after_chain joiner r) else None
  | EmptyString => None
  end.

(** The names in a text, from left to right. *)
Definition names (s : string) : list string := scan name_at s 0.

(** A text without lower-case letter or digit. *)
Fixpoint wordless (s : string) : bool :=
  match s with
  | String c r => negb (lower_or_digit c) && wordless r
  | EmptyString => true
  end.

(** A text that is a name from its first to its last character. *)
Definition is_name (s : string) : bool :=
  match name_at s with
  | Some EmptyString => true
  | _ => false
  end.

(** A text that stands between two names without tying them into one:
    it is not empty and not a single joiner. *)
Definition parts (s : string) : bool :=
  match s with
  | String c EmptyString => negb (joiner c)
  | String _ _ => true
  | EmptyString => false
  end.

(** A service [init] that creates every package. *)
Definition init_succeeds (pkg_name : string) : option exn := None.


(** A text after which a name does not go on: it does not start with a
    letter or a digit, nor with a joiner before a letter or a digit. *)
Definition stops (t : string) : bool :=
  match t with
  | EmptyString => true
  | String c t' =>
      negb (lower_or_digit c)
      && (negb (joiner c)
          || match t' with
             | String d _ => negb (lower_or_digit d)
             | EmptyString => true
             end)
  end.

(** The two lines [init] prints for a name the pattern refuses. *)
Definition pattern_refusal (pkg_name : string) : list click.secho :=
  [coloured "red" ("Unable to initialize " +:+ pkg_name
                   +:+ ": package name must match the regular expression '"
                   +:+ pattern_text +:+ "'");
   coloured "red" ("This means that the package name must start and end with a "
                   +:+ "lower-case letter, and may contain hyphens, underscores, "
                   +:+ "and periods")].


(** An answer of the broker that is JSON and no object. *)
Definition body_null : list byte := bytes_of "null".

(** Two runs after [first_session]: one in the same directory whose
    broker answer lacks the namespace, one that goes well in another
    directory. *)
Definition refused_session : session :=
  {| task_name := "other"; cwd := "/home/user"; token_account_id := "1234";
     broker_body := body_without_namespace; open_fails := false;
     write_fails := None; load_fails := false; connect_fails := false;
     turns := [status_turn status_success] |}.

Definition elsewhere_session : session :=
  {| task_name := "other"; cwd := "/srv/jobs"; token_account_id := "1234";
     broker_body := body_later; open_fails := false; write_fails := None;
     load_fails := false; connect_fails := false;
     turns := [status_turn status_success] |}.

(** * Properties *)

Lemma os_read_nil (n : Z) : os_read n [] = [].
Proof. unfold os_read. apply firstn_nil. Qed.

#[local] Arguments os_read : simpl never.
#[local] Opaque os_read.

(** ** Turn structure *)

Lemma mem_filter_ready (i : iteration) (d : desc) (l : list desc) :
  mem d (List.filter (ready i) l) = ready i d && mem d l.
Proof.
  induction l as [|x l IH]; simpl.
  - now rewrite andb_false_r.
  - destruct (ready i x) eqn:Hx; simpl; rewrite IH;
      destruct d, x; simpl in *; rewrite ?Hx; try reflexivity;
      destruct (ready i _); simpl; try reflexivity; congruence.
Qed.

Lemma forward_stdin_eq (i : iteration) (st : pump) :
  forward_stdin i (List.filter (ready i) (rlist st)) st
  = ({| rlist := rlist st; trace := trace st ++ forwarded i st |}, inr tt).
Proof.
  unfold forward_stdin, forwarded. rewrite mem_filter_ready. simpl.
  destruct (stdin_ready i && mem Stdin (rlist st)).
  - destruct (os_read _ (stdin_data i)); simpl.
    + unfold ret. rewrite app_nil_r. now destruct st.
    + reflexivity.
  - unfold ret. rewrite app_nil_r. now destruct st.
Qed.

Section PumpFacts.

Variable json_loads : list byte -> option pyval.

(** A turn is the remote half run after the local half. *)
Lemma body_eq (i : iteration) (st : pump) :
  body json_loads i st
  = receive json_loads i (List.filter (ready i) (rlist st))
      {| rlist := rlist st; trace := trace st ++ forwarded i st |}.
Proof.
  unfold body, bind, select. now rewrite forward_stdin_eq.
Qed.


(** *** Steps that only print or close *)

Lemma quiet_ret {A} (a : A) : quiet (ret a).
Proof. intros [rl tr]. exists []. simpl. now rewrite app_nil_r. Qed.

Lemma quiet_finish {A} (o : outcome) : quiet (@finish A o).
Proof. intros [rl tr]. exists []. simpl. now rewrite app_nil_r. Qed.

Lemma quiet_lift {A} (r : exn + A) : quiet (lift r).
Proof. destruct r; [apply quiet_finish | apply quiet_ret]. Qed.

Lemma quiet_emit (e : event) : is_notice e = true -> quiet (emit e).
Proof. intros He st. exists [e]. simpl. now rewrite He. Qed.

Lemma quiet_print (line : list piece) : quiet (print line).
Proof. now apply quiet_emit. Qed.

Lemma quiet_bind {A B} (m : M A) (k : A -> M B) :
  quiet m -> (forall a, quiet (k a)) -> quiet (bind m k).
Proof.
  intros Hm Hk st. unfold bind.
  destruct (Hm st) as (new1 & E1 & N1).
  destruct (m st) as [st1 [o|a]]; simpl in E1; subst st1.
  - exists new1. now split.
  - destruct (Hk a {| rlist := rlist st; trace := trace st ++ new1 |})
      as (new2 & E2 & N2).
    exists (new1 ++ new2). simpl in E2. rewrite E2, app_assoc. split; [easy|].
    rewrite forallb_app, N1, N2. reflexivity.
Qed.

#[local] Hint Resolve quiet_ret quiet_finish quiet_lift quiet_print quiet_bind
  : quiet.

Lemma quiet_scan_causes (causes : list pyval) : quiet (scan_causes causes).
Proof.
  induction causes as [|cause rest IH]; simpl; [auto with quiet|].
  apply quiet_bind; [auto with quiet|]. intros reason.
  destruct (py_eq_str reason "ExitCode"); [|exact IH].
  repeat (apply quiet_bind; [auto with quiet|]; intros ?).
  auto with quiet.
Qed.

Lemma quiet_decode_status (data : list byte) : quiet (decode_status json_loads data).
Proof.
  unfold decode_status.
  apply quiet_bind; [now apply quiet_emit|]. intros _.
  apply quiet_bind; [auto with quiet|]. intros error.
  apply quiet_bind; [auto with quiet|]. intros status.
  destruct (py_eq_str status "Success"); [auto with quiet|].
  apply quiet_bind; [auto with quiet|]. intros reason.
  apply quiet_bind.
  - destruct (py_eq_str reason "NonZeroExitCode"); [|auto with quiet].
    repeat (apply quiet_bind; [auto with quiet|]; intros ?).
    apply quiet_scan_causes.
  - intros _. repeat (apply quiet_bind; [auto with quiet|]; intros ?).
    auto with quiet.
Qed.

Lemma quiet_unexpected_channel (channel : Z) (data : list byte) :
  quiet (unexpected_channel channel data).
Proof.
  unfold unexpected_channel.
  repeat (apply quiet_bind; [auto with quiet|]; intros ?). auto with quiet.
Qed.

Lemma quiet_unexpected_opcode (opcode : Z) : quiet (unexpected_opcode opcode).
Proof.
  unfold unexpected_opcode.
  repeat (apply quiet_bind; [auto with quiet|]; intros ?). auto with quiet.
Qed.

End PumpFacts.

Lemma notices_pump_events (new : list event) :
  forallb is_notice new = true -> forallb pump_event new = true.
Proof.
  induction new as [|e new IH]; simpl; [easy|].
  intros H. apply andb_prop in H as [He Hn]. rewrite (IH Hn).
  now destruct e.
Qed.

Lemma notices_silent (new : list event) :
  forallb is_notice new = true ->
  writes new = [] /\ received new = [] /\ sends new = [].
Proof.
  induction new as [|e new IH]; simpl; [easy|].
  intros H. apply andb_prop in H as [He Hn]. destruct (IH Hn) as (W & R & S).
  unfold writes, received, sends in *. simpl.
  destruct e; simpl in *; try discriminate; now rewrite ?W, ?R, ?S.
Qed.

Section Routing.

Variable json_loads : list byte -> option pyval.

(** What a received frame adds to the trace goes where [routed] says. *)
Lemma handle_frame_routes (opcode : Z) (frame : list byte) (st : pump) :
  exists new,
    trace (fst (handle_frame json_loads opcode frame st)) = trace st ++ new
    /\ writes new = match routed (opcode, frame) with
                     | Some w => [w]
                     | None => []
                     end
    /\ received new = []
    /\ forallb pump_event new = true.
Proof.
  assert (Q : forall (m : M unit), quiet m ->
            exists new, trace (fst (m st)) = trace st ++ new
                        /\ writes new = [] /\ received new = []
                        /\ forallb pump_event new = true).
  { intros m Hm. destruct (Hm st) as (new & E & N). exists new.
    rewrite E. simpl. split; [easy|].
    destruct (notices_silent new N) as (W & R & _).
    now rewrite (notices_pump_events new N). }
  unfold handle_frame, routed.
  destruct (opcode =? OPCODE_CLOSE) eqn:Hc.
  - apply Z.eqb_eq in Hc. subst opcode. exists []. rewrite app_nil_r.
    unfold rlist_remove. destruct (mem Sock (rlist st)), frame; simpl; easy.
  - destruct (opcode =? OPCODE_BINARY) eqn:Hb.
    + destruct frame as [|c data].
      { exists []. simpl. now rewrite app_nil_r. }
      unfold STDOUT_CHANNEL, STDERR_CHANNEL, ERROR_CHANNEL.
      destruct (channel_of c =? 1) eqn:H1.
      { destruct data as [|d data]; simpl.
        - exists []. now rewrite app_nil_r.
        - now exists [EvWrite Stdout (d :: data)]. }
      destruct (channel_of c =? 2) eqn:H2.
      { destruct data as [|d data]; simpl.
        - exists []. now rewrite app_nil_r.
        - now exists [EvWrite Stderr (d :: data)]. }
      cbn [orb andb].
      destruct (channel_of c =? 3) eqn:H3.
      * destruct (Q _ (quiet_decode_status json_loads data)) as (new & E & W & R & P).
        exists new. rewrite E, W, R, P. now destruct (nonempty data).
      * destruct (Q _ (quiet_unexpected_channel (channel_of c) data))
          as (new & E & W & R & P).
        exists new. rewrite E, W, R, P. now destruct (nonempty data).
    + destruct (Q _ (quiet_unexpected_opcode opcode)) as (new & E & W & R & P).
      exists new. rewrite E, W, R, P. now destruct frame.
Qed.

Lemma body_routes (i : iteration) (st : pump) :
  exists new,
    trace (fst (body json_loads i st)) = trace st ++ new
    /\ writes new = omap routed (received new)
    /\ forallb pump_event new = true.
Proof.
  rewrite body_eq. unfold receive.
  assert (F : writes (forwarded i st) = [] /\ received (forwarded i st) = []
              /\ forallb pump_event (forwarded i st) = true).
  { unfold forwarded. destruct (stdin_ready i && mem Stdin (rlist st)); [|easy].
    now destruct (os_read _ _). }
  destruct F as (FW & FR & FP).
  destruct (mem Sock _).
  - destruct (sock_recv i) as [e|[opcode frame]]; simpl.
    + exists (forwarded i st). now rewrite FW, FR.
    + unfold bind. simpl.
      destruct (handle_frame_routes opcode frame
                  {| rlist := rlist st;
                     trace := (trace st ++ forwarded i st) ++ [EvRecv opcode frame] |})
        as (new & E & W & R & P).
      simpl in E.
      destruct (handle_frame json_loads opcode frame _) as [st' r].
      cbn [fst] in *.
      exists (forwarded i st ++ EvRecv opcode frame :: new).
      split; [|split].
      * rewrite E, <- !app_assoc. reflexivity.
      * unfold writes, received in *.
        rewrite !omap_app, FW, FR. cbn [omap list_omap recv_of write_of app].
        rewrite W, R. now destruct (routed (opcode, frame)).
      * rewrite forallb_app, FP. cbn. exact P.
  - exists (forwarded i st). simpl. now rewrite FW, FR.
Qed.

Lemma run_routes (its : list iteration) (st : pump) :
  exists new,
    trace (fst (run json_loads its st)) = trace st ++ new
    /\ writes new = omap routed (received new)
    /\ forallb pump_event new = true.
Proof.
  revert st. induction its as [|i its IH]; intros st; simpl.
  - exists []. now rewrite app_nil_r.
  - destruct (body_routes i st) as (new1 & E1 & W1 & P1).
    destruct (body json_loads i st) as [st1 [o|u]]; simpl in *.
    + now exists new1.
    + destruct (IH st1) as (new2 & E2 & W2 & P2).
      exists (new1 ++ new2). rewrite E2, E1, app_assoc. split; [easy|].
      unfold writes, received in *. rewrite !omap_app, W1, W2.
      now rewrite forallb_app, P1, P2.
Qed.

(** C6. Whatever turns the outside provides, the local writes of the pump
    are, in order, the payloads of the received binary frames of channel 1
    (to the standard output descriptor) and of channel 2 (to the standard
    error descriptor) that are not empty, and nothing else: a frame of
    channel 3 and a frame with an empty payload cause no write. *)
Theorem frames_routed_in_receipt_order (its : list iteration) (rl : list desc) :
  let tr := trace (fst (run json_loads its {| rlist := rl; trace := [] |})) in
  writes tr = omap routed (received tr)
  /\ (forall c data, channel_of c = ERROR_CHANNEL ->
                     routed (OPCODE_BINARY, c :: data) = None)
  /\ (forall c, routed (OPCODE_BINARY, [c]) = None)
  /\ (forall c d data, channel_of c = STDOUT_CHANNEL ->
        routed (OPCODE_BINARY, c :: d :: data) = Some (Stdout, d :: data))
  /\ (forall c d data, channel_of c = STDERR_CHANNEL ->
        routed (OPCODE_BINARY, c :: d :: data) = Some (Stderr, d :: data)).
Proof.
  intros tr. subst tr.
  destruct (run_routes its {| rlist := rl; trace := [] |}) as (new & E & W & _).
  simpl in E. rewrite E. split; [exact W|].
  split; [|split; [|split]].
  - intros c data Hc. unfold routed. rewrite Hc. simpl.
    now destruct (nonempty data).
  - intros c. reflexivity.
  - intros c d data Hc. unfold routed. now rewrite Hc.
  - intros c d data Hc. unfold routed. now rewrite Hc.
Qed.

End Routing.

Section Violations.

Variable json_loads : list byte -> option pyval.

(** C5. When the socket is readable and delivers a binary frame whose
    first byte is a channel id other than 1, 2 and 3 (every id outside
    {0,1,2,3}, and an inbound 0 as well), or a frame whose opcode is
    neither close nor binary, the turn prints the diagnostic naming the
    unexpected channel and its payload, or the unexpected opcode, and ends
    in [sys.exit(1)]; it makes no local write. *)
Theorem protocol_violation_is_fatal
  (i : iteration) (st : pump) (opcode : Z) (frame : list byte) :
  mem Sock (rlist st) = true ->
  sock_ready i = true ->
  sock_recv i = inr (opcode, frame) ->
  (forall c data,
      opcode = OPCODE_BINARY -> frame = c :: data ->
      ~ In (channel_of c) [STDOUT_CHANNEL; STDERR_CHANNEL; ERROR_CHANNEL] ->
      let st' := {| rlist := rlist st;
                    trace := trace st ++ forwarded i st
                             ++ EvRecv opcode frame
                                :: channel_diagnostic (channel_of c) data |} in
      body json_loads i st = (st', inl (SysExit 1))
      /\ writes (trace st') = writes (trace st))
  /\ (opcode <> OPCODE_CLOSE -> opcode <> OPCODE_BINARY ->
      let st' := {| rlist := rlist st;
                    trace := trace st ++ forwarded i st
                             ++ EvRecv opcode frame :: opcode_diagnostic opcode |} in
      body json_loads i st = (st', inl (SysExit 1))
      /\ writes (trace st') = writes (trace st)).
Proof.
  intros Hmem Hready Hrecv.
  assert (FW : writes (forwarded i st) = []).
  { unfold forwarded. destruct (stdin_ready i && mem Stdin (rlist st)); [|easy].
    now destruct (os_read _ _). }
  split.
  - intros c data -> -> Hch st'. subst st'. split.
    + rewrite body_eq. unfold receive.
      rewrite mem_filter_ready. simpl. rewrite Hready, Hmem, Hrecv. simpl.
      unfold bind, handle_frame. simpl.
      assert (H1 : (channel_of c =? STDOUT_CHANNEL) = false)
        by (apply Z.eqb_neq; intros E; apply Hch; rewrite E; simpl; auto).
      assert (H2 : (channel_of c =? STDERR_CHANNEL) = false)
        by (apply Z.eqb_neq; intros E; apply Hch; rewrite E; simpl; auto).
      assert (H3 : (channel_of c =? ERROR_CHANNEL) = false)
        by (apply Z.eqb_neq; intros E; apply Hch; rewrite E; simpl; auto).
      rewrite H1, H2, H3. simpl.
      unfold unexpected_channel, channel_diagnostic, bind, print, emit, finish.
      simpl. rewrite <- !app_assoc. reflexivity.
    + simpl. unfold writes in *. rewrite !omap_app, FW. simpl.
      now rewrite app_nil_r.
  - intros Hc Hb st'. subst st'. split.
    + rewrite body_eq. unfold receive.
      rewrite mem_filter_ready. simpl. rewrite Hready, Hmem, Hrecv. simpl.
      unfold bind, handle_frame. simpl.
      apply Z.eqb_neq in Hc, Hb. rewrite Hc, Hb. simpl.
      unfold unexpected_opcode, opcode_diagnostic, bind, print, emit, finish.
      simpl. rewrite <- !app_assoc. reflexivity.
    + simpl. unfold writes in *. rewrite !omap_app, FW. simpl.
      now rewrite app_nil_r.
Qed.

(** C8. In a turn where the local input is readable and the read returns
    no byte, nothing is sent to the remote side and the turn is the one
    the pump would make with the local input idle: when the socket has
    nothing either, the turn changes nothing and the loop goes on, with
    the same descriptors in [rlist]; a run made only of such turns, however
    long, never leaves the loop. *)
Theorem local_eof_keeps_polling (i : iteration) (st : pump) :
  stdin_ready i = true ->
  os_read (32 * 1024) (stdin_data i) = [] ->
  forwarded i st = []
  /\ body json_loads i st = body json_loads (idle_stdin i) st
  /\ (sock_ready i = false -> body json_loads i st = (st, inr tt))
  /\ (forall n, run json_loads (repeat eof_turn n) st = (st, None)).
Proof.
  intros Hready Hread.
  assert (F : forwarded i st = []).
  { unfold forwarded. rewrite Hread. now destruct (_ && _). }
  assert (St : {| rlist := rlist st; trace := trace st ++ [] |} = st).
  { rewrite app_nil_r. now destruct st. }
  split; [exact F|]. split; [|split].
  - rewrite !body_eq, F. unfold forwarded at 1. simpl.
    unfold receive. rewrite !mem_filter_ready. reflexivity.
  - intros Hs. rewrite body_eq, F, St. unfold receive.
    rewrite mem_filter_ready. simpl. now rewrite Hs.
  - intros n. induction n as [|n IH]; simpl; [reflexivity|].
    rewrite body_eq. unfold forwarded. simpl. rewrite os_read_nil.
    replace (if mem Stdin (rlist st) then [] else []) with (@nil event)
      by now destruct (mem Stdin (rlist st)).
    rewrite St. unfold receive. rewrite mem_filter_ready. simpl. exact IH.
Qed.

End Violations.

(** ** The status channel *)

Lemma ends_finish {A} (o : outcome) : ends (@finish A o).
Proof. intros st. now exists st, o. Qed.

Lemma ends_bind {A B} (m : M A) (k : A -> M B) :
  (forall a, ends (k a)) -> ends (bind m k).
Proof.
  intros Hk st. unfold bind. destruct (m st) as [st1 [o|a]].
  - now exists st1, o.
  - apply Hk.
Qed.

Section StatusChannel.

Variable json_loads : list byte -> option pyval.

Lemma ends_decode_status (data : list byte) : ends (decode_status json_loads data).
Proof.
  unfold decode_status.
  repeat (apply ends_bind; intros ?).
  destruct (py_eq_str _ _); [apply ends_finish|].
  repeat (apply ends_bind; intros ?). apply ends_finish.
Qed.

(** The turn that receives a frame of channel 3 is the status decoding,
    run once the frame is on the trace. *)
Lemma status_turn_eq (i : iteration) (st : pump) (c : byte) (data : list byte) :
  mem Sock (rlist st) = true ->
  sock_ready i = true ->
  sock_recv i = inr (OPCODE_BINARY, c :: data) ->
  channel_of c = ERROR_CHANNEL ->
  body json_loads i st
  = decode_status json_loads data
      {| rlist := rlist st;
         trace := trace st ++ forwarded i st ++ [EvRecv OPCODE_BINARY (c :: data)] |}.
Proof.
  intros Hmem Hready Hrecv Hc.
  rewrite body_eq. unfold receive.
  rewrite mem_filter_ready. simpl. rewrite Hready, Hmem, Hrecv. simpl.
  unfold bind, handle_frame. simpl. rewrite Hc. simpl.
  now rewrite <- app_assoc.
Qed.

(** The loop over the causes changes nothing and either falls through,
    returns or raises. *)
Lemma scan_causes_cases (items : list pyval) (st : pump) :
  exists r, scan_causes items st = (st, r)
            /\ match r with
               | inl (SysExit _) => False
               | _ => True
               end.
Proof.
  induction items as [|cause rest IH]; simpl.
  - now exists (inr tt).
  - unfold bind. destruct (py_getitem cause "reason") as [e|reason]; simpl.
    + now exists (inl (Raise e)).
    + destruct (py_eq_str reason "ExitCode"); [|exact IH].
      destruct (py_getitem cause "message") as [e|message]; simpl.
      * now exists (inl (Raise e)).
      * destruct (py_int message) as [e|n]; simpl.
        -- now exists (inl (Raise e)).
        -- now exists (inl (Return n)).
Qed.

Lemma scan_causes_passed_over (items : list pyval) (st : pump) :
  forallb passed_over items = true ->
  scan_causes items st = (st, inr tt).
Proof.
  induction items as [|cause rest IH]; simpl; [reflexivity|].
  intros H. apply andb_prop in H as [Hc Hr]. unfold passed_over in Hc.
  unfold bind. destruct (py_getitem cause "reason") as [e|reason]; [discriminate|].
  simpl. apply negb_true_iff in Hc. rewrite Hc. now apply IH.
Qed.

Lemma scan_causes_exit_code
  (skipped rest : list pyval) (cause reason message : pyval) (n : Z) (st : pump) :
  forallb passed_over skipped = true ->
  py_getitem cause "reason" = inr reason ->
  py_eq_str reason "ExitCode" = true ->
  py_getitem cause "message" = inr message ->
  py_int message = inr n ->
  scan_causes (skipped ++ cause :: rest) st = (st, inl (Return n)).
Proof.
  intros Hs Hr He Hm Hn.
  induction skipped as [|x skipped IH]; simpl.
  - unfold bind. rewrite Hr. simpl. rewrite He, Hm. simpl. now rewrite Hn.
  - simpl in Hs. apply andb_prop in Hs as [Hx Hs]. unfold passed_over in Hx.
    unfold bind. destruct (py_getitem x "reason") as [e|r]; [discriminate|].
    simpl. apply negb_true_iff in Hx. rewrite Hx. now apply IH.
Qed.

End StatusChannel.

Section StatusDecoding.

Variable json_loads : list byte -> option pyval.

(** C1 (amended). A turn that receives a frame of channel 3 always ends
    the loop.  When the payload decodes to an object whose status is
    ["Success"] the pump returns 0; when the status is anything else, the
    reason is ["NonZeroExitCode"] and the first cause of reason
    ["ExitCode"] carries a message that [int] reads as [n], the pump
    returns [n]; when the reason is anything else and the object has a
    ["message"] key, the pump prints the status and the message and ends
    in [sys.exit(1)]. *)
Theorem status_frame_decoding
  (i : iteration) (st : pump) (c : byte) (data : list byte) :
  mem Sock (rlist st) = true ->
  sock_ready i = true ->
  sock_recv i = inr (OPCODE_BINARY, c :: data) ->
  channel_of c = ERROR_CHANNEL ->
  let st1 := status_received i st (c :: data) in
  (exists st' o, body json_loads i st = (st', inl o))
  /\ (forall error status,
        json_loads data = Some error ->
        py_getitem error "status" = inr status ->
        (py_eq_str status "Success" = true ->
         body json_loads i st = (st1, inl (Return 0)))
        /\ (py_eq_str status "Success" = false ->
            forall reason,
              py_getitem error "reason" = inr reason ->
              (py_eq_str reason "NonZeroExitCode" = true ->
               forall details causes skipped cause rest creason message n,
                 py_getitem error "details" = inr details ->
                 py_getitem details "causes" = inr causes ->
                 py_iter causes = inr (skipped ++ cause :: rest) ->
                 forallb passed_over skipped = true ->
                 py_getitem cause "reason" = inr creason ->
                 py_eq_str creason "ExitCode" = true ->
                 py_getitem cause "message" = inr message ->
                 py_int message = inr n ->
                 body json_loads i st = (st1, inl (Return n)))
              /\ (py_eq_str reason "NonZeroExitCode" = false ->
                  forall message,
                    py_getitem error "message" = inr message ->
                    body json_loads i st
                    = (say (status_diagnostic status message) st1,
                       inl (SysExit 1))))).
Proof.
  intros Hmem Hready Hrecv Hc st1. subst st1.
  rewrite (status_turn_eq json_loads i st c data Hmem Hready Hrecv Hc).
  split; [apply ends_decode_status|].
  intros error status Hload Hstatus.
  unfold decode_status, status_received, say, bind, emit.
  cbn [rlist trace]. rewrite Hload. cbn [lift ret]. rewrite Hstatus.
  cbn [lift ret]. rewrite <- !app_assoc. cbn [app].
  split.
  - intros ->. reflexivity.
  - intros ->. intros reason ->. cbn [lift ret]. split.
    + intros -> details causes skipped cause rest creason message n
        Hd Hcs Hit Hs Hr He Hm Hn.
      rewrite Hd. cbn [lift ret]. rewrite Hcs. cbn [lift ret].
      rewrite Hit. cbn [lift ret].
      now rewrite (scan_causes_exit_code skipped rest cause creason message n _
                     Hs Hr He Hm Hn).
    + intros -> message ->. unfold print, emit, finish. cbn.
      rewrite <- !app_assoc. reflexivity.
Qed.

(** C10. A frame of channel 3 whose payload decodes to an object with a
    status other than ["Success"] makes the pump raise [KeyError] when the
    object has no ["reason"] key, and also when its reason is
    ["NonZeroExitCode"], every cause is passed over and the object has no
    ["message"] key (an empty line is printed first); the pump ends such
    a turn in [sys.exit] only when the object has both a ["status"] and a
    ["message"] key. *)
Theorem status_key_lookup_errors
  (i : iteration) (st : pump) (c : byte) (data : list byte) :
  mem Sock (rlist st) = true ->
  sock_ready i = true ->
  sock_recv i = inr (OPCODE_BINARY, c :: data) ->
  channel_of c = ERROR_CHANNEL ->
  let st1 := status_received i st (c :: data) in
  (forall d status,
      json_loads data = Some (PDict d) ->
      dict_get d "status" = Some status ->
      py_eq_str status "Success" = false ->
      (dict_get d "reason" = None ->
       body json_loads i st = (st1, inl (Raise (KeyError "reason"))))
      /\ (forall reason details causes items,
            dict_get d "reason" = Some reason ->
            py_eq_str reason "NonZeroExitCode" = true ->
            dict_get d "details" = Some details ->
            py_getitem details "causes" = inr causes ->
            py_iter causes = inr items ->
            forallb passed_over items = true ->
            dict_get d "message" = None ->
            body json_loads i st
            = (say [EvPrint []] st1, inl (Raise (KeyError "message")))))
  /\ (forall st' code,
        body json_loads i st = (st', inl (SysExit code)) ->
        exists d status message,
          json_loads data = Some (PDict d)
          /\ dict_get d "status" = Some status
          /\ dict_get d "message" = Some message
          /\ code = 1
          /\ st' = say (status_diagnostic status message) st1).
Proof.
  intros Hmem Hready Hrecv Hc st1. subst st1.
  rewrite (status_turn_eq json_loads i st c data Hmem Hready Hrecv Hc).
  unfold decode_status, status_received, say, bind, emit.
  cbn [rlist trace]. split.
  - intros d status -> Hstatus Hne. cbn [lift ret py_getitem].
    rewrite Hstatus. cbn [lift ret]. rewrite Hne. rewrite <- !app_assoc. cbn [app].
    split.
    + intros ->. reflexivity.
    + intros reason details causes items Hr Hnz Hd Hcs Hit Hp Hm.
      rewrite Hr. cbn [lift ret]. rewrite Hnz, Hd. cbn [lift ret].
      rewrite Hcs. cbn [lift ret]. rewrite Hit. cbn [lift ret].
      rewrite (scan_causes_passed_over items _ Hp), Hm.
      unfold print, emit, finish. cbn.
      rewrite <- !app_assoc. reflexivity.
  - intros st' code.
    destruct (json_loads data) as [error|]; cbn [lift ret finish]; [|discriminate].
    destruct error as [| | | | |d]; cbn [py_getitem lift finish ret]; try discriminate.
    destruct (dict_get d "status") as [status|] eqn:Hstatus;
      cbn [lift ret finish]; [|discriminate].
    destruct (py_eq_str status "Success"); [discriminate|].
    destruct (dict_get d "reason") as [reason|]; cbn [lift ret finish]; [|discriminate].
    match goal with
    | |- context [match ?m ?s with _ => _ end] =>
        assert (Hmid : exists r, m s = (s, r)
                                 /\ match r with
                                    | inl (SysExit _) => False
                                    | _ => True
                                    end)
    end.
    { destruct (py_eq_str reason "NonZeroExitCode"); [|now exists (inr tt)].
      unfold bind.
      destruct (dict_get d "details") as [details|]; cbn [lift ret finish];
        [|now exists (inl (Raise (KeyError "details")))].
      destruct (py_getitem details "causes") as [e|causes]; cbn [lift ret finish];
        [now exists (inl (Raise e))|].
      destruct (py_iter causes) as [e|items]; cbn [lift ret finish];
        [now exists (inl (Raise e))|].
      apply scan_causes_cases. }
    destruct Hmid as (r & -> & Hr).
    destruct r as [[n|n|e]|[]]; try discriminate; try contradiction.
    unfold print, emit, finish. cbn. rewrite ?Hstatus. cbn.
    destruct (dict_get d "message") as [message|] eqn:Hmsg; cbn; [|discriminate].
    intros E. injection E as <- <-.
    exists d, status, message. rewrite <- !app_assoc. cbn.
    repeat split; auto.
Qed.

End StatusDecoding.

(** ** The status channel on concrete payloads *)

Lemma status_frame_decoding_witness :
  mem Sock (rlist pump0) = true
  /\ body json_loads_ascii (status_turn status_success) pump0
     = (status_received (status_turn status_success) pump0 (x03 :: status_success),
        inl (Return 0))
  /\ body json_loads_ascii (status_turn status_exit_17) pump0
     = (status_received (status_turn status_exit_17) pump0 (x03 :: status_exit_17),
        inl (Return 17))
  /\ body json_loads_ascii (status_turn status_boom) pump0
     = (say (status_diagnostic (PStr "Failure") (PStr "boom"))
          (status_received (status_turn status_boom) pump0 (x03 :: status_boom)),
        inl (SysExit 1)).
Proof.
  split; [reflexivity|]. split; [|split].
  - pose proof (status_frame_decoding json_loads_ascii (status_turn status_success)
                  pump0 x03 status_success eq_refl eq_refl eq_refl eq_refl)
      as [_ H].
    assert (E : json_loads_ascii status_success
                = Some (PDict [("status", PStr "Success")]))
      by (vm_compute; reflexivity).
    exact (proj1 (H _ (PStr "Success") E eq_refl) eq_refl).
  - pose proof (status_frame_decoding json_loads_ascii (status_turn status_exit_17)
                  pump0 x03 status_exit_17 eq_refl eq_refl eq_refl eq_refl)
      as [_ H].
    set (cause := PDict [("reason", PStr "ExitCode"); ("message", PStr "17")]).
    set (details := PDict [("causes", PList [cause])]).
    assert (E : json_loads_ascii status_exit_17
                = Some (PDict [("status", PStr "Failure");
                               ("reason", PStr "NonZeroExitCode");
                               ("details", details)]))
      by (vm_compute; reflexivity).
    pose proof (proj2 (H _ (PStr "Failure") E eq_refl) eq_refl
                  (PStr "NonZeroExitCode") eq_refl) as [H3 _].
    exact (H3 eq_refl details (PList [cause]) [] cause [] (PStr "ExitCode")
             (PStr "17") 17 eq_refl eq_refl eq_refl eq_refl eq_refl eq_refl
             eq_refl eq_refl).
  - pose proof (status_frame_decoding json_loads_ascii (status_turn status_boom)
                  pump0 x03 status_boom eq_refl eq_refl eq_refl eq_refl)
      as [_ H].
    assert (E : json_loads_ascii status_boom
                = Some (PDict [("status", PStr "Failure");
                               ("reason", PStr "SomethingElse");
                               ("message", PStr "boom")]))
      by (vm_compute; reflexivity).
    pose proof (proj2 (H _ (PStr "Failure") E eq_refl) eq_refl
                  (PStr "SomethingElse") eq_refl) as [_ H3].
    exact (H3 eq_refl (PStr "boom") eq_refl).
Defined.

(** A failure status whose reason is not ["NonZeroExitCode"] and that has
    no ["message"] key: the pump raises [KeyError] after printing an empty
    line; it neither prints the status nor ends in [sys.exit]. *)
Lemma failure_without_message_raises :
  body json_loads_ascii (status_turn status_no_message) pump0
  = (say [EvPrint []]
       (status_received (status_turn status_no_message) pump0
          (x03 :: status_no_message)),
     inl (Raise (KeyError "message")))
  /\ ~ (forall data error status reason,
          json_loads_ascii data = Some error ->
          py_getitem error "status" = inr status ->
          py_eq_str status "Success" = false ->
          py_getitem error "reason" = inr reason ->
          py_eq_str reason "NonZeroExitCode" = false ->
          exists st' code,
            code <> 0
            /\ body json_loads_ascii (status_turn data) pump0
               = (st', inl (SysExit code))).
Proof.
  split; [vm_compute; reflexivity|].
  intros H.
  destruct (H status_no_message
              (PDict [("status", PStr "Failure"); ("reason", PStr "SomethingElse")])
              (PStr "Failure") (PStr "SomethingElse"))
    as (st' & code & _ & E); try (vm_compute; reflexivity).
  vm_compute in E. discriminate E.
Qed.

Lemma status_key_lookup_errors_witness :
  mem Sock (rlist pump0) = true
  /\ body json_loads_ascii (status_turn status_no_reason) pump0
     = (status_received (status_turn status_no_reason) pump0 (x03 :: status_no_reason),
        inl (Raise (KeyError "reason")))
  /\ body json_loads_ascii (status_turn status_signal_only) pump0
     = (say [EvPrint []]
          (status_received (status_turn status_signal_only) pump0
             (x03 :: status_signal_only)),
        inl (Raise (KeyError "message"))).
Proof.
  split; [reflexivity|]. split.
  - pose proof (status_key_lookup_errors json_loads_ascii
                  (status_turn status_no_reason) pump0 x03 status_no_reason
                  eq_refl eq_refl eq_refl eq_refl) as [H _].
    assert (E : json_loads_ascii status_no_reason
                = Some (PDict [("status", PStr "Failure")]))
      by (vm_compute; reflexivity).
    exact (proj1 (H _ (PStr "Failure") E eq_refl eq_refl) eq_refl).
  - pose proof (status_key_lookup_errors json_loads_ascii
                  (status_turn status_signal_only) pump0 x03 status_signal_only
                  eq_refl eq_refl eq_refl eq_refl) as [H _].
    set (cause := PDict [("reason", PStr "Signal"); ("message", PStr "9")]).
    set (details := PDict [("causes", PList [cause])]).
    assert (E : json_loads_ascii status_signal_only
                = Some (PDict [("status", PStr "Failure");
                               ("reason", PStr "NonZeroExitCode");
                               ("details", details)]))
      by (vm_compute; reflexivity).
    exact (proj2 (H _ (PStr "Failure") E eq_refl eq_refl)
             (PStr "NonZeroExitCode") details (PList [cause]) [cause]
             eq_refl eq_refl eq_refl eq_refl eq_refl eq_refl eq_refl).
Defined.

Lemma protocol_violation_is_fatal_witness :
  mem Sock (rlist pump0) = true
  /\ body json_loads_ascii (frame_turn OPCODE_BINARY (x09 :: bytes_of "zz")) pump0
     = ({| rlist := [Sock; Stdin];
           trace := EvRecv OPCODE_BINARY (x09 :: bytes_of "zz")
                    :: channel_diagnostic 9 (bytes_of "zz") |},
        inl (SysExit 1))
  /\ body json_loads_ascii (frame_turn 1 (bytes_of "hello")) pump0
     = ({| rlist := [Sock; Stdin];
           trace := EvRecv 1 (bytes_of "hello") :: opcode_diagnostic 1 |},
        inl (SysExit 1)).
Proof.
  split; [reflexivity|]. split.
  - pose proof (protocol_violation_is_fatal json_loads_ascii
                  (frame_turn OPCODE_BINARY (x09 :: bytes_of "zz")) pump0
                  OPCODE_BINARY (x09 :: bytes_of "zz") eq_refl eq_refl eq_refl) as [H _].
    assert (N : ~ In (channel_of x09) [STDOUT_CHANNEL; STDERR_CHANNEL; ERROR_CHANNEL])
      by (vm_compute; intuition discriminate).
    exact (proj1 (H x09 (bytes_of "zz") eq_refl eq_refl N)).
  - pose proof (protocol_violation_is_fatal json_loads_ascii
                  (frame_turn 1 (bytes_of "hello")) pump0 1 (bytes_of "hello")
                  eq_refl eq_refl eq_refl) as [_ H].
    assert (N8 : 1 <> OPCODE_CLOSE) by discriminate.
    assert (N2 : 1 <> OPCODE_BINARY) by discriminate.
    exact (proj1 (H N8 N2)).
Defined.

Lemma local_eof_keeps_polling_witness :
  stdin_ready eof_turn = true
  /\ os_read (32 * 1024) (stdin_data eof_turn) = []
  /\ body json_loads_ascii eof_turn pump0 = (pump0, inr tt)
  /\ run json_loads_ascii (repeat eof_turn 5) pump0 = (pump0, None).
Proof.
  pose proof (local_eof_keeps_polling json_loads_ascii eof_turn pump0
                eq_refl (os_read_nil _)) as (_ & _ & H & R).
  split; [reflexivity|]. split; [apply os_read_nil|]. split.
  - exact (H eq_refl).
  - exact (R 5%nat).
Defined.

(** ** The credential fetch *)

(** On an object, reading the fields fails only with the [KeyError] of a
    required key that is absent, and succeeds only with all seven
    present. *)
Lemma read_fields_dict (d : list (string * pyval)) :
  match read_fields (PDict d) with
  | inl e => exists k, e = KeyError k /\ In k required_fields /\ dict_get d k = None
  | inr info => populated_from d info
  end.
Proof.
  unfold read_fields, and_then, py_getitem, populated_from, required_fields.
  repeat match goal with
         | |- context [dict_get d ?k] =>
             let H := fresh "H" in
             destruct (dict_get d k) eqn:H;
             [|exists k; simpl; intuition auto]
         end.
  simpl. intuition auto.
Qed.

Section Fetch.

Variable json_loads : list byte -> option pyval.

(** C3. When the answer of the broker is an object from which one of the
    seven required fields is absent, [_fetch_pod_info] raises the
    malformed-response [ValueError]; and whatever the answer is, when
    [_fetch_pod_info] returns, the answer was an object with all seven
    fields and the tuple holds exactly their values.  An answer that is
    no object has none of the fields and is not reported as malformed:
    one that is not JSON raises the error of the decoder, one that is
    JSON but no object raises [TypeError], since only [KeyError] is
    caught. *)
Theorem fetch_rejects_missing_field (body : list byte) :
  (forall d field,
      json_loads body = Some (PDict d) ->
      In field required_fields ->
      dict_get d field = None ->
      _fetch_pod_info json_loads body = inl (malformed_response (PDict d)))
  /\ (forall info,
        _fetch_pod_info json_loads body = inr info ->
        exists d, json_loads body = Some (PDict d) /\ populated_from d info)
  /\ (json_loads body = None ->
      _fetch_pod_info json_loads body = inl JSONDecodeError)
  /\ (forall response,
        json_loads body = Some response ->
        (forall d, response <> PDict d) ->
        _fetch_pod_info json_loads body = inl TypeError).
Proof.
  unfold _fetch_pod_info. split; [|split; [|split]].
  - intros d field -> Hin Hnone.
    pose proof (read_fields_dict d) as H.
    destruct (read_fields (PDict d)) as [e|info].
    + destruct H as (k & -> & _). reflexivity.
    + exfalso. unfold populated_from in H. simpl in Hin.
      decompose [and] H. clear H.
      repeat (destruct Hin as [<- | Hin]; [congruence|]). exact Hin.
  - intros info. destruct (json_loads body) as [response|]; [|discriminate].
    destruct response as [| | | | |d];
      try (unfold read_fields, and_then, py_getitem; discriminate).
    pose proof (read_fields_dict d) as H.
    destruct (read_fields (PDict d)) as [e|info'].
    + destruct H as (k & -> & _). discriminate.
    + intros E. injection E as <-. now exists d.
  - intros ->. reflexivity.
  - intros response -> Hnd.
    destruct response as [| | | | |d]; try reflexivity. now destruct (Hnd d).
Qed.

End Fetch.

Lemma fetch_rejects_missing_field_witness :
  In "namespace" required_fields
  /\ _fetch_pod_info json_loads_ascii body_without_namespace
     = inl (malformed_response
              (PDict [("tmp_access_key", PStr "AK"); ("tmp_secret_key", PStr "SK");
                      ("tmp_session_token", PStr "TOK"); ("cert_auth_data", PStr "CERT");
                      ("cluster_endpoint", PStr "https://e");
                      ("aws_account_id", PStr "123")])).
Proof.
  assert (Hin : In "namespace" required_fields) by (simpl; tauto).
  split; [exact Hin|].
  assert (E : json_loads_ascii body_without_namespace
              = Some (PDict [("tmp_access_key", PStr "AK"); ("tmp_secret_key", PStr "SK");
                             ("tmp_session_token", PStr "TOK");
                             ("cert_auth_data", PStr "CERT");
                             ("cluster_endpoint", PStr "https://e");
                             ("aws_account_id", PStr "123")]))
    by (vm_compute; reflexivity).
  exact (proj1 (fetch_rejects_missing_field json_loads_ascii body_without_namespace)
           _ "namespace" E Hin eq_refl).
Defined.

(** The answer [null] is JSON and has none of the seven fields:
    [_fetch_pod_info] raises [TypeError], which no caller can tell from a
    programming error, and not the malformed-response error. *)
Lemma fetch_null_answer_raises_type_error :
  json_loads_ascii body_null = Some PNone
  /\ (forall field, In field required_fields ->
                    py_getitem PNone field = inl TypeError)
  /\ _fetch_pod_info json_loads_ascii body_null = inl TypeError
  /\ (forall response,
        _fetch_pod_info json_loads_ascii body_null
        <> inl (malformed_response response)).
Proof.
  assert (E : _fetch_pod_info json_loads_ascii body_null = inl TypeError)
    by (vm_compute; reflexivity).
  split; [vm_compute; reflexivity|]. split; [reflexivity|].
  split; [exact E|]. intros response. rewrite E. discriminate.
Qed.

(** ** The rendered profile *)

Lemma starts_with_app (p r : string) : starts_with p (p +:+ r) = true.
Proof.
  induction p as [|a p IH]; simpl; [reflexivity|].
  now rewrite Ascii.eqb_refl.
Qed.

Lemma occurs_app (pre sub post : string) :
  occurs sub (pre +:+ sub +:+ post) = true.
Proof.
  induction pre as [|a pre IH]; simpl.
  - destruct (sub +:+ post) eqn:E; simpl.
    + destruct sub; [reflexivity|discriminate].
    + rewrite <- E, starts_with_app. reflexivity.
  - rewrite IH. apply orb_true_r.
Qed.

Lemma no_nl_app (x y : string) : no_nl (x +:+ y) = no_nl x && no_nl y.
Proof.
  induction x as [|a x IH]; simpl; [reflexivity|].
  now rewrite IH, andb_assoc.
Qed.

Lemma split_nl_no_nl (s : string) : no_nl s = true -> split_nl s = [s].
Proof.
  induction s as [|a s IH]; simpl; [reflexivity|].
  intros H. apply andb_prop in H as [Ha Hs]. apply negb_true_iff in Ha.
  now rewrite Ha, (IH Hs).
Qed.

Lemma split_nl_line (l r : string) :
  no_nl l = true -> split_nl (l +:+ nl +:+ r) = l :: split_nl r.
Proof.
  induction l as [|a l IH]; simpl; [reflexivity|].
  intros H. apply andb_prop in H as [Ha Hl]. apply negb_true_iff in Ha.
  now rewrite Ha, (IH Hl).
Qed.

(** Splitting undoes joining when no line has a line break. *)
Lemma split_nl_join_nl (l : string) (ls : list string) :
  forallb no_nl (l :: ls) = true -> split_nl (join_nl (l :: ls)) = l :: ls.
Proof.
  revert l. induction ls as [|l' ls IH]; intros l H; simpl in H.
  - apply andb_prop in H as [Hl _]. simpl. now apply split_nl_no_nl.
  - apply andb_prop in H as [Hl Hr].
    change (join_nl (l :: l' :: ls)) with (l +:+ nl +:+ join_nl (l' :: ls)).
    rewrite (split_nl_line _ _ Hl). f_equal. apply IH. exact Hr.
Qed.

Lemma margin_stays_empty (ins : list string) :
  fold_left margin_step ins (Some EmptyString) = Some EmptyString.
Proof. induction ins as [|x ins IH]; simpl; [reflexivity|exact IH]. Qed.

(** A text whose first line starts with a character that is neither a
    space nor a tab has no margin: [dedent] only empties the lines made of
    spaces and tabs. *)
Lemma dedent_flush_left (c : ascii) (l : string) (ls : list string) :
  is_blank c = false ->
  forallb no_nl (String c l :: ls) = true ->
  dedent (join_nl (String c l :: ls))
  = join_nl (map normalize_line (String c l :: ls)).
Proof.
  intros Hc Hnl. unfold dedent. rewrite (split_nl_join_nl _ _ Hnl).
  assert (N : normalize_line (String c l) = String c l).
  { unfold normalize_line. cbn [all_blank]. now rewrite Hc. }
  cbn [map]. rewrite N. unfold indents. cbn [List.filter all_blank]. rewrite Hc.
  cbn [andb negb map leading_ws fold_left margin_step]. rewrite Hc.
  now rewrite margin_stays_empty.
Qed.

Lemma kubeconfig_lines_no_nl (cert ep acct ak sk tok : string) :
  no_nl cert = true -> no_nl ep = true -> no_nl acct = true ->
  no_nl ak = true -> no_nl sk = true -> no_nl tok = true ->
  forallb no_nl (kubeconfig_lines cert ep acct ak sk tok) = true.
Proof.
  intros H1 H2 H3 H4 H5 H6. unfold kubeconfig_lines, cluster_arn.
  cbn [forallb]. rewrite !no_nl_app, H1, H2, H3, H4, H5, H6. reflexivity.
Qed.

(** Without a line break in the inputs the profile is the f-string
    itself, line for line. *)
Lemma kubeconfig_lines_kept (cert ep acct ak sk tok : string) :
  no_nl cert = true -> no_nl ep = true -> no_nl acct = true ->
  no_nl ak = true -> no_nl sk = true -> no_nl tok = true ->
  split_nl (_construct_kubeconfig cert ep acct ak sk tok)
  = kubeconfig_lines cert ep acct ak sk tok.
Proof.
  intros H1 H2 H3 H4 H5 H6.
  pose proof (kubeconfig_lines_no_nl cert ep acct ak sk tok H1 H2 H3 H4 H5 H6) as Hnl.
  unfold _construct_kubeconfig.
  assert (N : map normalize_line (kubeconfig_lines cert ep acct ak sk tok)
              = kubeconfig_lines cert ep acct ak sk tok) by reflexivity.
  change (kubeconfig_lines cert ep acct ak sk tok)
    with (String "a" "piVersion: v1"
            :: tl (kubeconfig_lines cert ep acct ak sk tok)) in *.
  rewrite dedent_flush_left by (reflexivity || exact Hnl).
  rewrite N. now apply split_nl_join_nl.
Qed.

(** C4 (amended). For credential values, endpoint, certificate data and
    account id without a line break, the cluster entry and the context
    entry of the rendered profile carry the same name, the one built from
    the account id, the region [us-west-2] and the cluster name
    [prion-prod], and the three temporary credentials stand unchanged
    between the quotes of their [value:] lines. *)
Theorem kubeconfig_embeds_inputs (cert ep acct ak sk tok : string) :
  no_nl cert = true -> no_nl ep = true -> no_nl acct = true ->
  no_nl ak = true -> no_nl sk = true -> no_nl tok = true ->
  let ls := split_nl (_construct_kubeconfig cert ep acct ak sk tok) in
  length ls = 34%nat
  /\ nth 5 ls EmptyString = "  name: " +:+ cluster_arn acct
  /\ nth 10 ls EmptyString = "  name: " +:+ cluster_arn acct
  /\ cluster_arn acct
     = "arn:aws:eks:" +:+ region_code +:+ ":" +:+ acct +:+ ":cluster/" +:+ cluster_name
  /\ nth 28 ls EmptyString = "        - name: 'AWS_ACCESS_KEY_ID'"
  /\ nth 29 ls EmptyString = "          value: '" +:+ ak +:+ "'"
  /\ nth 30 ls EmptyString = "        - name: 'AWS_SECRET_ACCESS_KEY'"
  /\ nth 31 ls EmptyString = "          value: '" +:+ sk +:+ "'"
  /\ nth 32 ls EmptyString = "        - name: 'AWS_SESSION_TOKEN'"
  /\ nth 33 ls EmptyString = "          value: '" +:+ tok +:+ "'".
Proof.
  intros H1 H2 H3 H4 H5 H6 ls. subst ls.
  rewrite (kubeconfig_lines_kept cert ep acct ak sk tok H1 H2 H3 H4 H5 H6).
  repeat split.
Qed.

Lemma kubeconfig_embeds_inputs_witness :
  no_nl "AK" = true
  /\ nth 5 (split_nl (_construct_kubeconfig "CERT" "https://e" "123" "AK" "SK" "TOK"))
       EmptyString
     = "  name: arn:aws:eks:us-west-2:123:cluster/prion-prod"
  /\ nth 10 (split_nl (_construct_kubeconfig "CERT" "https://e" "123" "AK" "SK" "TOK"))
       EmptyString
     = "  name: arn:aws:eks:us-west-2:123:cluster/prion-prod"
  /\ nth 29 (split_nl (_construct_kubeconfig "CERT" "https://e" "123" "AK" "SK" "TOK"))
       EmptyString
     = "          value: 'AK'".
Proof.
  pose proof (kubeconfig_embeds_inputs "CERT" "https://e" "123" "AK" "SK" "TOK"
                eq_refl eq_refl eq_refl eq_refl eq_refl eq_refl)
    as (_ & Hc & Hx & _ & _ & Ha & _).
  split; [reflexivity|]. split; [exact Hc|]. split; [exact Hx|exact Ha].
Defined.

(** An access key with a line made of a single space does not occur in
    the profile rendered from it: [dedent] empties that line. *)
Lemma kubeconfig_alters_blank_line :
  ~ (exists pre post,
        _construct_kubeconfig "CERT" "https://e" "123" key_with_blank_line "SK" "TOK"
        = pre +:+ key_with_blank_line +:+ post).
Proof.
  intros (pre & post & E).
  pose proof (occurs_app pre key_with_blank_line post) as H.
  rewrite <- E in H. vm_compute in H. discriminate H.
Qed.

(** ** Sessions and the command line *)

Section SessionFacts.

Variable json_loads : list byte -> option pyval.
Variable py_repr : pyval -> string.

Lemma run_app (pre rest : list iteration) (st st1 : pump) :
  run json_loads pre st = (st1, None) ->
  run json_loads (pre ++ rest) st = run json_loads rest st1.
Proof.
  revert st. induction pre as [|i pre IH]; intros st; simpl.
  - intros E. now injection E as ->.
  - destruct (body json_loads i st) as [st' [o|u]]; [discriminate|]. apply IH.
Qed.

(** The scoped write gives the file back whether it succeeds or not. *)
Lemma write_config_releases (s : session) (data : string) (w : world) :
  open_files (fst (write_config s data w)) = open_files w.
Proof.
  unfold write_config. destruct (open_fails s); [reflexivity|].
  destruct (write_fails s); simpl; now rewrite String.eqb_refl.
Qed.

(** A session whose setup succeeds is its pump, started on the profile it
    has just written. *)
Lemma execute_connected (s : session) (w : world) (info : pod_info) (n : Z) :
  _fetch_pod_info json_loads (broker_body s) = inr info ->
  py_int (PStr (token_account_id s)) = inr n ->
  open_fails s = false -> write_fails s = None ->
  load_fails s = false -> connect_fails s = false ->
  execute json_loads py_repr s w
  = ({| files := <[config_file s := profile_of py_repr info]> (files w);
        open_files := open_files w |},
     trace (fst (run json_loads (turns s) (connected py_repr s info))),
     snd (run json_loads (turns s) (connected py_repr s info))).
Proof.
  intros Hf Hi Ho Hw Hl Hc. unfold execute. rewrite Hf, Hi.
  unfold write_config. rewrite Ho, Hw. cbn [files open_files remove_path].
  rewrite String.eqb_refl, insert_insert_eq, lookup_insert_eq, Hl, Hc.
  unfold connected.
  now destruct (run json_loads (turns s) _).
Qed.

End SessionFacts.

Section CommandLine.

Variable json_loads : list byte -> option pyval.
Variable py_repr : pyval -> string.

(** C2 (amended). A session whose setup succeeds ends the way the first
    turn that leaves the loop ends.  The [exec] command then exits with
    status 0 when [execute] returned 0 (the remote process succeeded),
    with status 1 when [execute] ended in [sys.exit(1)] (a protocol
    violation, or a failure status without exit code), and with status 0,
    after printing that it was unable to exec into the task, when
    [execute] raised an exception, a failure of the transport included. *)
Theorem exec_exit_status (s : session) (w : world) :
  (forall info n pre last rest st1 st2 o,
      _fetch_pod_info json_loads (broker_body s) = inr info ->
      py_int (PStr (token_account_id s)) = inr n ->
      open_fails s = false -> write_fails s = None ->
      load_fails s = false -> connect_fails s = false ->
      turns s = pre ++ last :: rest ->
      run json_loads pre (connected py_repr s info) = (st1, None) ->
      body json_loads last st1 = (st2, inl o) ->
      snd (execute json_loads py_repr s w) = Some o)
  /\ (snd (execute json_loads py_repr s w) = Some (Return 0) ->
      snd (main.execute json_loads py_repr s w) = Some 0)
  /\ (snd (execute json_loads py_repr s w) = Some (SysExit 1) ->
      snd (main.execute json_loads py_repr s w) = Some 1)
  /\ (forall e,
        snd (execute json_loads py_repr s w) = Some (Raise e) ->
        snd (main.execute json_loads py_repr s w) = Some 0
        /\ snd (fst (main.execute json_loads py_repr s w))
           = snd (fst (execute json_loads py_repr s w)) ++ [unable_to_exec s]).
Proof.
  split; [|split; [|split]].
  - intros info n pre last rest st1 st2 o Hf Hi Ho Hw Hl Hc Ht Hpre Hlast.
    rewrite (execute_connected json_loads py_repr s w info n Hf Hi Ho Hw Hl Hc).
    cbn [snd]. rewrite Ht, (run_app json_loads pre (last :: rest) _ st1 Hpre).
    simpl. now rewrite Hlast.
  - unfold main.execute.
    destruct (execute json_loads py_repr s w) as [[w' tr] [[c|c|e]|]]; simpl;
      intros E; try discriminate; reflexivity.
  - unfold main.execute.
    destruct (execute json_loads py_repr s w) as [[w' tr] [[c|c|e]|]]; simpl;
      intros E; try discriminate; now injection E as ->.
  - intros e. unfold main.execute.
    destruct (execute json_loads py_repr s w) as [[w' tr] [[c|c|e']|]]; simpl;
      intros E; try discriminate; now split.
Qed.

(** C7. The write of the profile gives the file back on its two paths,
    so every exit path of a session leaves the set of open files as it
    found it.  A session does not remove the file; it writes it anew
    before use: whatever the file held, once the write has succeeded it
    holds the profile rendered from the session's own broker answer, on
    every exit path that follows; that profile is the text the session
    loads; and neither the trace nor the outcome of a session depends on
    what the files held before.  A session touches no other file than
    the [config] of its own working directory, and one that fails before
    the write (the broker answer, the account id of the token, the open)
    leaves every file as it was: a profile left behind is overwritten
    only by a later session that gets as far as the write, in the same
    directory. *)
Theorem config_file_scoped_and_overwritten (s : session) (w : world) :
  (forall data, open_files (fst (write_config s data w)) = open_files w)
  /\ open_files (fst (fst (execute json_loads py_repr s w))) = open_files w
  /\ (forall text,
        In (EvLoadKubeConfig text) (snd (fst (execute json_loads py_repr s w))) ->
        exists info,
          _fetch_pod_info json_loads (broker_body s) = inr info
          /\ text = profile_of py_repr info
          /\ files (fst (fst (execute json_loads py_repr s w))) !! config_file s
             = Some text)
  /\ (forall info n,
        _fetch_pod_info json_loads (broker_body s) = inr info ->
        py_int (PStr (token_account_id s)) = inr n ->
        open_fails s = false ->
        write_fails s = None ->
        files (fst (fst (execute json_loads py_repr s w))) !! config_file s
        = Some (profile_of py_repr info))
  /\ (forall w2,
        snd (fst (execute json_loads py_repr s w))
        = snd (fst (execute json_loads py_repr s w2))
        /\ snd (execute json_loads py_repr s w)
           = snd (execute json_loads py_repr s w2))
  /\ (forall path,
        path <> config_file s ->
        files (fst (fst (execute json_loads py_repr s w))) !! path
        = files w !! path)
  /\ ((exists e, _fetch_pod_info json_loads (broker_body s) = inl e)
      \/ (exists e, py_int (PStr (token_account_id s)) = inl e)
      \/ open_fails s = true ->
      fst (fst (execute json_loads py_repr s w)) = w).
Proof.
  assert (L : forall data w0,
             match write_config s data w0 with
             | (w', inr _) => files w' !! config_file s = Some data
             | (_, inl _) => True
             end).
  { intros data w0. unfold write_config. destruct (open_fails s); [exact I|].
    destruct (write_fails s); [exact I|]. cbn. apply lookup_insert_eq. }
  assert (R : forall data w1 w2,
             snd (write_config s data w1) = snd (write_config s data w2)).
  { intros data w1 w2. unfold write_config. destruct (open_fails s); [reflexivity|].
    now destruct (write_fails s). }
  assert (F : forall data path,
             path <> config_file s ->
             files (fst (write_config s data w)) !! path = files w !! path).
  { intros data path Hp. unfold write_config.
    destruct (open_fails s); [reflexivity|].
    destruct (write_fails s); cbn; now rewrite !lookup_insert_ne by congruence. }
  split; [intros data; apply write_config_releases|].
  split; [|split; [|split; [|split; [|split]]]].
  - unfold execute.
    destruct (_fetch_pod_info json_loads (broker_body s)) as [e|info]; [reflexivity|].
    destruct (py_int _) as [e|n]; [reflexivity|].
    pose proof (write_config_releases s (profile_of py_repr info) w) as Hrel.
    destruct (write_config s _ w) as [w' [e|u]]; cbn [fst] in *; [exact Hrel|].
    destruct (files w' !! config_file s); [|exact Hrel].
    destruct (load_fails s); [exact Hrel|].
    destruct (connect_fails s); [exact Hrel|].
    now destruct (run json_loads (turns s) _).
  - intros text. unfold execute.
    destruct (_fetch_pod_info json_loads (broker_body s)) as [e|info]; [intros []|].
    destruct (py_int _) as [e|n]; [intros []|].
    pose proof (L (profile_of py_repr info) w) as Hl.
    destruct (write_config s _ w) as [w' [e|u]]; [intros []|].
    rewrite Hl. destruct (load_fails s); [intros []|].
    destruct (connect_fails s).
    + cbn. intros [E|[]]. injection E as <-. now exists info.
    + pose proof (run_routes json_loads (turns s)
                    {| rlist := [Sock; Stdin];
                       trace := [EvLoadKubeConfig (profile_of py_repr info);
                                 EvConnect (task_name s) (namespace info)] |})
        as (new & E & _ & P).
      destruct (run json_loads (turns s) _) as [st' o]. cbn [fst snd trace] in *.
      rewrite E. intros Hin. exists info. split; [reflexivity|].
      destruct Hin as [Hin|[Hin|Hin]]; try discriminate.
      * injection Hin as <-. now split.
      * rewrite forallb_forall in P. specialize (P _ Hin). discriminate.
  - intros info n Hf Hi Ho Hw. unfold execute. rewrite Hf, Hi.
    pose proof (L (profile_of py_repr info) w) as Hl.
    unfold write_config in *. rewrite Ho, Hw in *. cbn in Hl |- *.
    rewrite Hl. destruct (load_fails s); [exact Hl|].
    destruct (connect_fails s); [exact Hl|].
    now destruct (run json_loads (turns s) _).
  - intros w2. unfold execute.
    destruct (_fetch_pod_info json_loads (broker_body s)) as [e|info]; [now split|].
    destruct (py_int _) as [e|n]; [now split|].
    pose proof (L (profile_of py_repr info) w) as Hl1.
    pose proof (L (profile_of py_repr info) w2) as Hl2.
    pose proof (R (profile_of py_repr info) w w2) as Hr.
    destruct (write_config s _ w) as [w1' [e1|u1]];
      destruct (write_config s _ w2) as [w2' [e2|u2]]; cbn [snd] in Hr;
      try discriminate.
    + injection Hr as ->. now split.
    + rewrite Hl1, Hl2. destruct (load_fails s); [now split|].
      destruct (connect_fails s); [now split|].
      now destruct (run json_loads (turns s) _).
  - intros path Hp. unfold execute.
    destruct (_fetch_pod_info json_loads (broker_body s)) as [e|info]; [reflexivity|].
    destruct (py_int _) as [e|n]; [reflexivity|].
    pose proof (F (profile_of py_repr info) path Hp) as Hf.
    destruct (write_config s _ w) as [w' [e|u]]; cbn [fst] in *; [exact Hf|].
    destruct (files w' !! config_file s); [|exact Hf].
    destruct (load_fails s); [exact Hf|].
    destruct (connect_fails s); [exact Hf|].
    now destruct (run json_loads (turns s) _).
  - unfold execute. intros [[e He]|[[e He]|Ho]].
    + now rewrite He.
    + destruct (_fetch_pod_info json_loads (broker_body s)); [reflexivity|].
      now rewrite He.
    + destruct (_fetch_pod_info json_loads (broker_body s)); [reflexivity|].
      destruct (py_int _); [reflexivity|].
      unfold write_config. now rewrite Ho.
Qed.

End CommandLine.

Section AccountId.

Variable json_loads : list byte -> option pyval.
Variable py_repr : pyval -> string.

(** C9. Two sessions that differ only in the account id derived from the
    token, each id one that [int] reads (below 10, where the [x] prefix is
    applied, or not), leave the same files, produce the same trace, the
    same profile in it, and end the same way, in [execute] and at the
    command line. *)
Theorem token_account_id_unused
  (s : session) (w : world) (a1 a2 : string) (n1 n2 : Z) :
  int_of_str a1 = Some n1 ->
  int_of_str a2 = Some n2 ->
  execute json_loads py_repr (with_account s a1) w
  = execute json_loads py_repr (with_account s a2) w
  /\ main.execute json_loads py_repr (with_account s a1) w
     = main.execute json_loads py_repr (with_account s a2) w.
Proof.
  intros H1 H2.
  assert (E : execute json_loads py_repr (with_account s a1) w
              = execute json_loads py_repr (with_account s a2) w).
  { unfold execute, with_account, write_config, config_file, py_int.
    cbn [broker_body token_account_id open_fails write_fails load_fails
         connect_fails turns task_name cwd].
    now rewrite H1, H2. }
  split; [exact E|]. unfold main.execute. rewrite E. reflexivity.
Qed.

End AccountId.

(** ** Concrete sessions *)

Lemma fetch_complete :
  _fetch_pod_info json_loads_ascii body_complete = inr info_complete.
Proof. vm_compute. reflexivity. Qed.

Lemma exec_exit_status_witness :
  snd (main.execute json_loads_ascii no_repr
         (session_of [status_turn status_success]) empty_world) = Some 0
  /\ snd (main.execute json_loads_ascii no_repr
            (session_of [bad_channel_turn]) empty_world) = Some 1
  /\ snd (main.execute json_loads_ascii no_repr
            (session_of [broken_turn]) empty_world) = Some 0.
Proof.
  assert (L : forall last o,
             body json_loads_ascii last
               (connected no_repr (session_of [last]) info_complete)
             = (fst (body json_loads_ascii last
                       (connected no_repr (session_of [last]) info_complete)),
                inl o) ->
             snd (execute json_loads_ascii no_repr (session_of [last]) empty_world)
             = Some o).
  { intros last o Hlast.
    exact (proj1 (exec_exit_status json_loads_ascii no_repr
                    (session_of [last]) empty_world)
             info_complete 5 [] last [] _ _ o
             fetch_complete eq_refl eq_refl eq_refl eq_refl eq_refl eq_refl
             eq_refl Hlast). }
  split; [|split].
  - apply (exec_exit_status json_loads_ascii no_repr
             (session_of [status_turn status_success]) empty_world).
    apply L. vm_compute. reflexivity.
  - apply (exec_exit_status json_loads_ascii no_repr
             (session_of [bad_channel_turn]) empty_world).
    apply L. vm_compute. reflexivity.
  - apply (proj2 (proj2 (proj2 (exec_exit_status json_loads_ascii no_repr
                                  (session_of [broken_turn]) empty_world)))
             WebSocketException).
    apply L. vm_compute. reflexivity.
Defined.

(** A session whose transport fails under [recv_data_frame]: [execute]
    raises, the command reports it and the process exits with status 0,
    not 1. *)
Lemma transport_error_exits_zero :
  snd (execute json_loads_ascii no_repr (session_of [broken_turn]) empty_world)
  = Some (Raise WebSocketException)
  /\ snd (main.execute json_loads_ascii no_repr (session_of [broken_turn]) empty_world)
     = Some 0
  /\ snd (main.execute json_loads_ascii no_repr (session_of [broken_turn]) empty_world)
     <> Some 1.
Proof.
  assert (E : snd (main.execute json_loads_ascii no_repr
                     (session_of [broken_turn]) empty_world) = Some 0)
    by (vm_compute; reflexivity).
  split; [vm_compute; reflexivity|]. split; [exact E|].
  rewrite E. discriminate.
Qed.

(** A session whose remote process exits with code 17: [execute] returns
    17, the command does not use the value and the process exits with
    status 0. *)
Lemma remote_exit_code_not_propagated :
  snd (execute json_loads_ascii no_repr
         (session_of [status_turn status_exit_17]) empty_world)
  = Some (Return 17)
  /\ snd (main.execute json_loads_ascii no_repr
            (session_of [status_turn status_exit_17]) empty_world)
     = Some 0.
Proof. split; vm_compute; reflexivity. Qed.

Lemma config_file_scoped_and_overwritten_witness :
  files world_after_first !! config_file first_session
  = Some (profile_of no_repr info_complete)
  /\ files (fst (fst (execute json_loads_ascii no_repr later_session
                        world_after_first)))
       !! config_file later_session
     = Some (profile_of no_repr info_later)
  /\ In (EvLoadKubeConfig (profile_of no_repr info_later))
       (snd (fst (execute json_loads_ascii no_repr later_session
                    world_after_first))).
Proof.
  assert (F : _fetch_pod_info json_loads_ascii body_later = inr info_later)
    by (vm_compute; reflexivity).
  split; [|split].
  - exact (proj1 (proj2 (proj2 (proj2
             (config_file_scoped_and_overwritten json_loads_ascii no_repr
                first_session empty_world))))
             info_complete 5 fetch_complete eq_refl eq_refl eq_refl).
  - exact (proj1 (proj2 (proj2 (proj2
             (config_file_scoped_and_overwritten json_loads_ascii no_repr
                later_session world_after_first))))
             info_later 1234 F eq_refl eq_refl eq_refl).
  - vm_compute. left. reflexivity.
Defined.

(** The profile of a session outlives it.  After a session whose remote
    process has exited, the file holds the profile, secrets included; a
    next run in the same directory that the broker refuses leaves it as
    it is, and so does a next run that goes well in another directory:
    the file is neither removed nor overwritten by the next run. *)
Lemma profile_left_behind_by_next_run :
  snd (execute json_loads_ascii no_repr first_session empty_world)
  = Some (Return 17)
  /\ files world_after_first !! config_file first_session
     = Some (profile_of no_repr info_complete)
  /\ files (fst (fst (execute json_loads_ascii no_repr refused_session
                        world_after_first))) !! config_file first_session
     = Some (profile_of no_repr info_complete)
  /\ files (fst (fst (execute json_loads_ascii no_repr elsewhere_session
                        world_after_first))) !! config_file first_session
     = Some (profile_of no_repr info_complete).
Proof. repeat split; vm_compute; reflexivity. Qed.

Lemma token_account_id_unused_witness :
  int_of_str "5" = Some 5
  /\ int_of_str "1234" = Some 1234
  /\ execute json_loads_ascii no_repr
       (with_account (session_of [status_turn status_exit_17]) "5") empty_world
     = execute json_loads_ascii no_repr
         (with_account (session_of [status_turn status_exit_17]) "1234") empty_world.
Proof.
  split; [reflexivity|]. split; [reflexivity|].
  exact (proj1 (token_account_id_unused json_loads_ascii no_repr
                  (session_of [status_turn status_exit_17]) empty_world
                  "5" "1234" 5 1234 eq_refl eq_refl)).
Defined.

Lemma frames_routed_in_receipt_order_witness :
  writes (trace (fst (run json_loads_ascii
                        [frame_turn OPCODE_BINARY (x01 :: bytes_of "out");
                         frame_turn OPCODE_BINARY [x01];
                         frame_turn OPCODE_BINARY (x02 :: bytes_of "err");
                         frame_turn OPCODE_BINARY (x01 :: bytes_of "more");
                         status_turn status_success;
                         frame_turn OPCODE_BINARY (x01 :: bytes_of "late")]
                        pump0)))
  = [(Stdout, bytes_of "out"); (Stderr, bytes_of "err"); (Stdout, bytes_of "more")].
Proof.
  pose proof (frames_routed_in_receipt_order json_loads_ascii
                [frame_turn OPCODE_BINARY (x01 :: bytes_of "out");
                 frame_turn OPCODE_BINARY [x01];
                 frame_turn OPCODE_BINARY (x02 :: bytes_of "err");
                 frame_turn OPCODE_BINARY (x01 :: bytes_of "more");
                 status_turn status_success;
                 frame_turn OPCODE_BINARY (x01 :: bytes_of "late")]
                [Sock; Stdin]) as [H _].
  cbv zeta in H. fold pump0 in H. rewrite H. vm_compute. reflexivity.
Defined.

(** * Further properties *)

(** ** Steps by the events they add *)

Lemma adds_ret (P : event -> bool) {A} (a : A) : adds P (ret a).
Proof. intros [rl tr]. exists []. simpl. now rewrite app_nil_r. Qed.

Lemma adds_finish (P : event -> bool) {A} (o : outcome) : adds P (@finish A o).
Proof. intros [rl tr]. exists []. simpl. now rewrite app_nil_r. Qed.

Lemma adds_lift (P : event -> bool) {A} (r : exn + A) : adds P (lift r).
Proof. destruct r; [apply adds_finish | apply adds_ret]. Qed.

Lemma adds_emit (P : event -> bool) (e : event) : P e = true -> adds P (emit e).
Proof. intros He st. exists [e]. simpl. now rewrite He. Qed.

Lemma adds_bind (P : event -> bool) {A B} (m : M A) (k : A -> M B) :
  adds P m -> (forall a, adds P (k a)) -> adds P (bind m k).
Proof.
  intros Hm Hk st. unfold bind.
  destruct (Hm st) as (new1 & E1 & N1).
  destruct (m st) as [st1 [o|a]]; simpl in E1; subst st1.
  - exists new1. now split.
  - destruct (Hk a {| rlist := rlist st; trace := trace st ++ new1 |})
      as (new2 & E2 & N2).
    exists (new1 ++ new2). simpl in E2. rewrite E2, app_assoc. split; [easy|].
    rewrite forallb_app, N1, N2. reflexivity.
Qed.

Lemma emit_then_adds (P : event -> bool) {A} (e : event) (k : unit -> M A) :
  adds P (k tt) ->
  forall st, exists new,
    fst (bind (emit e) k st)
    = {| rlist := rlist st; trace := trace st ++ e :: new |}
    /\ forallb P new = true.
Proof.
  intros Hk st. unfold bind, emit.
  destruct (Hk {| rlist := rlist st; trace := trace st ++ [e] |})
    as (new & E & N).
  exists new. cbn [rlist trace] in E. rewrite E, <- app_assoc. now split.
Qed.

Lemma prints_only (new : list event) :
  forallb is_print new = true ->
  sends new = [] /\ received new = [] /\ writes new = [] /\ closes new = [].
Proof.
  induction new as [|e new IH]; simpl; [easy|].
  intros H. apply andb_prop in H as [He Hn]. destruct (IH Hn) as (S & R & W & C).
  unfold sends, received, writes, closes in *.
  destruct e; simpl in *; try discriminate; now rewrite ?S, ?R, ?W, ?C.
Qed.

Lemma remove_first_absent (d : desc) (l : list desc) :
  mem d l = false -> remove_first d l = l.
Proof.
  induction l as [|x l IH]; simpl; [reflexivity|].
  destruct (desc_eqb d x); simpl; [discriminate|]. intros H. now rewrite IH.
Qed.

Lemma mem_remove_first_other (l : list desc) :
  mem Stdin (remove_first Sock l) = mem Stdin l.
Proof.
  induction l as [|x l IH]; simpl; [reflexivity|].
  destruct x; simpl; [reflexivity|]. reflexivity.
Qed.

Section PumpSteps.

Variable json_loads : list byte -> option pyval.

Lemma prints_scan_causes (causes : list pyval) : adds is_print (scan_causes causes).
Proof.
  induction causes as [|cause rest IH]; simpl; [apply adds_ret|].
  apply adds_bind; [apply adds_lift|]. intros reason.
  destruct (py_eq_str reason "ExitCode"); [|exact IH].
  repeat (apply adds_bind; [apply adds_lift|]; intros ?).
  apply adds_finish.
Qed.

(** The status branch closes the socket once, first, and then only
    prints. *)
Lemma decode_status_events (data : list byte) (st : pump) :
  exists new,
    fst (decode_status json_loads data st)
    = {| rlist := rlist st; trace := trace st ++ EvClose :: new |}
    /\ forallb is_print new = true.
Proof.
  revert st. unfold decode_status. apply emit_then_adds.
  apply adds_bind; [apply adds_lift|]. intros error.
  apply adds_bind; [apply adds_lift|]. intros status.
  destruct (py_eq_str status "Success"); [apply adds_finish|].
  apply adds_bind; [apply adds_lift|]. intros reason.
  apply adds_bind.
  - destruct (py_eq_str reason "NonZeroExitCode"); [|apply adds_ret].
    repeat (apply adds_bind; [apply adds_lift|]; intros ?).
    apply prints_scan_causes.
  - intros _.
    repeat (apply adds_bind;
            [first [apply adds_lift | now apply adds_emit]|]; intros ?).
    apply adds_finish.
Qed.

Lemma prints_unexpected_channel (channel : Z) (data : list byte) :
  adds is_print (unexpected_channel channel data).
Proof.
  unfold unexpected_channel.
  repeat (apply adds_bind; [now apply adds_emit|]; intros ?). apply adds_finish.
Qed.

Lemma prints_unexpected_opcode (opcode : Z) :
  adds is_print (unexpected_opcode opcode).
Proof.
  unfold unexpected_opcode.
  repeat (apply adds_bind; [now apply adds_emit|]; intros ?). apply adds_finish.
Qed.

(** What the handling of one received frame does to the pump. *)
Lemma handle_frame_step (opcode : Z) (frame : list byte) (st : pump) :
  exists new,
    fst (handle_frame json_loads opcode frame st)
    = {| rlist := if opcode =? OPCODE_CLOSE
                  then remove_first Sock (rlist st) else rlist st;
         trace := trace st ++ new |}
    /\ sends new = [] /\ received new = []
    /\ closes new = (if is_status_frame (opcode, frame) then [EvClose] else [])
    /\ (is_status_frame (opcode, frame) = true ->
        exists o, snd (handle_frame json_loads opcode frame st) = inl o).
Proof.
  assert (Q : forall (m : M unit), adds is_print m ->
            exists new,
              fst (m st) = {| rlist := rlist st; trace := trace st ++ new |}
              /\ sends new = [] /\ received new = [] /\ closes new = []).
  { intros m Hm. destruct (Hm st) as (new & E & N). exists new.
    split; [exact E|]. destruct (prints_only new N) as (S & R & _ & C). auto. }
  unfold handle_frame, is_status_frame.
  destruct (opcode =? OPCODE_CLOSE) eqn:Hc.
  - apply Z.eqb_eq in Hc. subst opcode. exists []. rewrite app_nil_r.
    unfold rlist_remove. destruct (mem Sock (rlist st)) eqn:Hm; simpl.
    + now destruct frame.
    + rewrite (remove_first_absent _ _ Hm). destruct st, frame; simpl; easy.
  - destruct (opcode =? OPCODE_BINARY) eqn:Hb.
    + destruct frame as [|c data].
      { exists []. simpl. rewrite app_nil_r. now destruct st. }
      unfold STDOUT_CHANNEL, STDERR_CHANNEL, ERROR_CHANNEL. cbn [andb].
      destruct (channel_of c =? 1) eqn:H1.
      { apply Z.eqb_eq in H1. rewrite H1. cbn.
        destruct data as [|d data]; simpl.
        - exists []. rewrite app_nil_r. now destruct st.
        - now exists [EvWrite Stdout (d :: data)]. }
      destruct (channel_of c =? 2) eqn:H2.
      { apply Z.eqb_eq in H2. rewrite H2. cbn.
        destruct data as [|d data]; simpl.
        - exists []. rewrite app_nil_r. now destruct st.
        - now exists [EvWrite Stderr (d :: data)]. }
      cbn [orb].
      destruct (channel_of c =? 3) eqn:H3.
      * destruct (decode_status_events data st) as (new & E & N).
        exists (EvClose :: new). split; [exact E|].
        destruct (prints_only new N) as (S & R & _ & C).
        unfold sends, received, closes in *.
        cbn [omap list_omap send_of recv_of List.filter is_close].
        rewrite S, R, C. repeat split. intros _.
        destruct (ends_decode_status json_loads data st) as (st' & o & Ho).
        exists o. now rewrite Ho.
      * destruct (Q _ (prints_unexpected_channel (channel_of c) data))
          as (new & E & S & R & C).
        exists new. rewrite E, S, R, C. repeat split. discriminate.
    + destruct (Q _ (prints_unexpected_opcode opcode)) as (new & E & S & R & C).
      exists new. rewrite E, S, R, C. destruct frame; repeat split; discriminate.
Qed.

(** What one turn does to the pump: the list of descriptors loses at
    most the socket, the frames sent are the one the local half
    forwards, and the socket is closed exactly when a status frame was
    received. *)
Lemma body_step (i : iteration) (st : pump) :
  exists new,
    trace (fst (body json_loads i st)) = trace st ++ new
    /\ (rlist (fst (body json_loads i st)) = rlist st
        \/ rlist (fst (body json_loads i st)) = remove_first Sock (rlist st))
    /\ sends new = sends (forwarded i st)
    /\ closes new = map (fun _ => EvClose) (List.filter is_status_frame (received new))
    /\ (closes new <> [] -> exists o, snd (body json_loads i st) = inl o)
    /\ (length (closes new) <= 1)%nat.
Proof.
  rewrite body_eq. unfold receive.
  assert (F : received (forwarded i st) = [] /\ closes (forwarded i st) = []).
  { unfold forwarded. destruct (stdin_ready i && mem Stdin (rlist st)); [|easy].
    now destruct (os_read _ _). }
  destruct F as [FR FC].
  destruct (mem Sock _).
  - destruct (sock_recv i) as [e|[opcode frame]]; simpl.
    + exists (forwarded i st). rewrite FR, FC. cbn. repeat split; auto.
      now intros [].
    + unfold bind. simpl.
      destruct (handle_frame_step opcode frame
                  {| rlist := rlist st;
                     trace := (trace st ++ forwarded i st) ++ [EvRecv opcode frame] |})
        as (new & E & S & R & C & D).
      destruct (handle_frame json_loads opcode frame _) as [st' r].
      cbn [fst snd rlist trace] in *. subst st'. cbn [rlist trace].
      exists (forwarded i st ++ EvRecv opcode frame :: new).
      split; [now rewrite <- !app_assoc|].
      split; [destruct (opcode =? OPCODE_CLOSE); auto|].
      unfold sends, received, closes in *.
      rewrite !omap_app, !List.filter_app. cbn [omap list_omap send_of recv_of].
      rewrite S, R, FR, FC. cbn [List.filter is_close app].
      split; [now rewrite app_nil_r|]. rewrite C. cbn [List.filter app].
      destruct (is_status_frame (opcode, frame)) eqn:Hs.
      * split; [reflexivity|]. split; [|cbn; lia]. intros _. now apply D.
      * split; [reflexivity|]. split; [|cbn; lia]. now intros [].
  - exists (forwarded i st). simpl. rewrite FR, FC. cbn. repeat split; auto.
    now intros [].
Qed.

End PumpSteps.

#[local] Transparent os_read.

Lemma os_read_length (n : Z) (avail : list byte) :
  0 <= n -> Z.of_nat (length (os_read n avail)) <= n.
Proof.
  intros Hn. unfold os_read.
  pose proof (firstn_le_length (Z.to_nat n) avail) as H.
  rewrite length_firstn. lia.
Qed.

#[local] Opaque os_read.

Lemma forwarded_chunk (i : iteration) (st : pump) :
  mem Stdin (rlist st) = true ->
  forwarded i st = match chunk i with
                   | Some frame => [EvSend frame]
                   | None => []
                   end.
Proof.
  intros Hm. unfold forwarded, chunk. rewrite Hm, andb_true_r.
  destruct (stdin_ready i); [|reflexivity].
  now destruct (os_read _ _).
Qed.

Lemma sends_forwarded (i : iteration) (st : pump) :
  mem Stdin (rlist st) = true ->
  sends (forwarded i st) = match chunk i with
                           | Some frame => [frame]
                           | None => []
                           end.
Proof.
  intros Hm. unfold forwarded, chunk. rewrite Hm, andb_true_r.
  destruct (stdin_ready i); [|reflexivity].
  now destruct (os_read _ _).
Qed.

Section PumpExtras.

Variable json_loads : list byte -> option pyval.

(** A turn of a pump that no longer polls the socket only forwards. *)
Lemma body_without_socket (i : iteration) (st : pump) :
  mem Sock (rlist st) = false ->
  body json_loads i st
  = ({| rlist := rlist st; trace := trace st ++ forwarded i st |}, inr tt).
Proof.
  intros Hm. rewrite body_eq. unfold receive.
  now rewrite mem_filter_ready, Hm, andb_false_r.
Qed.

(** Bytes read from the local input reach the remote side in the order
    read: the frames a run sends are, in order, the frames of the turns it
    went through, each the channel byte 0 before a chunk of one to 32768
    bytes, the bytes [os.read] returned; and a run that is still in the
    loop went through all its turns. *)
Theorem local_input_forwarded_in_order (its : list iteration) (st : pump) :
  mem Stdin (rlist st) = true ->
  sends (trace (fst (run json_loads its st)))
  = sends (trace st) ++ omap chunk (firstn (turns_taken json_loads its st) its)
  /\ (snd (run json_loads its st) = None ->
      turns_taken json_loads its st = length its)
  /\ (forall i frame,
        chunk i = Some frame ->
        exists data,
          frame = x00 :: data
          /\ data = os_read (32 * 1024) (stdin_data i)
          /\ 1 <= Z.of_nat (length data) <= 32 * 1024).
Proof.
  intros Hm. split; [|split].
  - revert st Hm. induction its as [|i its IH]; intros st Hm; simpl.
    + now rewrite app_nil_r.
    + destruct (body_step json_loads i st) as (new & E & Hrl & S & _).
      rewrite (sends_forwarded i st Hm) in S.
      destruct (body json_loads i st) as [st1 [o|u]]; cbn [fst] in *.
      * cbn [firstn omap list_omap]. rewrite E. unfold sends in *.
        rewrite omap_app, S. now destruct (chunk i).
      * assert (Hm1 : mem Stdin (rlist st1) = true).
        { destruct Hrl as [-> | ->]; [exact Hm|].
          now rewrite mem_remove_first_other. }
        rewrite (IH st1 Hm1), E. unfold sends in *.
        rewrite omap_app, S, <- app_assoc. cbn [firstn omap list_omap].
        now destruct (chunk i).
  - revert st Hm. induction its as [|i its IH]; intros st Hm; simpl; [reflexivity|].
    destruct (body_step json_loads i st) as (new & E & Hrl & _).
    destruct (body json_loads i st) as [st1 [o|u]]; cbn [fst snd] in *;
      [discriminate|].
    intros Hn. f_equal. apply IH; [|exact Hn].
    destruct Hrl as [-> | ->]; [exact Hm|]. now rewrite mem_remove_first_other.
  - intros i frame. unfold chunk. destruct (stdin_ready i); [|discriminate].
    pose proof (os_read_length (32 * 1024) (stdin_data i)) as Hlen.
    destruct (os_read (32 * 1024) (stdin_data i)) as [|d data] eqn:Hr;
      [discriminate|].
    intros E. injection E as <-. exists (d :: data).
    split; [reflexivity|]. split; [reflexivity|].
    cbn [length] in *. lia.
Qed.

End PumpExtras.

Section PumpInvariants.

Variable json_loads : list byte -> option pyval.

Lemma run_closes (its : list iteration) (st : pump) :
  exists new,
    trace (fst (run json_loads its st)) = trace st ++ new
    /\ closes new
       = map (fun _ => EvClose) (List.filter is_status_frame (received new))
    /\ (length (closes new) <= 1)%nat
    /\ (closes new <> [] -> snd (run json_loads its st) <> None).
Proof.
  revert st. induction its as [|i its IH]; intros st; simpl.
  - exists []. rewrite app_nil_r. cbn. repeat split; auto; try congruence.
  - destruct (body_step json_loads i st) as (new1 & E1 & _ & _ & C1 & D1 & L1).
    destruct (body json_loads i st) as [st1 [o|u]]; cbn [fst snd] in *.
    + exists new1. repeat split; auto; try discriminate.
    + assert (N1 : closes new1 = []).
      { destruct (closes new1) as [|e l]; [reflexivity|].
        destruct D1 as (o & Ho); discriminate. }
      destruct (IH st1) as (new2 & E2 & C2 & L2 & D2).
      exists (new1 ++ new2). rewrite E2, E1, app_assoc. split; [reflexivity|].
      rewrite N1 in C1. unfold closes, received in *.
      rewrite !List.filter_app, omap_app, List.filter_app, map_app, N1, <- C1, C2.
      cbn [app]. rewrite <- C2. repeat split; auto.
Qed.

(** The socket is closed exactly when a status frame has been received:
    never on a close opcode, an output frame or a protocol violation, at
    most once in a run, and a run that closed it has left the loop. *)
Theorem socket_closed_on_status_frame_only (its : list iteration) (rl : list desc) :
  closes (trace (fst (run json_loads its {| rlist := rl; trace := [] |})))
  = map (fun _ => EvClose)
      (List.filter is_status_frame
         (received (trace (fst (run json_loads its {| rlist := rl; trace := [] |})))))
  /\ (length (closes (trace (fst (run json_loads its
                                    {| rlist := rl; trace := [] |})))) <= 1)%nat
  /\ (closes (trace (fst (run json_loads its {| rlist := rl; trace := [] |}))) <> [] ->
      snd (run json_loads its {| rlist := rl; trace := [] |}) <> None).
Proof.
  destruct (run_closes its {| rlist := rl; trace := [] |}) as (new & E & C & L & D).
  cbn [trace app] in E. rewrite E. auto.
Qed.

(** The pump never adds a descriptor and never stops polling the local
    input: started on the socket and the local input, it polls both or,
    once a close frame has come, the local input alone. *)
Theorem rlist_only_loses_socket (its : list iteration) (st : pump) :
  rlist st = [Sock; Stdin] ->
  rlist (fst (run json_loads its st)) = [Sock; Stdin]
  \/ rlist (fst (run json_loads its st)) = [Stdin].
Proof.
  assert (G : forall its st,
             rlist st = [Sock; Stdin] \/ rlist st = [Stdin] ->
             rlist (fst (run json_loads its st)) = [Sock; Stdin]
             \/ rlist (fst (run json_loads its st)) = [Stdin]).
  { clear its st. induction its as [|i its IH]; intros st H; simpl; [exact H|].
    destruct (body_step json_loads i st) as (new & _ & Hrl & _).
    assert (H1 : rlist (fst (body json_loads i st)) = [Sock; Stdin]
                 \/ rlist (fst (body json_loads i st)) = [Stdin]).
    { destruct Hrl as [-> | ->]; [exact H|].
      destruct H as [-> | ->]; simpl; auto. }
    destruct (body json_loads i st) as [st1 [o|u]]; cbn [fst] in *; [exact H1|].
    now apply IH. }
  intros H. apply G. now left.
Qed.

(** After a close frame the pump no longer polls the socket: it receives
    no further frame, writes nothing more and closes nothing, whatever
    turns follow, and turns that read no byte from the local input leave
    it as it is, still in the loop. *)
Theorem remote_close_stops_receiving
  (i : iteration) (st : pump) (frame : list byte) (later : list iteration) :
  rlist st = [Sock; Stdin] ->
  sock_ready i = true ->
  sock_recv i = inr (OPCODE_CLOSE, frame) ->
  let st1 := {| rlist := [Stdin];
                trace := trace st ++ forwarded i st ++ [EvRecv OPCODE_CLOSE frame] |} in
  body json_loads i st = (st1, inr tt)
  /\ received (trace (fst (run json_loads later st1))) = received (trace st1)
  /\ writes (trace (fst (run json_loads later st1))) = writes (trace st1)
  /\ closes (trace (fst (run json_loads later st1))) = closes (trace st1)
  /\ (forallb (fun t => match chunk t with Some _ => false | None => true end) later
      = true ->
      run json_loads later st1 = (st1, None)).
Proof.
  intros Hrl Hready Hrecv st1.
  assert (Hbody : body json_loads i st = (st1, inr tt)).
  { rewrite body_eq. unfold receive.
    rewrite mem_filter_ready. simpl. rewrite Hready, Hrl, Hrecv. simpl.
    unfold bind, emit, handle_frame, rlist_remove. simpl.
    subst st1. now rewrite <- app_assoc. }
  assert (G : forall later tr,
             run json_loads later {| rlist := [Stdin]; trace := tr |}
             = ({| rlist := [Stdin];
                   trace := tr ++ map EvSend (omap chunk later) |}, None)).
  { clear. induction later as [|t later IH]; intros tr; simpl.
    - now rewrite app_nil_r.
    - rewrite (body_without_socket json_loads t
                 {| rlist := [Stdin]; trace := tr |} eq_refl).
      cbn [rlist trace]. rewrite IH, <- app_assoc.
      rewrite (forwarded_chunk t {| rlist := [Stdin]; trace := tr |} eq_refl).
      now destruct (chunk t). }
  assert (Q : forall fs, received (map EvSend fs) = []
                         /\ writes (map EvSend fs) = []
                         /\ closes (map EvSend fs) = []).
  { induction fs as [|f fs IH]; [easy|]. exact IH. }
  split; [exact Hbody|].
  change st1 with {| rlist := [Stdin]; trace := trace st1 |}.
  rewrite G. cbn [fst trace].
  destruct (Q (omap chunk later)) as (R & W & C).
  unfold received, writes, closes in *.
  rewrite !omap_app, List.filter_app, R, W, C, !app_nil_r.
  repeat split.
  intros Hnone.
  assert (Hnew : omap chunk later = []).
  { clear -Hnone. induction later as [|t later IH]; [reflexivity|].
    cbn in Hnone. apply andb_prop in Hnone as [Ht Hl]. cbn [omap list_omap].
    destruct (chunk t); [discriminate|]. now apply IH. }
  rewrite Hnew. cbn [map]. now rewrite app_nil_r.
Qed.

End PumpInvariants.

Section StatusEdges.

Variable json_loads : list byte -> option pyval.

Lemma scan_causes_raises
  (skipped rest : list pyval) (cause reason : pyval) (e : exn) (st : pump) :
  forallb passed_over skipped = true ->
  py_getitem cause "reason" = inr reason ->
  py_eq_str reason "ExitCode" = true ->
  (message <~ py_getitem cause "message" ;; py_int message) = inl e ->
  scan_causes (skipped ++ cause :: rest) st = (st, inl (Raise e)).
Proof.
  intros Hs Hr He Hm.
  induction skipped as [|x skipped IH]; simpl.
  - unfold bind. rewrite Hr. simpl. rewrite He. unfold and_then in Hm.
    destruct (py_getitem cause "message") as [e'|message]; simpl.
    + now injection Hm as ->.
    + now rewrite Hm.
  - simpl in Hs. apply andb_prop in Hs as [Hx Hs]. unfold passed_over in Hx.
    unfold bind. destruct (py_getitem x "reason") as [e'|r]; [discriminate|].
    simpl. apply negb_true_iff in Hx. rewrite Hx. now apply IH.
Qed.

(** A status frame whose payload is not what the pump expects ends the
    loop in an exception, after the socket has been closed and with
    nothing printed: the decoder's error when the payload is not JSON,
    [TypeError] when it decodes to anything but an object, [KeyError] when
    the object has no ["status"] key. *)
Theorem status_payload_unexpected
  (i : iteration) (st : pump) (c : byte) (data : list byte) :
  mem Sock (rlist st) = true ->
  sock_ready i = true ->
  sock_recv i = inr (OPCODE_BINARY, c :: data) ->
  channel_of c = ERROR_CHANNEL ->
  (json_loads data = None ->
   body json_loads i st
   = (status_received i st (c :: data), inl (Raise JSONDecodeError)))
  /\ (forall error,
        json_loads data = Some error ->
        (forall d, error <> PDict d) ->
        body json_loads i st
        = (status_received i st (c :: data), inl (Raise TypeError)))
  /\ (forall d,
        json_loads data = Some (PDict d) ->
        dict_get d "status" = None ->
        body json_loads i st
        = (status_received i st (c :: data), inl (Raise (KeyError "status")))).
Proof.
  intros Hmem Hready Hrecv Hc.
  rewrite (status_turn_eq json_loads i st c data Hmem Hready Hrecv Hc).
  unfold decode_status, status_received, bind, emit. cbn [rlist trace].
  rewrite <- !app_assoc. cbn [app].
  split; [|split].
  - intros ->. reflexivity.
  - intros error -> Hnd. cbn [lift ret].
    destruct error as [| | | | |d]; try reflexivity. now destruct (Hnd d).
  - intros d -> Hs. cbn [lift ret py_getitem]. now rewrite Hs.
Qed.

(** The first cause of reason ["ExitCode"] decides: when it has no
    ["message"] key, or a message [int] does not read, the pump raises
    that [KeyError], [ValueError] or [TypeError]; it looks at no later
    cause and prints no diagnostic. *)
Theorem exit_code_unreadable
  (i : iteration) (st : pump) (c : byte) (data : list byte)
  (error status reason details causes cause creason : pyval)
  (skipped rest : list pyval) (e : exn) :
  mem Sock (rlist st) = true ->
  sock_ready i = true ->
  sock_recv i = inr (OPCODE_BINARY, c :: data) ->
  channel_of c = ERROR_CHANNEL ->
  json_loads data = Some error ->
  py_getitem error "status" = inr status ->
  py_eq_str status "Success" = false ->
  py_getitem error "reason" = inr reason ->
  py_eq_str reason "NonZeroExitCode" = true ->
  py_getitem error "details" = inr details ->
  py_getitem details "causes" = inr causes ->
  py_iter causes = inr (skipped ++ cause :: rest) ->
  forallb passed_over skipped = true ->
  py_getitem cause "reason" = inr creason ->
  py_eq_str creason "ExitCode" = true ->
  (message <~ py_getitem cause "message" ;; py_int message) = inl e ->
  body json_loads i st = (status_received i st (c :: data), inl (Raise e)).
Proof.
  intros Hmem Hready Hrecv Hc Hload Hst Hne Hr Hnz Hd Hcs Hit Hs Hcr Hce Hm.
  rewrite (status_turn_eq json_loads i st c data Hmem Hready Hrecv Hc).
  unfold decode_status, status_received, bind, emit. cbn [rlist trace].
  rewrite Hload. cbn [lift ret]. rewrite Hst. cbn [lift ret]. rewrite Hne, Hr.
  cbn [lift ret]. rewrite Hnz, Hd. cbn [lift ret]. rewrite Hcs. cbn [lift ret].
  rewrite Hit. cbn [lift ret].
  rewrite (scan_causes_raises skipped rest cause creason e _ Hs Hcr Hce Hm).
  now rewrite <- !app_assoc.
Qed.

(** A binary frame without a single byte makes the pump raise
    [IndexError], the frame received and nothing else done. *)
Theorem empty_binary_frame_raises (i : iteration) (st : pump) :
  mem Sock (rlist st) = true ->
  sock_ready i = true ->
  sock_recv i = inr (OPCODE_BINARY, []) ->
  body json_loads i st
  = ({| rlist := rlist st;
        trace := trace st ++ forwarded i st ++ [EvRecv OPCODE_BINARY []] |},
     inl (Raise IndexError)).
Proof.
  intros Hmem Hready Hrecv. rewrite body_eq. unfold receive.
  rewrite mem_filter_ready. simpl. rewrite Hready, Hmem, Hrecv. simpl.
  unfold bind, emit, handle_frame, finish. simpl. now rewrite <- app_assoc.
Qed.

End StatusEdges.

(** ** More on the rendered profile *)

Lemma split_nl_cons (s : string) : exists l ls, split_nl s = l :: ls.
Proof.
  induction s as [|c s IH]; simpl; [now exists EmptyString, []|].
  destruct (Ascii.eqb c newline); [now eexists _, _|].
  destruct IH as (l & ls & ->). now eexists _, _.
Qed.

Lemma split_nl_lines_no_nl (s : string) : forallb no_nl (split_nl s) = true.
Proof.
  induction s as [|c s IH]; simpl; [reflexivity|].
  destruct (Ascii.eqb c newline) eqn:Hc; simpl; [exact IH|].
  destruct (split_nl s) as [|l ls]; simpl in *; [now rewrite Hc|].
  now rewrite Hc.
Qed.

Lemma join_nl_split_nl (s : string) : join_nl (split_nl s) = s.
Proof.
  induction s as [|c s IH]; simpl; [reflexivity|].
  destruct (Ascii.eqb c newline) eqn:Hc.
  - apply Ascii.eqb_eq in Hc. subst c.
    destruct (split_nl_cons s) as (l & ls & E). rewrite E in *.
    change (join_nl (EmptyString :: l :: ls)) with (nl +:+ join_nl (l :: ls)).
    now rewrite IH.
  - destruct (split_nl_cons s) as (l & ls & E). rewrite E in *.
    destruct ls as [|l' ls]; simpl in *; now rewrite <- IH.
Qed.

Lemma normalize_line_no_nl (l : string) :
  no_nl l = true -> no_nl (normalize_line l) = true.
Proof. intros H. unfold normalize_line. now destruct (all_blank l). Qed.

(** A text that starts with a character other than a space, a tab or a
    line break has no margin to remove. *)
Lemma dedent_no_margin (c : ascii) (t : string) :
  is_blank c = false ->
  Ascii.eqb c newline = false ->
  dedent (String c t) = join_nl (map normalize_line (split_nl (String c t))).
Proof.
  intros Hb Hn.
  pose proof (split_nl_lines_no_nl (String c t)) as Hnl.
  pose proof (join_nl_split_nl (String c t)) as Hj.
  assert (Hs : exists l ls, split_nl (String c t) = String c l :: ls).
  { simpl. rewrite Hn. destruct (split_nl_cons t) as (l & ls & ->).
    now eexists _, _. }
  destruct Hs as (l & ls & Hs). rewrite Hs in *.
  rewrite <- Hj at 1. apply (dedent_flush_left c l ls Hb Hnl).
Qed.

(** For every input, line breaks included, the profile is the filled
    f-string with its lines made only of spaces and tabs emptied: no
    margin is removed, no other line is touched and no line is added or
    dropped. *)
Theorem kubeconfig_changes_blank_lines_only
  (cert ep acct ak sk tok : string) :
  split_nl (_construct_kubeconfig cert ep acct ak sk tok)
  = map normalize_line
      (split_nl (join_nl (kubeconfig_lines cert ep acct ak sk tok)))
  /\ (forall l, normalize_line l = l \/ (normalize_line l = EmptyString
                                         /\ all_blank l = true)).
Proof.
  split.
  - unfold _construct_kubeconfig.
    change (join_nl (kubeconfig_lines cert ep acct ak sk tok))
      with (String "a" ("piVersion: v1" +:+ nl
                        +:+ join_nl (tl (kubeconfig_lines cert ep acct ak sk tok)))).
    rewrite dedent_no_margin by reflexivity.
    generalize (String "a" ("piVersion: v1" +:+ nl
                  +:+ join_nl (tl (kubeconfig_lines cert ep acct ak sk tok)))).
    intros text.
    pose proof (split_nl_lines_no_nl text) as Hnl.
    destruct (split_nl_cons text) as (l & ls & E). rewrite E in *.
    cbn [map]. apply split_nl_join_nl.
    change (forallb no_nl (map normalize_line (l :: ls)) = true).
    clear E. revert Hnl. generalize (l :: ls). intros lines.
    induction lines as [|x lines IH]; simpl; [reflexivity|].
    intros H. apply andb_prop in H as [Hx Hl].
    now rewrite (normalize_line_no_nl x Hx), (IH Hl).
  - intros l. unfold normalize_line. destruct (all_blank l); auto.
Qed.

Lemma append_inv_head (p x y : string) : p +:+ x = p +:+ y -> x = y.
Proof.
  induction p as [|a p IH]; simpl; [easy|]. intros H. injection H as H. auto.
Qed.

Lemma append_length (x y : string) :
  String.length (x +:+ y) = (String.length x + String.length y)%nat.
Proof. induction x as [|a x IH]; simpl; [reflexivity|]. now rewrite IH. Qed.

Lemma append_inv_tail (x y s : string) : x +:+ s = y +:+ s -> x = y.
Proof.
  revert y. induction x as [|a x IH]; intros [|c y] H.
  - reflexivity.
  - apply (f_equal String.length) in H. rewrite !append_length in H.
    cbn in H. lia.
  - apply (f_equal String.length) in H. rewrite !append_length in H.
    cbn in H. lia.
  - cbn in H. injection H as -> H. f_equal. auto.
Qed.

(** The profile determines its inputs: two sets of inputs without line
    breaks that render to the same profile are the same. *)
Theorem kubeconfig_injective
  (cert ep acct ak sk tok cert' ep' acct' ak' sk' tok' : string) :
  forallb no_nl [cert; ep; acct; ak; sk; tok] = true ->
  forallb no_nl [cert'; ep'; acct'; ak'; sk'; tok'] = true ->
  _construct_kubeconfig cert ep acct ak sk tok
  = _construct_kubeconfig cert' ep' acct' ak' sk' tok' ->
  cert = cert' /\ ep = ep' /\ acct = acct' /\ ak = ak' /\ sk = sk' /\ tok = tok'.
Proof.
  intros H H' E. cbn [forallb] in H, H'.
  repeat (apply andb_prop in H as [? H]). repeat (apply andb_prop in H' as [? H']).
  apply (f_equal split_nl) in E.
  rewrite !kubeconfig_lines_kept in E by assumption.
  unfold kubeconfig_lines, cluster_arn in E.
  injection E as Ecert Eep Earn _ _ _ _ _ Eak Esk Etok.
  apply append_inv_head in Ecert, Eep, Earn, Eak, Esk, Etok.
  apply append_inv_tail in Earn, Eak, Esk, Etok.
  repeat split; assumption.
Qed.

(** ** More on the credential fetch and on the setup of a session *)

Section FetchExtras.

Variable json_loads : list byte -> option pyval.
Variable py_repr : pyval -> string.

(** An answer that is an object with the seven keys is accepted whatever
    else it holds and whatever the values are, [null] included: the tuple
    is made of the values under the seven keys. *)
Theorem fetch_accepts_any_values (body : list byte) (d : list (string * pyval)) :
  json_loads body = Some (PDict d) ->
  (forall field, In field required_fields -> dict_get d field <> None) ->
  exists info,
    _fetch_pod_info json_loads body = inr info /\ populated_from d info.
Proof.
  intros Hload Hall. unfold _fetch_pod_info. rewrite Hload.
  pose proof (read_fields_dict d) as H.
  destruct (read_fields (PDict d)) as [e|info].
  - destruct H as (k & _ & Hin & Hnone). now destruct (Hall k Hin).
  - now exists info.
Qed.

(** An answer that is not JSON, or is JSON but not an object, is not
    reported as a malformed response: the error of the decoder, or
    [TypeError], leaves [_fetch_pod_info] as it is. *)
Theorem fetch_non_object_not_reported (body : list byte) :
  (json_loads body = None ->
   _fetch_pod_info json_loads body = inl JSONDecodeError)
  /\ (forall response,
        json_loads body = Some response ->
        (forall d, response <> PDict d) ->
        _fetch_pod_info json_loads body = inl TypeError
        /\ inl TypeError <> (inl (malformed_response response) : exn + pod_info)).
Proof.
  unfold _fetch_pod_info. split.
  - intros ->. reflexivity.
  - intros response -> Hnd. split; [|discriminate].
    destruct response as [| | | | |d]; try reflexivity. now destruct (Hnd d).
Qed.

(** A session writes nothing and loads nothing unless the broker answer
    was accepted, [int] read the account id of the token, and the profile
    could be opened for writing: otherwise the files are as they were and
    the trace is empty. *)
Theorem nothing_written_before_setup_succeeds (s : session) (w : world) :
  fst (fst (execute json_loads py_repr s w)) <> w
  \/ snd (fst (execute json_loads py_repr s w)) <> [] ->
  exists info n,
    _fetch_pod_info json_loads (broker_body s) = inr info
    /\ py_int (PStr (token_account_id s)) = inr n
    /\ open_fails s = false.
Proof.
  unfold execute.
  destruct (_fetch_pod_info json_loads (broker_body s)) as [e|info];
    [cbn; intros [H|H]; now destruct H|].
  destruct (py_int (PStr (token_account_id s))) as [e|n];
    [cbn; intros [H|H]; now destruct H|].
  unfold write_config. destruct (open_fails s);
    [cbn; intros [H|H]; now destruct H|].
  intros _. now exists info, n.
Qed.

(** A token whose account id [int] does not read ends the session with
    that [ValueError] before anything is written, although the id is not
    used for anything, and the command then exits with status 0. *)
Theorem unreadable_account_id_aborts (s : session) (w : world) (info : pod_info) :
  _fetch_pod_info json_loads (broker_body s) = inr info ->
  int_of_str (token_account_id s) = None ->
  execute json_loads py_repr s w
  = (w, [], Some (Raise (invalid_literal (token_account_id s))))
  /\ snd (main.execute json_loads py_repr s w) = Some 0.
Proof.
  intros Hf Hi.
  assert (E : execute json_loads py_repr s w
              = (w, [], Some (Raise (invalid_literal (token_account_id s))))).
  { unfold execute, py_int. now rewrite Hf, Hi. }
  split; [exact E|]. unfold main.execute. now rewrite E.
Qed.

End FetchExtras.

(** ** Concrete turns, payloads and answers *)

Lemma local_input_forwarded_in_order_witness :
  sends (trace (fst (run json_loads_ascii
                       [typing_turn; output_turn; busy_turn;
                        status_turn status_success; typing_turn] pump0)))
  = [x00 :: bytes_of "ls" ++ [x0a]; x00 :: bytes_of "pwd"].
Proof.
  pose proof (local_input_forwarded_in_order json_loads_ascii
                [typing_turn; output_turn; busy_turn;
                 status_turn status_success; typing_turn] pump0 eq_refl)
    as [H _].
  rewrite H. vm_compute. reflexivity.
Defined.

Lemma socket_closed_on_status_frame_only_witness :
  closes (trace (fst (run json_loads_ascii
                        [output_turn; close_turn; typing_turn]
                        {| rlist := [Sock; Stdin]; trace := [] |}))) = []
  /\ snd (run json_loads_ascii [output_turn; status_turn status_exit_17; output_turn]
            {| rlist := [Sock; Stdin]; trace := [] |}) <> None.
Proof.
  split.
  - rewrite (proj1 (socket_closed_on_status_frame_only json_loads_ascii
                      [output_turn; close_turn; typing_turn] [Sock; Stdin])).
    vm_compute. reflexivity.
  - apply (socket_closed_on_status_frame_only json_loads_ascii
             [output_turn; status_turn status_exit_17; output_turn] [Sock; Stdin]).
    vm_compute. discriminate.
Defined.

Lemma rlist_only_loses_socket_witness :
  rlist (fst (run json_loads_ascii [typing_turn; close_turn; busy_turn] pump0))
  = [Sock; Stdin]
  \/ rlist (fst (run json_loads_ascii [typing_turn; close_turn; busy_turn] pump0))
     = [Stdin].
Proof.
  exact (rlist_only_loses_socket json_loads_ascii
           [typing_turn; close_turn; busy_turn] pump0 eq_refl).
Defined.

Lemma remote_close_stops_receiving_witness :
  body json_loads_ascii close_turn pump0 = (pump_closed, inr tt)
  /\ received (trace (fst (run json_loads_ascii [busy_turn; output_turn] pump_closed)))
     = [(OPCODE_CLOSE, [])]
  /\ run json_loads_ascii [frame_turn OPCODE_BINARY [x09]; output_turn] pump_closed
     = (pump_closed, None).
Proof.
  pose proof (remote_close_stops_receiving json_loads_ascii close_turn pump0 []
                [busy_turn; output_turn] eq_refl eq_refl eq_refl)
    as (H1 & H2 & _).
  pose proof (remote_close_stops_receiving json_loads_ascii close_turn pump0 []
                [frame_turn OPCODE_BINARY [x09]; output_turn] eq_refl eq_refl eq_refl)
    as (_ & _ & _ & _ & H5).
  split; [exact H1|]. split; [exact H2|]. exact (H5 eq_refl).
Defined.

Lemma status_payload_unexpected_witness :
  snd (body json_loads_ascii (status_turn status_not_json) pump0)
  = inl (Raise JSONDecodeError)
  /\ snd (body json_loads_ascii (status_turn status_a_list) pump0)
     = inl (Raise TypeError)
  /\ snd (body json_loads_ascii (status_turn status_no_status) pump0)
     = inl (Raise (KeyError "status")).
Proof.
  assert (A : json_loads_ascii status_not_json = None) by (vm_compute; reflexivity).
  assert (B : json_loads_ascii status_a_list = Some (PList [PInt 1; PInt 2]))
    by (vm_compute; reflexivity).
  assert (C : json_loads_ascii status_no_status
              = Some (PDict [("reason", PStr "NonZeroExitCode")]))
    by (vm_compute; reflexivity).
  split; [|split].
  - rewrite (proj1 (status_payload_unexpected json_loads_ascii
                      (status_turn status_not_json) pump0 x03 status_not_json
                      eq_refl eq_refl eq_refl eq_refl) A).
    reflexivity.
  - rewrite (proj1 (proj2 (status_payload_unexpected json_loads_ascii
                             (status_turn status_a_list) pump0 x03 status_a_list
                             eq_refl eq_refl eq_refl eq_refl))
               (PList [PInt 1; PInt 2]) B
               (fun d (H : PList [PInt 1; PInt 2] = PDict d) =>
                  eq_ind (PList [PInt 1; PInt 2])
                    (fun v => match v with PList _ => True | _ => False end)
                    I (PDict d) H)).
    reflexivity.
  - rewrite (proj2 (proj2 (status_payload_unexpected json_loads_ascii
                             (status_turn status_no_status) pump0 x03 status_no_status
                             eq_refl eq_refl eq_refl eq_refl))
               [("reason", PStr "NonZeroExitCode")] C eq_refl).
    reflexivity.
Defined.

Lemma exit_code_unreadable_witness :
  snd (body json_loads_ascii (status_turn status_exit_unreadable) pump0)
  = inl (Raise (invalid_literal "seventeen")).
Proof.
  rewrite (exit_code_unreadable json_loads_ascii
             (status_turn status_exit_unreadable) pump0 x03 status_exit_unreadable
             (PDict [("status", PStr "Failure");
                     ("reason", PStr "NonZeroExitCode");
                     ("details",
                      PDict [("causes",
                              PList [PDict [("reason", PStr "ExitCode");
                                            ("message", PStr "seventeen")];
                                     PDict [("reason", PStr "ExitCode");
                                            ("message", PStr "17")]])]);
                     ("message", PStr "boom")])
             (PStr "Failure") (PStr "NonZeroExitCode")
             (PDict [("causes",
                      PList [PDict [("reason", PStr "ExitCode");
                                    ("message", PStr "seventeen")];
                             PDict [("reason", PStr "ExitCode");
                                    ("message", PStr "17")]])])
             (PList [PDict [("reason", PStr "ExitCode");
                            ("message", PStr "seventeen")];
                     PDict [("reason", PStr "ExitCode");
                            ("message", PStr "17")]])
             (PDict [("reason", PStr "ExitCode"); ("message", PStr "seventeen")])
             (PStr "ExitCode")
             []
             [PDict [("reason", PStr "ExitCode"); ("message", PStr "17")]]
             (invalid_literal "seventeen")
             eq_refl eq_refl eq_refl eq_refl
             ltac:(vm_compute; reflexivity)
             eq_refl eq_refl eq_refl eq_refl eq_refl eq_refl eq_refl eq_refl
             eq_refl eq_refl eq_refl).
  reflexivity.
Defined.

Lemma empty_binary_frame_raises_witness :
  snd (body json_loads_ascii (frame_turn OPCODE_BINARY []) pump0)
  = inl (Raise IndexError).
Proof.
  rewrite (empty_binary_frame_raises json_loads_ascii
             (frame_turn OPCODE_BINARY []) pump0 eq_refl eq_refl eq_refl).
  reflexivity.
Defined.

Lemma kubeconfig_injective_witness :
  _construct_kubeconfig "CERT" "https://e" "123" "AK" "SK" "TOK"
  <> _construct_kubeconfig "CERT" "https://e" "123" "AK" "SK" "TOK2".
Proof.
  intros E.
  pose proof (kubeconfig_injective "CERT" "https://e" "123" "AK" "SK" "TOK"
                "CERT" "https://e" "123" "AK" "SK" "TOK2" eq_refl eq_refl E)
    as (_ & _ & _ & _ & _ & H).
  discriminate H.
Defined.

Lemma fetch_accepts_any_values_witness :
  exists info,
    _fetch_pod_info json_loads_ascii body_with_null = inr info
    /\ populated_from
         [("extra", PList [PInt 1]); ("tmp_access_key", PStr "AK");
          ("tmp_secret_key", PStr "SK"); ("tmp_session_token", PNone);
          ("cert_auth_data", PStr "CERT"); ("cluster_endpoint", PStr "https://e");
          ("namespace", PStr "ns"); ("aws_account_id", PInt 123)] info.
Proof.
  apply (fetch_accepts_any_values json_loads_ascii body_with_null).
  - vm_compute. reflexivity.
  - intros field [<-|[<-|[<-|[<-|[<-|[<-|[<-|[]]]]]]]]; discriminate.
Defined.

Lemma fetch_non_object_not_reported_witness :
  _fetch_pod_info json_loads_ascii body_not_json = inl JSONDecodeError
  /\ _fetch_pod_info json_loads_ascii body_a_list = inl TypeError.
Proof.
  split.
  - apply (fetch_non_object_not_reported json_loads_ascii body_not_json).
    vm_compute. reflexivity.
  - apply (proj2 (fetch_non_object_not_reported json_loads_ascii body_a_list)
             (PList [])).
    + vm_compute. reflexivity.
    + intros d. discriminate.
Defined.

Lemma nothing_written_before_setup_succeeds_witness :
  exists info n,
    _fetch_pod_info json_loads_ascii
      (broker_body (session_of [status_turn status_success])) = inr info
    /\ py_int (PStr (token_account_id (session_of [status_turn status_success])))
       = inr n
    /\ open_fails (session_of [status_turn status_success]) = false.
Proof.
  apply (nothing_written_before_setup_succeeds json_loads_ascii no_repr
           (session_of [status_turn status_success]) empty_world).
  right. vm_compute. discriminate.
Defined.

Lemma unreadable_account_id_aborts_witness :
  execute json_loads_ascii no_repr session_bad_account empty_world
  = (empty_world, [], Some (Raise (invalid_literal "acct-7")))
  /\ snd (main.execute json_loads_ascii no_repr session_bad_account empty_world)
     = Some 0.
Proof.
  exact (unreadable_account_id_aborts json_loads_ascii no_repr session_bad_account
           empty_world info_complete fetch_complete eq_refl).
Defined.

(** ** The command [get-wf] *)

Lemma blanks_length (n : nat) : String.length (blanks n) = n.
Proof. induction n as [|n IH]; simpl; [reflexivity|]. now rewrite IH. Qed.

Lemma len_spaces (n : Z) : len (spaces n) = Z.max 0 n.
Proof. unfold len, spaces. rewrite blanks_length. lia. Qed.

Lemma len_append (x y : string) : len (x +:+ y) = len x + len y.
Proof. unfold len. rewrite append_length. lia. Qed.

Lemma len_ljust (s : string) (width : Z) : len (ljust s width) = Z.max (len s) width.
Proof. unfold ljust. rewrite len_append, len_spaces. lia. Qed.

Lemma append_assoc (x y z : string) : (x +:+ y) +:+ z = x +:+ (y +:+ z).
Proof.
  induction x as [|a x IH]; [reflexivity|].
  change (String a ((x +:+ y) +:+ z) = String a (x +:+ (y +:+ z))).
  now rewrite IH.
Qed.

Lemma len_nonneg (s : string) : 0 <= len s.
Proof. unfold len. lia. Qed.

Section GetWf.

Variable py_repr : pyval -> string.
Variable exn_str : exn -> string.

(** The widths the first loop ends with, from those it starts with. *)
Lemma paddings_named (wfs : list (pyval * pyval * pyval)) (a b c : Z) :
  forallb named wfs = true ->
  exists a' b' c',
    paddings py_repr wfs (a, b, c) = inr (a', b', c')
    /\ (a <= a' /\ b <= b' /\ c <= c')
    /\ Forall (fun wf => let '(id, name, version) := wf in
                 len (py_str py_repr id) <= a'
                 /\ len (py_str py_repr name) <= b'
                 /\ len (py_str py_repr version) <= c') wfs
    /\ (a' = a \/ Exists (fun wf => len (py_str py_repr (fst (fst wf))) = a') wfs)
    /\ (b' = b \/ Exists (fun wf => len (py_str py_repr (snd (fst wf))) = b') wfs)
    /\ (c' = c \/ Exists (fun wf => len (py_str py_repr (snd wf)) = c') wfs).
Proof.
  revert a b c. induction wfs as [|[[id name] version] wfs IH]; intros a b c H.
  - exists a, b, c. simpl. repeat split; auto; lia.
  - simpl in H. apply andb_prop in H as [Hn H].
    destruct name as [| | |name| |]; try discriminate.
    destruct version as [| | |version| |]; try discriminate.
    cbn [paddings py_len and_then].
    destruct (IH (Z.max a (len (py_str py_repr id))) (Z.max b (len name))
                (Z.max c (len version)) H)
      as (a' & b' & c' & E & (La & Lb & Lc) & F & Ta & Tb & Tc).
    exists a', b', c'. split; [exact E|]. split; [lia|].
    split; [|split; [|split]].
    + constructor; [cbn [py_str]; lia|exact F].
    + destruct Ta as [Ta|Ta]; [|right; now apply Exists_cons_tl].
      destruct (Z.max_spec a (len (py_str py_repr id))) as [[_ M]|[_ M]].
      * right. apply Exists_cons_hd. cbn [fst]. lia.
      * left. lia.
    + destruct Tb as [Tb|Tb]; [|right; now apply Exists_cons_tl].
      destruct (Z.max_spec b (len name)) as [[_ M]|[_ M]].
      * right. apply Exists_cons_hd. cbn [fst snd py_str]. lia.
      * left. lia.
    + destruct Tc as [Tc|Tc]; [|right; now apply Exists_cons_tl].
      destruct (Z.max_spec c (len version)) as [[_ M]|[_ M]].
      * right. apply Exists_cons_hd. cbn [snd py_str]. lia.
      * left. lia.
Qed.

Lemma wf_rows_named (wfs : list (pyval * pyval * pyval)) (a b c : Z) :
  forallb named wfs = true ->
  wf_rows py_repr (a, b, c) wfs
  = (map (fun wf => let '(id, name, version) := wf in
            plain (ljust (py_str py_repr id) a +:+ tab
                   +:+ ljust (py_str py_repr name) b +:+ tab
                   +:+ ljust (py_str py_repr version) c)) wfs, None).
Proof.
  induction wfs as [|[[id name] version] wfs IH]; intros H; [reflexivity|].
  simpl in H. apply andb_prop in H as [Hn H].
  destruct name as [| | |name| |]; try discriminate.
  destruct version as [| | |version| |]; try discriminate.
  cbn [wf_rows wf_row py_len and_then]. rewrite (IH H).
  unfold then_, ljust. cbn [fst snd map app py_str].
  f_equal. f_equal. f_equal.
  rewrite !append_assoc. reflexivity.
Qed.

(** The table of [get-wf] is aligned when names and versions are texts:
    the command prints the header and one line for each workflow, in
    order; a line is the id, the name and the version, each padded with
    spaces to the width of its column and followed by a tab (the version
    by nothing); the width of a column is the length of its longest
    value, 0 for no workflow; the header has the titles before as many
    spaces as the column is wide, so that its cells are wider than those
    of the rows by the length of the title. *)
Theorem get_wf_columns_aligned (wfs : list (pyval * pyval * pyval)) :
  forallb named wfs = true ->
  exists wi wn wv,
    get_wf py_repr exn_str (inr wfs)
    = (plain ("ID" +:+ spaces wi +:+ tab +:+ "Name" +:+ spaces wn +:+ tab
              +:+ "Version" +:+ spaces wv)
       :: map (fun wf => let '(id, name, version) := wf in
                 plain (ljust (py_str py_repr id) wi +:+ tab
                        +:+ ljust (py_str py_repr name) wn +:+ tab
                        +:+ ljust (py_str py_repr version) wv)) wfs,
       None)
    /\ Forall (fun wf => let '(id, name, version) := wf in
                 len (ljust (py_str py_repr id) wi) = wi
                 /\ len (ljust (py_str py_repr name) wn) = wn
                 /\ len (ljust (py_str py_repr version) wv) = wv) wfs
    /\ (wi = 0 \/ Exists (fun wf => len (py_str py_repr (fst (fst wf))) = wi) wfs)
    /\ (wn = 0 \/ Exists (fun wf => len (py_str py_repr (snd (fst wf))) = wn) wfs)
    /\ (wv = 0 \/ Exists (fun wf => len (py_str py_repr (snd wf)) = wv) wfs).
Proof.
  intros H.
  destruct (paddings_named wfs 0 0 0 H)
    as (wi & wn & wv & E & _ & F & Ti & Tn & Tv).
  exists wi, wn, wv. unfold get_wf. rewrite E, (wf_rows_named wfs wi wn wv H).
  split; [reflexivity|]. split; [|auto].
  eapply List.Forall_impl; [|exact F].
  intros [[id name] version] (Hi & Hn & Hv). rewrite !len_ljust. lia.
Qed.

(** A workflow whose name or version has no length, [None] or a number,
    makes [get-wf] raise [TypeError] before it has printed anything, the
    header included, wherever the workflow stands in the answer: the
    exception is raised outside the [try] of the command. *)
Theorem get_wf_unsized_name_escapes
  (wfs : list (pyval * pyval * pyval)) (id name version : pyval) :
  In (id, name, version) wfs ->
  py_len name = inl TypeError \/ py_len version = inl TypeError ->
  get_wf py_repr exn_str (inr wfs) = ([], Some TypeError).
Proof.
  intros Hin Hbad. unfold get_wf.
  assert (G : forall p, paddings py_repr wfs p = inl TypeError).
  { induction wfs as [|[[i n] v] wfs IH]; [destruct Hin|]. intros [[a b] c].
    cbn [paddings]. unfold and_then.
    destruct (py_len n) as [e|nl] eqn:En.
    - destruct n; try discriminate; now injection En as <-.
    - destruct (py_len v) as [e|vl] eqn:Ev.
      + destruct v; try discriminate; now injection Ev as <-.
      + destruct Hin as [[= -> -> ->]|Hin]; [|now apply IH].
        destruct Hbad; congruence. }
  now rewrite G.
Qed.

End GetWf.

Lemma get_wf_columns_aligned_witness :
  exists wi wn wv,
    get_wf no_repr str_of_exn (inr some_workflows)
    = (plain ("ID" +:+ spaces wi +:+ tab +:+ "Name" +:+ spaces wn +:+ tab
              +:+ "Version" +:+ spaces wv)
       :: map (fun wf => let '(id, name, version) := wf in
                 plain (ljust (py_str no_repr id) wi +:+ tab
                        +:+ ljust (py_str no_repr name) wn +:+ tab
                        +:+ ljust (py_str no_repr version) wv)) some_workflows,
       None)
    /\ Forall (fun wf => let '(id, name, version) := wf in
                 len (ljust (py_str no_repr id) wi) = wi
                 /\ len (ljust (py_str no_repr name) wn) = wn
                 /\ len (ljust (py_str no_repr version) wv) = wv) some_workflows
    /\ (wi = 0 \/ Exists (fun wf => len (py_str no_repr (fst (fst wf))) = wi)
                    some_workflows)
    /\ (wn = 0 \/ Exists (fun wf => len (py_str no_repr (snd (fst wf))) = wn)
                    some_workflows)
    /\ (wv = 0 \/ Exists (fun wf => len (py_str no_repr (snd wf)) = wv)
                    some_workflows).
Proof.
  exact (get_wf_columns_aligned no_repr str_of_exn some_workflows eq_refl).
Defined.

Lemma get_wf_unsized_name_escapes_witness :
  get_wf no_repr str_of_exn (inr workflows_unnamed_last) = ([], Some TypeError).
Proof.
  apply (get_wf_unsized_name_escapes no_repr str_of_exn workflows_unnamed_last
           (PInt 34) PNone (PStr "1")).
  - vm_compute. auto.
  - left. reflexivity.
Defined.

(** ** The command [ls] *)

Lemma initial_lengths_lookup :
  initial_lengths !!! "name" = 7
  /\ initial_lengths !!! "contentType" = 14
  /\ initial_lengths !!! "contentSize" = 14.
Proof. repeat split; vm_compute; reflexivity. Qed.

Lemma has_fields_inv (row : pyval) :
  has_fields row = true ->
  py_getitem row "name" = inr (PStr (field row "name"))
  /\ py_getitem row "contentType" = inr (PStr (field row "contentType"))
  /\ py_getitem row "contentSize" = inr (PStr (field row "contentSize"))
  /\ py_getitem row "modifyTime" = inr (PStr (field row "modifyTime")).
Proof.
  unfold has_fields, header_keys, header, field. cbn [map fst forallb].
  intros H. repeat (apply andb_prop in H as [? H]).
  repeat split.
  - destruct (py_getitem row "name") as [|[]]; try discriminate; reflexivity.
  - destruct (py_getitem row "contentType") as [|[]]; try discriminate; reflexivity.
  - destruct (py_getitem row "contentSize") as [|[]]; try discriminate; reflexivity.
  - destruct (py_getitem row "modifyTime") as [|[]]; try discriminate; reflexivity.
Qed.

Lemma measure_row_fields (row : pyval) (m : gmap string Z) :
  has_fields row = true ->
  exists m',
    measure_row row header_keys m = inr m'
    /\ m' !!! "name" = Z.max (len (field row "name") + 3) (m !!! "name")
    /\ m' !!! "contentType"
       = Z.max (len (field row "contentType") + 3) (m !!! "contentType")
    /\ m' !!! "contentSize"
       = Z.max (len (field row "contentSize") + 3) (m !!! "contentSize").
Proof.
  intros H. destruct (has_fields_inv row H) as (E1 & E2 & E3 & E4).
  unfold header_keys, header. cbn [map fst measure_row].
  rewrite E1. cbn [and_then py_len]. rewrite E2. cbn [and_then py_len].
  rewrite E3. cbn [and_then py_len]. rewrite E4. cbn [and_then py_len].
  eexists. split; [reflexivity|].
  change (_item_padding "name") with 3.
  change (_item_padding "contentType") with 3.
  change (_item_padding "contentSize") with 3.
  repeat split.
  - rewrite !lookup_total_insert_ne by discriminate.
    now rewrite lookup_total_insert.
  - rewrite !(lookup_total_insert_ne _ "modifyTime") by discriminate.
    rewrite !(lookup_total_insert_ne _ "contentSize") by discriminate.
    rewrite lookup_total_insert.
    now rewrite !lookup_total_insert_ne by discriminate.
  - rewrite !(lookup_total_insert_ne _ "modifyTime") by discriminate.
    rewrite lookup_total_insert.
    now rewrite !lookup_total_insert_ne by discriminate.
Qed.

Lemma measure_fields (output : list pyval) (m : gmap string Z) :
  forallb has_fields output = true ->
  exists m',
    measure output m = inr m'
    /\ (m !!! "name" <= m' !!! "name"
        /\ m !!! "contentType" <= m' !!! "contentType"
        /\ m !!! "contentSize" <= m' !!! "contentSize")
    /\ Forall (fun row => len (field row "name") + 3 <= m' !!! "name"
                          /\ len (field row "contentType") + 3 <= m' !!! "contentType"
                          /\ len (field row "contentSize") + 3 <= m' !!! "contentSize")
         output
    /\ (m' !!! "name" = m !!! "name"
        \/ Exists (fun row => m' !!! "name" = len (field row "name") + 3) output)
    /\ (m' !!! "contentType" = m !!! "contentType"
        \/ Exists (fun row => m' !!! "contentType" = len (field row "contentType") + 3)
             output)
    /\ (m' !!! "contentSize" = m !!! "contentSize"
        \/ Exists (fun row => m' !!! "contentSize" = len (field row "contentSize") + 3)
             output).
Proof.
  revert m. induction output as [|row output IH]; intros m H.
  - exists m. simpl. repeat split; auto; lia.
  - simpl in H. apply andb_prop in H as [Hr H].
    destruct (measure_row_fields row m Hr) as (m1 & E1 & N1 & T1 & S1).
    destruct (IH m1 H) as (m' & E & (Ln & Lt & Ls) & F & Tn & Tt & Ts).
    exists m'. cbn [measure]. rewrite E1. cbn [and_then].
    split; [exact E|]. split; [lia|]. split; [|split; [|split]].
    + constructor; [lia|exact F].
    + destruct Tn as [Tn|Tn]; [|right; now apply Exists_cons_tl].
      destruct (Z.max_spec (len (field row "name") + 3) (m !!! "name"))
        as [[_ M]|[_ M]].
      * left. lia.
      * right. apply Exists_cons_hd. lia.
    + destruct Tt as [Tt|Tt]; [|right; now apply Exists_cons_tl].
      destruct (Z.max_spec (len (field row "contentType") + 3) (m !!! "contentType"))
        as [[_ M]|[_ M]].
      * left. lia.
      * right. apply Exists_cons_hd. lia.
    + destruct Ts as [Ts|Ts]; [|right; now apply Exists_cons_tl].
      destruct (Z.max_spec (len (field row "contentSize") + 3) (m !!! "contentSize"))
        as [[_ M]|[_ M]].
      * left. lia.
      * right. apply Exists_cons_hd. lia.
Qed.

Lemma measure_app (a b : list pyval) (m : gmap string Z) :
  measure (a ++ b) m = (m' <~ measure a m ;; measure b m').
Proof.
  revert m. induction a as [|row a IH]; intros m; [reflexivity|].
  cbn [app measure]. unfold and_then at 1 3.
  destruct (measure_row row header_keys m) as [e|m1]; [reflexivity|]. apply IH.
Qed.

Section Ls.

Variable py_repr : pyval -> string.
Variable exn_str : exn -> string.

Lemma display_fields (m : gmap string Z) (row : pyval)
  (colour : option string) (bold underline : bool) (rest : printed) :
  has_fields row = true ->
  _display py_repr m row colour bold underline rest
  = then_ (line_of (m !!! "name") (m !!! "contentType") (m !!! "contentSize")
             row colour bold underline) rest.
Proof.
  intros H. destruct (has_fields_inv row H) as (E1 & E2 & E3 & E4).
  unfold _display, cell, line_of.
  rewrite E1. cbn [and_then py_format_left]. rewrite E2.
  cbn [and_then py_format_left]. rewrite E3. cbn [and_then py_format_left].
  rewrite E4. destruct rest as [l o]. reflexivity.
Qed.

Lemma display_rows_well_formed (m : gmap string Z) (output : list pyval) :
  forallb well_formed output = true ->
  display_rows py_repr m output
  = (flat_map (fun row => line_of (m !!! "name") (m !!! "contentType")
                            (m !!! "contentSize") row (Some (colour_of row))
                            true false) output, None).
Proof.
  induction output as [|row output IH]; intros H; [reflexivity|].
  simpl in H. apply andb_prop in H as [Hr H].
  unfold well_formed in Hr. apply andb_prop in Hr as [Hf Ht].
  cbn [display_rows flat_map]. unfold colour_of, typed in *.
  destruct (py_getitem row "type") as [e|type]; [discriminate|].
  rewrite (display_fields _ _ _ _ _ _ Hf), (IH H). reflexivity.
Qed.

Lemma well_formed_has_fields (output : list pyval) :
  forallb well_formed output = true -> forallb has_fields output = true.
Proof.
  induction output as [|row output IH]; [reflexivity|]. simpl.
  intros H. apply andb_prop in H as [Hr H]. unfold well_formed in Hr.
  apply andb_prop in Hr as [Hf _]. now rewrite Hf, IH.
Qed.

Lemma listing_completes (output : list pyval) :
  forallb well_formed output = true -> snd (listing py_repr output) = None.
Proof.
  intros H. pose proof (well_formed_has_fields output H) as Hf.
  destruct (measure_fields output initial_lengths Hf) as (m & E & _).
  unfold listing. rewrite E.
  rewrite (display_fields m (PDict header) None false true _ eq_refl).
  now rewrite (display_rows_well_formed m output H).
Qed.

(** The table of a directory is aligned when every row has a text under
    each of the four keys, and a type: [ls] prints the header and one
    line for each row, in order, each line in four pieces, the name, the
    content type and the size padded with spaces to the width of their
    column, then the modification time; the colour is cyan for an object
    and green otherwise.  The width of a column is that of its longest
    value and three spaces, and at least 7 for the names and 14 for the
    types and sizes (the length of the key, not that of the title, and
    three), so that a value is always followed by three spaces or
    more. *)
Theorem ls_columns_aligned (output : list pyval) :
  forallb well_formed output = true ->
  exists w1 w2 w3,
    listing py_repr output
    = (line_of w1 w2 w3 (PDict header) None false true
       ++ flat_map (fun row => line_of w1 w2 w3 row (Some (colour_of row)) true false)
            output,
       None)
    /\ (7 <= w1 /\ 14 <= w2 /\ 14 <= w3)
    /\ Forall (fun row => len (field row "name") + 3 <= w1
                          /\ len (field row "contentType") + 3 <= w2
                          /\ len (field row "contentSize") + 3 <= w3) output
    /\ (w1 = 7 \/ Exists (fun row => w1 = len (field row "name") + 3) output)
    /\ (w2 = 14 \/ Exists (fun row => w2 = len (field row "contentType") + 3) output)
    /\ (w3 = 14 \/ Exists (fun row => w3 = len (field row "contentSize") + 3) output).
Proof.
  intros H. pose proof (well_formed_has_fields output H) as Hf.
  destruct (measure_fields output initial_lengths Hf)
    as (m & E & L & F & Tn & Tt & Ts).
  destruct initial_lengths_lookup as (I1 & I2 & I3).
  rewrite I1, I2, I3 in *.
  exists (m !!! "name"), (m !!! "contentType"), (m !!! "contentSize").
  unfold listing. rewrite E.
  rewrite (display_fields m (PDict header) None false true _ eq_refl).
  rewrite (display_rows_well_formed m output H).
  split; [reflexivity|]. auto.
Qed.

Lemma measure_row_raises (row : pyval) (keys : list string) (m : gmap string Z) :
  forallb (fun key => match (v <~ py_getitem row key ;; py_len v) with
                      | inr _ => true
                      | inl _ => false
                      end) keys = false ->
  exists e,
    measure_row row keys m = inl e
    /\ (e = TypeError \/ exists key, In key keys /\ e = KeyError key).
Proof.
  revert m. induction keys as [|key keys IH]; intros m; [discriminate|].
  cbn [forallb measure_row]. unfold and_then at 1 2 3 4.
  destruct (py_getitem row key) as [e|v] eqn:Eg.
  - intros _. exists e. split; [reflexivity|].
    unfold py_getitem in Eg. destruct row; try (injection Eg as <-; now left).
    destruct (dict_get d key); [discriminate|]. injection Eg as <-.
    right. exists key. split; [now left|reflexivity].
  - destruct (py_len v) as [e|n] eqn:El.
    + intros _. exists e. split; [reflexivity|]. left.
      destruct v; try discriminate; now injection El as <-.
    + cbn [andb]. intros H.
      destruct (IH (<[key := Z.max (n + _item_padding key) (m !!! key)]> m) H)
        as (e & E & [->|(k & Hk & ->)]).
      * exists TypeError. split; [exact E|now left].
      * exists (KeyError k). split; [exact E|]. right. exists k. split; [now right|easy].
Qed.

Lemma measure_raises (output : list pyval) (m : gmap string Z) :
  forallb measurable output = false ->
  exists e,
    measure output m = inl e
    /\ (e = TypeError \/ exists key, In key header_keys /\ e = KeyError key).
Proof.
  revert m. induction output as [|row output IH]; intros m; [discriminate|].
  cbn [forallb measure]. unfold and_then.
  destruct (measurable row) eqn:Hm.
  - cbn [andb]. intros H.
    destruct (measure_row row header_keys m) as [e|m1] eqn:E1; [|now apply IH].
    clear -Hm E1. exfalso. unfold measurable in Hm. revert m Hm E1.
    induction header_keys as [|key keys IHk]; intros m Hm E1; [discriminate|].
    cbn [forallb measure_row] in *. unfold and_then in *.
    destruct (py_getitem row key) as [e'|v]; [discriminate|].
    destruct (py_len v) as [e'|n]; [discriminate|]. cbn [andb] in Hm.
    exact (IHk _ Hm E1).
  - intros _. destruct (measure_row_raises row header_keys m Hm) as (e & -> & He).
    now exists e.
Qed.

Variable ls_service : string -> exn + list pyval.

(** A directory with a row that lacks one of the four keys, or has under
    one of them a value without a length, stops the command: it raises
    [KeyError] for a key of the header, or [TypeError], nothing of the
    directory is printed, the header and the complete rows included, and
    the directories that follow are not listed. *)
Theorem ls_incomplete_row_prints_nothing
  (remote_directory : string) (rest : list string) (output : list pyval) :
  ls_service remote_directory = inr output ->
  forallb measurable output = false ->
  exists e,
    ls_each py_repr exn_str ls_service (remote_directory :: rest) = ([], Some e)
    /\ (e = TypeError \/ exists key, In key header_keys /\ e = KeyError key).
Proof.
  intros Hs Hm. destruct (measure_raises output initial_lengths Hm) as (e & E & He).
  exists e. split; [|exact He].
  cbn [ls_each]. rewrite Hs. unfold listing. now rewrite E.
Qed.

(** A row without a type is found only when its line is due: the header
    and the lines of the rows before it are printed, then [KeyError]
    leaves the command. *)
Theorem ls_untyped_row_stops_midway
  (before after : list pyval) (row : pyval) (e : exn) :
  forallb well_formed before = true ->
  forallb has_fields (row :: after) = true ->
  py_getitem row "type" = inl e ->
  exists w1 w2 w3,
    listing py_repr (before ++ row :: after)
    = (line_of w1 w2 w3 (PDict header) None false true
       ++ flat_map (fun r => line_of w1 w2 w3 r (Some (colour_of r)) true false)
            before,
       Some e).
Proof.
  intros Hb Ha He.
  assert (Hf : forallb has_fields (before ++ row :: after) = true).
  { rewrite forallb_app, (well_formed_has_fields before Hb). exact Ha. }
  destruct (measure_fields _ initial_lengths Hf) as (m & E & _).
  exists (m !!! "name"), (m !!! "contentType"), (m !!! "contentSize").
  unfold listing. rewrite E.
  rewrite (display_fields m (PDict header) None false true _ eq_refl).
  f_equal.
  assert (G : display_rows py_repr m (before ++ row :: after)
              = (flat_map (fun r => line_of (m !!! "name") (m !!! "contentType")
                                      (m !!! "contentSize") r (Some (colour_of r))
                                      true false) before, Some e)).
  { clear -Hb He. induction before as [|r before IH].
    - cbn [app display_rows]. now rewrite He.
    - simpl in Hb. apply andb_prop in Hb as [Hr Hb].
      unfold well_formed in Hr. apply andb_prop in Hr as [Hf Ht].
      cbn [app display_rows flat_map]. unfold colour_of, typed in *.
      destruct (py_getitem r "type") as [e'|type]; [discriminate|].
      rewrite (display_fields _ _ _ _ _ _ Hf), (IH Hb). reflexivity. }
  rewrite G. unfold then_. cbn [fst snd]. reflexivity.
Qed.

(** When every directory is either refused by the service or listed with
    well-formed rows, [ls] ends without an exception after it has printed,
    for each directory in order, the line in red that reports the refusal
    or the table of the directory: a refusal does not stop the command.
    Without an argument the one directory is [latch:///]. *)
Theorem ls_reports_and_continues (remote_directories : list string) :
  forallb (fun d => match ls_service d with
                    | inl _ => true
                    | inr output => forallb well_formed output
                    end) (listed remote_directories) = true ->
  ls py_repr exn_str ls_service remote_directories
  = (flat_map (fun d => match ls_service d with
                        | inl e => [coloured "red" ("Unable to display contents of "
                                                    +:+ d +:+ ": " +:+ exn_str e)]
                        | inr output => fst (listing py_repr output)
                        end) (listed remote_directories),
     None).
Proof.
  unfold ls. fold (listed remote_directories).
  induction (listed remote_directories) as [|d ds IH]; [reflexivity|].
  cbn [forallb ls_each flat_map]. intros H. apply andb_prop in H as [Hd H].
  rewrite (IH H). destruct (ls_service d) as [e|output]; [reflexivity|].
  pose proof (listing_completes output Hd) as Hl.
  destruct (listing py_repr output) as [lines o]. cbn [snd] in Hl. now subst o.
Qed.

End Ls.

(** ** Concrete answers of the service [ls] *)

Lemma ls_columns_aligned_witness :
  exists w1 w2 w3,
    listing no_repr some_rows
    = (line_of w1 w2 w3 (PDict header) None false true
       ++ flat_map (fun row => line_of w1 w2 w3 row (Some (colour_of row)) true false)
            some_rows,
       None)
    /\ (7 <= w1 /\ 14 <= w2 /\ 14 <= w3)
    /\ Forall (fun row => len (field row "name") + 3 <= w1
                          /\ len (field row "contentType") + 3 <= w2
                          /\ len (field row "contentSize") + 3 <= w3) some_rows
    /\ (w1 = 7 \/ Exists (fun row => w1 = len (field row "name") + 3) some_rows)
    /\ (w2 = 14
        \/ Exists (fun row => w2 = len (field row "contentType") + 3) some_rows)
    /\ (w3 = 14
        \/ Exists (fun row => w3 = len (field row "contentSize") + 3) some_rows).
Proof.
  exact (ls_columns_aligned no_repr some_rows eq_refl).
Defined.

Lemma ls_incomplete_row_prints_nothing_witness :
  exists e,
    ls_each no_repr str_of_exn some_service ["latch:///notes"; "latch:///"]
    = ([], Some e)
    /\ (e = TypeError \/ exists key, In key header_keys /\ e = KeyError key).
Proof.
  exact (ls_incomplete_row_prints_nothing no_repr str_of_exn some_service
           "latch:///notes" ["latch:///"] (some_rows ++ [row_without_size])
           eq_refl eq_refl).
Defined.

Lemma ls_untyped_row_stops_midway_witness :
  exists w1 w2 w3,
    listing no_repr (some_rows ++ [row_without_type])
    = (line_of w1 w2 w3 (PDict header) None false true
       ++ flat_map (fun r => line_of w1 w2 w3 r (Some (colour_of r)) true false)
            some_rows,
       Some (KeyError "type")).
Proof.
  exact (ls_untyped_row_stops_midway no_repr some_rows [] row_without_type
           (KeyError "type") eq_refl eq_refl eq_refl).
Defined.

Lemma ls_reports_and_continues_witness :
  ls no_repr str_of_exn some_service ["latch:///gone"; "latch:///"]
  = (coloured "red" "Unable to display contents of latch:///gone: error"
     :: fst (listing no_repr some_rows), None)
  /\ ls no_repr str_of_exn some_service [] = (fst (listing no_repr some_rows), None).
Proof.
  split.
  - rewrite (ls_reports_and_continues no_repr str_of_exn some_service
               ["latch:///gone"; "latch:///"] eq_refl).
    vm_compute. reflexivity.
  - rewrite (ls_reports_and_continues no_repr str_of_exn some_service [] eq_refl).
    vm_compute. reflexivity.
Defined.

(** ** The check of the package name *)

Lemma lower_or_digit_only (c : ascii) :
  lower_or_digit c = true ->
  separator c = false /\ slash c = false /\ isupper c = false.
Proof.
  destruct c as [[] [] [] [] [] [] [] []]; vm_compute; intros H;
    try discriminate H; repeat split.
Qed.

Lemma separator_not_slash (c : ascii) : separator c = true -> slash c = false.
Proof.
  destruct c as [[] [] [] [] [] [] [] []]; vm_compute; intros H;
    try discriminate H; reflexivity.
Qed.

Lemma skip_word_length (s : string) :
  (String.length (skip_word s) <= String.length s)%nat.
Proof.
  induction s as [|c r IH]; simpl; [lia|].
  destruct (lower_or_digit c); simpl; lia.
Qed.

Lemma skip_word_start (s : string) :
  match skip_word s with
  | String c _ => lower_or_digit c = false
  | EmptyString => True
  end.
Proof.
  induction s as [|c r IH]; simpl; [exact I|].
  destruct (lower_or_digit c) eqn:E; [exact IH|exact E].
Qed.

Lemma after_chain_length (joins : ascii -> bool) (s : string) :
  (String.length (after_chain joins s) <= String.length s)%nat.
Proof.
  induction s as [|c r IH]; simpl; [lia|].
  destruct (lower_or_digit c); [lia|].
  destruct (joins c); [|simpl; lia].
  destruct r as [|d r']; [simpl; lia|].
  destruct (lower_or_digit d); [lia|simpl; lia].
Qed.

Lemma after_chain_skip_word (joins : ascii -> bool) (s : string) :
  after_chain joins (skip_word s) = after_chain joins s.
Proof.
  induction s as [|c r IH]; [reflexivity|].
  cbn [skip_word]. destruct (lower_or_digit c) eqn:E; [|reflexivity].
  cbn [after_chain]. now rewrite E.
Qed.

(** *** Repetitions *)

Lemma repetition_S (step : string -> (string -> option string) -> option string)
  (k : string -> option string) (fuel : nat) (s : string) :
  repetition step k (S fuel) s
  = match step s (fun rest =>
                    if Nat.ltb (String.length rest) (String.length s)
                    then repetition step k fuel rest
                    else None) with
    | Some e => Some e
    | None => k s
    end.
Proof. reflexivity. Qed.

Lemma matches_class (accepts : ascii -> bool) (s : string)
  (k : string -> option string) :
  matches (Class accepts) s k
  = match s with
    | String c rest => if accepts c then k rest else None
    | EmptyString => None
    end.
Proof. reflexivity. Qed.

Lemma matches_seq (a b : regex) (s : string) (k : string -> option string) :
  matches (Seq a b) s k = matches a s (fun rest => matches b rest k).
Proof. reflexivity. Qed.

Lemma matches_star (a : regex) (s : string) (k : string -> option string) :
  matches (Star a) s k = repetition (matches a) k (String.length s) s.
Proof. reflexivity. Qed.

Lemma shorter_tail (c : ascii) (r : string) :
  Nat.ltb (String.length r) (String.length (String c r)) = true.
Proof. apply Nat.ltb_lt. simpl. lia. Qed.

(** A repetition of a class, when what follows fails in front of a
    character of the class: the whole run is consumed. *)
Lemma repetition_word_averse
  (k : string -> option string) (s : string) (fuel : nat) :
  (forall c t, lower_or_digit c = true -> k (String c t) = None) ->
  (String.length s <= fuel)%nat ->
  repetition (matches (Class lower_or_digit)) k fuel s = k (skip_word s).
Proof.
  intros Hk. revert fuel. induction s as [|c r IH]; intros fuel Hf.
  - destruct fuel; reflexivity.
  - destruct fuel as [|fuel]; [simpl in Hf; lia|].
    rewrite repetition_S, matches_class. cbn [skip_word].
    destruct (lower_or_digit c) eqn:E; [|reflexivity].
    rewrite shorter_tail, IH by (simpl in Hf; lia).
    destruct (k (skip_word r)); [reflexivity|]. now rewrite Hk.
Qed.

(** A repetition of a class, when what follows accepts the text after
    the whole run: the whole run is consumed. *)
Lemma repetition_word_first
  (k : string -> option string) (s : string) (fuel : nat) (e : string) :
  k (skip_word s) = Some e ->
  (String.length s <= fuel)%nat ->
  repetition (matches (Class lower_or_digit)) k fuel s = Some e.
Proof.
  revert fuel. induction s as [|c r IH]; intros fuel Hk Hf.
  - destruct fuel; exact Hk.
  - destruct fuel as [|fuel]; [simpl in Hf; lia|].
    rewrite repetition_S, matches_class. cbn [skip_word] in Hk.
    destruct (lower_or_digit c) eqn:E.
    + rewrite shorter_tail, (IH fuel Hk) by (simpl in Hf; lia). reflexivity.
    + exact Hk.
Qed.

Lemma matches_word (k : string -> option string) (s : string) :
  matches word s k
  = match s with
    | String c r =>
        if lower_or_digit c
        then repetition (matches (Class lower_or_digit)) k (String.length r) r
        else None
    | EmptyString => None
    end.
Proof. destruct s as [|c r]; reflexivity. Qed.

(** *** A component *)

Lemma matches_joined (k : string -> option string) (s : string) :
  matches (Seq (Class separator) word) s k
  = match s with
    | String c r => if separator c then matches word r k else None
    | EmptyString => None
    end.
Proof. destruct s as [|c r]; reflexivity. Qed.

Lemma repetition_joined_at_word
  (k : string -> option string) (fuel : nat) (c : ascii) (t : string) :
  lower_or_digit c = true ->
  repetition (matches (Seq (Class separator) word)) k fuel (String c t)
  = k (String c t).
Proof.
  intros E. destruct fuel as [|fuel]; [reflexivity|].
  rewrite repetition_S, matches_joined.
  now rewrite (proj1 (lower_or_digit_only c E)).
Qed.

Lemma repetition_joined_nil (k : string -> option string) (fuel : nat) :
  repetition (matches (Seq (Class separator) word)) k fuel EmptyString
  = k EmptyString.
Proof. destruct fuel; reflexivity. Qed.

(** The words joined by separators after a first word, when what follows
    fails wherever the chain could have stopped earlier. *)
Lemma chain_averse (k : string -> option string) :
  (forall c t, lower_or_digit c = true -> k (String c t) = None) ->
  (forall c d t, separator c = true -> lower_or_digit d = true ->
                 k (String c (String d t)) = None) ->
  forall (n : nat) (s : string) (fuel : nat),
    (String.length s <= n)%nat ->
    (String.length s <= fuel)%nat ->
    match s with
    | String c _ => lower_or_digit c = false
    | EmptyString => True
    end ->
    repetition (matches (Seq (Class separator) word)) k fuel s
    = k (after_chain separator s).
Proof.
  intros Hk1 Hk2. induction n as [|n IH]; intros s fuel Hn Hf Hs.
  - destruct s; [apply repetition_joined_nil|simpl in Hn; lia].
  - destruct s as [|c r]; [apply repetition_joined_nil|].
    destruct fuel as [|fuel]; [simpl in Hf; lia|].
    rewrite repetition_S, matches_joined. cbn [after_chain]. rewrite Hs.
    destruct (separator c) eqn:Es; [|reflexivity].
    rewrite matches_word. destruct r as [|d r]; [reflexivity|].
    destruct (lower_or_digit d) eqn:Ed; [|reflexivity].
    set (kg := fun rest : string => _).
    assert (Hkg : forall c' t, lower_or_digit c' = true -> kg (String c' t) = None).
    { intros c' t E. unfold kg. destruct (Nat.ltb _ _); [|reflexivity].
      rewrite repetition_joined_at_word by exact E. now apply Hk1. }
    rewrite (repetition_word_averse kg r (String.length r) Hkg) by lia.
    pose proof (skip_word_length r) as Hl. pose proof (skip_word_start r) as Hw.
    unfold kg.
    assert (G : Nat.ltb (String.length (skip_word r))
                  (String.length (String c (String d r))) = true)
      by (apply Nat.ltb_lt; simpl; lia).
    rewrite G, IH; [| simpl in Hn; lia | simpl in Hf; lia | exact Hw].
    rewrite after_chain_skip_word. cbn [after_chain]. rewrite Ed.
    destruct (k (after_chain separator r)); [reflexivity|]. now apply Hk2.
Qed.

(** The same when what follows accepts every text. *)
Lemma chain_total :
  forall (n : nat) (s : string) (fuel : nat),
    (String.length s <= n)%nat ->
    (String.length s <= fuel)%nat ->
    match s with
    | String c _ => lower_or_digit c = false
    | EmptyString => True
    end ->
    repetition (matches (Seq (Class separator) word)) Some fuel s
    = Some (after_chain separator s).
Proof.
  induction n as [|n IH]; intros s fuel Hn Hf Hs.
  - destruct s; [apply repetition_joined_nil|simpl in Hn; lia].
  - destruct s as [|c r]; [apply repetition_joined_nil|].
    destruct fuel as [|fuel]; [simpl in Hf; lia|].
    rewrite repetition_S, matches_joined. cbn [after_chain]. rewrite Hs.
    destruct (separator c) eqn:Es; [|reflexivity].
    rewrite matches_word. destruct r as [|d r]; [reflexivity|].
    destruct (lower_or_digit d) eqn:Ed; [|reflexivity].
    set (kg := fun rest : string => _).
    pose proof (skip_word_length r) as Hl. pose proof (skip_word_start r) as Hw.
    assert (Hkg : kg (skip_word r) = Some (after_chain separator r)).
    { unfold kg.
      assert (G : Nat.ltb (String.length (skip_word r))
                    (String.length (String c (String d r))) = true)
        by (apply Nat.ltb_lt; simpl; lia).
      rewrite G, IH; [| simpl in Hn; lia | simpl in Hf; lia | exact Hw].
      now rewrite after_chain_skip_word. }
    rewrite (repetition_word_first kg r (String.length r) _ Hkg) by lia.
    cbn [after_chain]. now rewrite Ed.
Qed.

Lemma component_averse (k : string -> option string) (s : string) :
  (forall c t, lower_or_digit c = true -> k (String c t) = None) ->
  (forall c d t, separator c = true -> lower_or_digit d = true ->
                 k (String c (String d t)) = None) ->
  matches component s k
  = match s with
    | String c r => if lower_or_digit c then k (after_chain separator r) else None
    | EmptyString => None
    end.
Proof.
  intros Hk1 Hk2. unfold component. rewrite matches_seq, matches_word.
  destruct s as [|c r]; [reflexivity|].
  destruct (lower_or_digit c) eqn:Ec; [|reflexivity].
  rewrite repetition_word_averse; [| |lia].
  - rewrite matches_star.
    rewrite (chain_averse k Hk1 Hk2 (String.length (skip_word r)))
      by (try lia; apply skip_word_start).
    now rewrite after_chain_skip_word.
  - intros c' t E. rewrite matches_star, repetition_joined_at_word by exact E.
    now apply Hk1.
Qed.

Lemma component_total (s : string) :
  matches component s Some
  = match s with
    | String c r => if lower_or_digit c then Some (after_chain separator r) else None
    | EmptyString => None
    end.
Proof.
  unfold component. rewrite matches_seq, matches_word.
  destruct s as [|c r]; [reflexivity|].
  destruct (lower_or_digit c) eqn:Ec; [|reflexivity].
  apply repetition_word_first; [|lia].
  rewrite matches_star.
  rewrite (chain_total (String.length (skip_word r)))
    by (try lia; apply skip_word_start).
  now rewrite after_chain_skip_word.
Qed.

(** *** The whole pattern *)

Lemma after_chain_joiner (r : string) :
  after_chain joiner r
  = match after_chain separator r with
    | String c (String d u) =>
        if slash c && lower_or_digit d then after_chain joiner u
        else after_chain separator r
    | t => t
    end.
Proof.
  induction r as [|c r IH]; [reflexivity|].
  cbn [after_chain].
  destruct (lower_or_digit c) eqn:Ec; [exact IH|].
  assert (Ej : joiner c = separator c || slash c) by reflexivity.
  rewrite Ej. clear Ej.
  destruct (separator c) eqn:Es; cbn [orb].
  - destruct r as [|d r]; [reflexivity|].
    destruct (lower_or_digit d) eqn:Ed; [exact IH|].
    rewrite Ed, andb_false_r. reflexivity.
  - destruct (slash c) eqn:El.
    + destruct r as [|d r]; [reflexivity|].
      destruct (lower_or_digit d) eqn:Ed; cbn [andb]; [|reflexivity].
      cbn [after_chain]. now rewrite Ed.
    + destruct r as [|d r]; reflexivity.
Qed.

Lemma matches_part (k : string -> option string) (s : string) :
  matches (Seq component (Class slash)) s k
  = match s with
    | String c r =>
        if lower_or_digit c then
          match after_chain separator r with
          | String c' u => if slash c' then k u else None
          | EmptyString => None
          end
        else None
    | EmptyString => None
    end.
Proof.
  rewrite matches_seq, component_averse.
  - destruct s as [|c r]; [reflexivity|]. now rewrite matches_class.
  - intros c t E. rewrite matches_class.
    now rewrite (proj1 (proj2 (lower_or_digit_only c E))).
  - intros c d t E _. rewrite matches_class. now rewrite (separator_not_slash c E).
Qed.

Lemma pattern_loop (n : nat) (s : string) (fuel : nat) :
  (String.length s <= n)%nat ->
  (String.length s <= fuel)%nat ->
  repetition (matches (Seq component (Class slash)))
    (fun rest => matches component rest Some) fuel s
  = name_at s.
Proof.
  revert s fuel. induction n as [|n IH]; intros s fuel Hn Hf.
  - destruct s; [|simpl in Hn; lia]. destruct fuel; reflexivity.
  - destruct s as [|c r]; [destruct fuel; reflexivity|].
    destruct fuel as [|fuel]; [simpl in Hf; lia|].
    rewrite repetition_S, matches_part, component_total. unfold name_at.
    destruct (lower_or_digit c) eqn:Ec; [|reflexivity].
    rewrite after_chain_joiner.
    pose proof (after_chain_length separator r) as Hl.
    destruct (after_chain separator r) as [|c' u] eqn:Et; [reflexivity|].
    destruct (slash c') eqn:El.
    + assert (G : Nat.ltb (String.length u) (String.length (String c r)) = true)
        by (apply Nat.ltb_lt; simpl in *; lia).
      rewrite G, IH by (simpl in *; lia).
      destruct u as [|d u']; [reflexivity|]. unfold name_at. cbn [andb].
      destruct (lower_or_digit d); reflexivity.
    + destruct u as [|d u']; reflexivity.
Qed.

(** The pattern matches, at the start of a text, the name the text
    starts with. *)
Lemma pattern_matches_name (s : string) :
  matches package_name_pattern s Some = name_at s.
Proof.
  unfold package_name_pattern. rewrite matches_seq, matches_star.
  now apply (pattern_loop (String.length s)).
Qed.

Lemma scan_ext (m m' : string -> option string) (s : string) (skip : nat) :
  (forall t, m t = m' t) -> scan m s skip = scan m' s skip.
Proof.
  intros H. revert skip. induction s as [|c r IH]; intros skip.
  - destruct skip; [|reflexivity]. cbn [scan]. rewrite H. reflexivity.
  - destruct skip as [|n]; cbn [scan]; [|apply IH].
    rewrite H. destruct (m' (String c r)); now rewrite IH.
Qed.

Lemma findall_names (s : string) : findall package_name_pattern s = names s.
Proof. apply scan_ext. exact pattern_matches_name. Qed.

(** *** Names in a text *)

Lemma substring_prefix (n t : string) :
  substring 0 (String.length n) (n +:+ t) = n.
Proof.
  induction n as [|c n IH]; simpl.
  - destruct t; reflexivity.
  - now rewrite IH.
Qed.

Lemma scan_skip (m : string -> option string) (r t : string) :
  scan m (r +:+ t) (String.length r) = scan m t 0.
Proof. induction r as [|c r IH]; [reflexivity|]. exact IH. Qed.

Lemma names_wordless_prefix (pre s : string) :
  wordless pre = true -> names (pre +:+ s) = names s.
Proof.
  unfold names. induction pre as [|c pre IH]; intros H; [reflexivity|].
  simpl in H. apply andb_prop in H as [Hc H]. apply negb_true_iff in Hc.
  change (String c pre +:+ s) with (String c (pre +:+ s)).
  cbn [scan name_at]. rewrite Hc. now apply IH.
Qed.

Lemma append_nil_r (s : string) : s +:+ EmptyString = s.
Proof.
  induction s as [|c s IH]; [reflexivity|].
  change (String c (s +:+ EmptyString) = String c s). now rewrite IH.
Qed.

Lemma names_wordless (s : string) : wordless s = true -> names s = [].
Proof.
  intros H. rewrite <- (append_nil_r s).
  now rewrite (names_wordless_prefix s EmptyString H).
Qed.

Lemma after_chain_stops (t : string) :
  stops t = true -> after_chain joiner t = t.
Proof.
  destruct t as [|c t']; [reflexivity|]. unfold stops. cbn [after_chain].
  intros H. apply andb_prop in H as [Hc H]. apply negb_true_iff in Hc.
  rewrite Hc. destruct (joiner c); [|reflexivity]. cbn [negb orb] in H.
  destruct t' as [|d t'']; [reflexivity|]. apply negb_true_iff in H.
  now rewrite H.
Qed.

Lemma after_chain_app (r t : string) :
  after_chain joiner r = EmptyString -> stops t = true ->
  after_chain joiner (r +:+ t) = t.
Proof.
  intros Hr Ht. induction r as [|c r IH]; [now apply after_chain_stops|].
  change (String c r +:+ t) with (String c (r +:+ t)).
  cbn [after_chain] in *. destruct (lower_or_digit c); [now apply IH|].
  destruct (joiner c); [|discriminate].
  destruct r as [|d r']; [discriminate|].
  change (String d r' +:+ t) with (String d (r' +:+ t)) in *. cbv beta iota.
  destruct (lower_or_digit d); [now apply IH|discriminate].
Qed.

Lemma is_name_inv (n : string) :
  is_name n = true ->
  exists c r, n = String c r /\ lower_or_digit c = true
              /\ after_chain joiner r = EmptyString.
Proof.
  unfold is_name, name_at. destruct n as [|c r]; [discriminate|].
  destruct (lower_or_digit c) eqn:Ec; [|discriminate].
  destruct (after_chain joiner r) eqn:E; [|discriminate].
  intros _. now exists c, r.
Qed.

(** A name followed by a text after which it does not go on is found as
    it is, and the search goes on behind it. *)
Lemma names_name_first (n t : string) :
  is_name n = true -> stops t = true -> names (n +:+ t) = n :: names t.
Proof.
  intros Hn Ht. destruct (is_name_inv n Hn) as (c & r & -> & Ec & Er).
  unfold names. change (String c r +:+ t) with (String c (r +:+ t)).
  cbn [scan name_at]. rewrite Ec, (after_chain_app r t Er Ht).
  assert (L : (String.length (String c (r +:+ t)) - String.length t)%nat
              = S (String.length r)).
  { cbn [String.length]. rewrite append_length. lia. }
  rewrite L. f_equal.
  - exact (substring_prefix (String c r) t).
  - replace (S (String.length r) - 1)%nat with (String.length r) by lia.
    apply scan_skip.
Qed.

Lemma wordless_stops (t : string) : wordless t = true -> stops t = true.
Proof.
  destruct t as [|c t']; [reflexivity|]. simpl. intros H.
  apply andb_prop in H as [-> H]. destruct t' as [|d t'']; [now rewrite orb_true_r|].
  simpl in H. apply andb_prop in H as [-> _]. now rewrite orb_true_r.
Qed.

Lemma parts_stops (mid n : string) :
  wordless mid = true -> parts mid = true -> stops (mid +:+ n) = true.
Proof.
  destruct mid as [|c mid']; [discriminate|]. simpl. intros H P.
  apply andb_prop in H as [-> H]. cbn [andb].
  destruct mid' as [|d mid'']; [now rewrite P|].
  simpl in H. apply andb_prop in H as [Hd _].
  change (String d mid'' +:+ n) with (String d (mid'' +:+ n)). cbv beta iota.
  now rewrite Hd, orb_true_r.
Qed.

Section InitCheck.

Variable exn_str : exn -> string.
Variable init_service : string -> option exn.

Lemma init_unfold (pkg_name : string) :
  init exn_str init_service pkg_name
  = if existsb isupper (list_ascii_of_string pkg_name) then
      (false,
       [coloured "red" ("Unable to initialize " +:+ pkg_name
                        +:+ ": package name must not contain any upper-case characters")])
    else if negb (Nat.eqb (length (names pkg_name)) 1) then
           (false, pattern_refusal pkg_name)
         else
           match init_service pkg_name with
           | Some e =>
               (true, [coloured "red" ("Unable to initialize " +:+ pkg_name +:+ ": "
                                       +:+ exn_str e)])
           | None =>
               (true,
                [coloured "green" ("Created a latch workflow called "
                                   +:+ pkg_name +:+ ".");
                 coloured "green" "Run";
                 coloured "green" (tab +:+ "$ latch register " +:+ pkg_name);
                 coloured "green" "To register the workflow with console.latch.bio."])
           end.
Proof. unfold init. now rewrite findall_names. Qed.

(** The command calls the service exactly for the texts without
    upper-case character in which there is one name and no more: one
    chain of words of lower-case letters and digits joined by single
    periods, underscores, hyphens and slashes, that cannot be extended.
    What stands before and after the name is not looked at. *)
Theorem init_calls_service_for_one_name (pkg_name : string) :
  fst (init exn_str init_service pkg_name) = true
  <-> existsb isupper (list_ascii_of_string pkg_name) = false
      /\ exists name, names pkg_name = [name].
Proof.
  rewrite init_unfold.
  destruct (existsb isupper (list_ascii_of_string pkg_name)).
  - cbn [fst]. split; [discriminate|]. now intros [H _].
  - destruct (names pkg_name) as [|a [|b l]]; cbn [length Nat.eqb negb fst].
    + split; [discriminate|]. intros [_ [name H]]. discriminate.
    + destruct (init_service pkg_name); cbn [fst];
        (split; [intros _; split; [reflexivity|now exists a]|reflexivity]).
    + split; [discriminate|]. intros [_ [name H]]. discriminate.
Qed.

(** A name is accepted with anything before and after it that has no
    lower-case letter, digit or upper-case character: a package name that
    ends in a hyphen or an underscore, or starts with one, passes the
    check, and is handed to the service as it is. *)
Theorem init_accepts_surrounded_name (pre n post : string) :
  wordless pre = true ->
  is_name n = true ->
  wordless post = true ->
  existsb isupper (list_ascii_of_string (pre +:+ n +:+ post)) = false ->
  names (pre +:+ n +:+ post) = [n]
  /\ fst (init exn_str init_service (pre +:+ n +:+ post)) = true
  /\ (init_service (pre +:+ n +:+ post) = None ->
      snd (init exn_str init_service (pre +:+ n +:+ post))
      = [coloured "green" ("Created a latch workflow called "
                           +:+ (pre +:+ n +:+ post) +:+ ".");
         coloured "green" "Run";
         coloured "green" (tab +:+ "$ latch register " +:+ (pre +:+ n +:+ post));
         coloured "green" "To register the workflow with console.latch.bio."]).
Proof.
  intros Hpre Hn Hpost Hup.
  assert (N : names (pre +:+ n +:+ post) = [n]).
  { rewrite (names_wordless_prefix pre _ Hpre).
    rewrite (names_name_first n post Hn (wordless_stops post Hpost)).
    now rewrite (names_wordless post Hpost). }
  split; [exact N|]. rewrite init_unfold, Hup, N. cbn [length Nat.eqb negb].
  destruct (init_service (pre +:+ n +:+ post)); cbn [fst snd].
  - split; [reflexivity|discriminate].
  - split; reflexivity.
Qed.

(** A text without lower-case letter or digit, the empty one included, is
    refused, and so is a text with two names: two names with more between
    them than one joiner.  The service is not called and the two lines
    about the regular expression are printed. *)
Theorem init_refuses_no_name_and_two_names :
  (forall s,
     wordless s = true ->
     existsb isupper (list_ascii_of_string s) = false ->
     init exn_str init_service s = (false, pattern_refusal s))
  /\ (forall n1 mid n2,
        is_name n1 = true -> is_name n2 = true ->
        wordless mid = true -> parts mid = true ->
        existsb isupper (list_ascii_of_string (n1 +:+ mid +:+ n2)) = false ->
        names (n1 +:+ mid +:+ n2) = [n1; n2]
        /\ init exn_str init_service (n1 +:+ mid +:+ n2)
           = (false, pattern_refusal (n1 +:+ mid +:+ n2))).
Proof.
  split.
  - intros s Hs Hup. now rewrite init_unfold, Hup, (names_wordless s Hs).
  - intros n1 mid n2 H1 H2 Hmid Hp Hup.
    assert (N : names (n1 +:+ mid +:+ n2) = [n1; n2]).
    { rewrite (names_name_first n1 _ H1 (parts_stops mid n2 Hmid Hp)).
      rewrite (names_wordless_prefix mid _ Hmid).
      pose proof (names_name_first n2 EmptyString H2 eq_refl) as E.
      rewrite append_nil_r in E. now rewrite E. }
    split; [exact N|]. now rewrite init_unfold, Hup, N.
Qed.

End InitCheck.

(** ** Concrete package names *)

Lemma init_calls_service_for_one_name_witness :
  fst (init str_of_exn init_succeeds "wf_1/align-reads.v2") = true
  /\ names "wf_1/align-reads.v2" = ["wf_1/align-reads.v2"].
Proof.
  assert (N : names "wf_1/align-reads.v2" = ["wf_1/align-reads.v2"])
    by (vm_compute; reflexivity).
  split; [|exact N].
  apply (init_calls_service_for_one_name str_of_exn init_succeeds
           "wf_1/align-reads.v2").
  split; [reflexivity|]. exists "wf_1/align-reads.v2". exact N.
Defined.

Lemma init_accepts_surrounded_name_witness :
  names ("_" +:+ "my-workflow" +:+ "-") = ["my-workflow"]
  /\ fst (init str_of_exn init_succeeds ("_" +:+ "my-workflow" +:+ "-")) = true
  /\ (init_succeeds ("_" +:+ "my-workflow" +:+ "-") = None ->
      snd (init str_of_exn init_succeeds ("_" +:+ "my-workflow" +:+ "-"))
      = [coloured "green" ("Created a latch workflow called "
                           +:+ ("_" +:+ "my-workflow" +:+ "-") +:+ ".");
         coloured "green" "Run";
         coloured "green" (tab +:+ "$ latch register "
                           +:+ ("_" +:+ "my-workflow" +:+ "-"));
         coloured "green" "To register the workflow with console.latch.bio."]).
Proof.
  exact (init_accepts_surrounded_name str_of_exn init_succeeds
           "_" "my-workflow" "-" eq_refl eq_refl eq_refl eq_refl).
Defined.

Lemma init_refuses_no_name_and_two_names_witness :
  init str_of_exn init_succeeds EmptyString = (false, pattern_refusal EmptyString)
  /\ init str_of_exn init_succeeds ("align" +:+ "--" +:+ "reads")
     = (false, pattern_refusal ("align" +:+ "--" +:+ "reads")).
Proof.
  split.
  - exact (proj1 (init_refuses_no_name_and_two_names str_of_exn init_succeeds)
             EmptyString eq_refl eq_refl).
  - exact (proj2 (proj2 (init_refuses_no_name_and_two_names str_of_exn init_succeeds)
                    "align" "--" "reads" eq_refl eq_refl eq_refl eq_refl eq_refl)).
Defined.
